(** * Address book: contact fields, records and the contact store

    A shallow embedding of [ab_classes.py] (the classes [Field], [Name],
    [Phone], [Email], [Birthday], [Record] and [AddressBook]), of the
    Python built-ins those classes call, and of the part of [main.py] that
    does not read the console: the decorator [input_error], the command
    table, [command_parser] and the handlers that work on the book alone.

    Conventions.
    - A Python [int] is a [Z]; a Python [str] is a [string] whose characters
      are read as the code points 0..255 (Rocq's [ascii] as Latin-1), and the
      character tables below ([isdecimal], [isnumeric], [isspace], case
      folding) are Python's tables restricted to that range.
    - A method that mutates [self] is a computation in the monad [M S], which
      threads the object's state and keeps it when an exception is raised,
      as Python does: [run] returns the outcome together with the state the
      object is left in.
    - Python exceptions are the constructors of [exn].
    - The platform is a 64-bit one: [sys.maxsize] is [2^63 - 1], the
      largest [Py_ssize_t]. A list method handed an index outside that
      type raises [OverflowError], and [islice] refuses a bound above
      [sys.maxsize] with [ValueError]. *)

From Stdlib Require Import ZArith String Ascii List Bool Lia DecimalString.
From Stdlib.Strings Require Byte.
Import ListNotations.
Local Open Scope string_scope.
Local Open Scope Z_scope.

(** ** Outcomes and the state-and-exception monad *)

Inductive exn : Type :=
| ValueError
| TypeError
| IndexError
| KeyError
| AttributeError
| FileNotFoundError
| UnpicklingError
| OverflowError.

Inductive result (A : Type) : Type :=
| Ok (a : A)
| Raise (e : exn).

Arguments Ok {A} a.
Arguments Raise {A} e.

Definition result_bind {A B : Type} (r : result A) (k : A -> result B) : result B :=
  match r with
  | Ok a => k a
  | Raise e => Raise e
  end.

Definition M (S A : Type) : Type := S -> result A * S.

Definition ret {S A : Type} (a : A) : M S A := fun s => (Ok a, s).

Definition raise {S A : Type} (e : exn) : M S A := fun s => (Raise e, s).

Definition bind {S A B : Type} (m : M S A) (k : A -> M S B) : M S B :=
  fun s =>
    match m s with
    | (Ok a, s') => k a s'
    | (Raise e, s') => (Raise e, s')
    end.

Definition get {S : Type} : M S S := fun s => (Ok s, s).

Definition put {S : Type} (s : S) : M S unit := fun _ => (Ok tt, s).

Definition run {S A : Type} (m : M S A) (s : S) : result A * S := m s.

Declare Scope py_scope.
Delimit Scope py_scope with py.
Notation "x <- m ;; k" := (bind m (fun x => k))
  (at level 61, m at next level, right associativity) : py_scope.
Notation "m ;; k" := (bind m (fun _ => k))
  (at level 61, right associativity) : py_scope.
Notation "x <~ r ;; k" := (result_bind r (fun x => k))
  (at level 61, r at next level, right associativity) : py_scope.

(** ** Python [str] *)

Module Str.

Definition code (c : ascii) : Z := Z.of_N (N_of_ascii c).

Definition len (s : string) : Z := Z.of_nat (String.length s).

Definition is_empty (s : string) : bool :=
  match s with
  | EmptyString => true
  | String _ _ => false
  end.

Fixpoint forallb (p : ascii -> bool) (s : string) : bool :=
  match s with
  | EmptyString => true
  | String c r => p c && forallb p r
  end.

Fixpoint existsb (p : ascii -> bool) (s : string) : bool :=
  match s with
  | EmptyString => false
  | String c r => p c || existsb p r
  end.

(** Unicode category Nd below 256: the ten ASCII digits. *)
Definition char_isdecimal (c : ascii) : bool :=
  (48 <=? code c) && (code c <=? 57).

(** Characters with a numeric value below 256: the digits, superscript
    two, three and one, and the fractions one quarter, one half and three
    quarters. *)
Definition char_isnumeric (c : ascii) : bool :=
  char_isdecimal c
  || (code c =? 178) || (code c =? 179) || (code c =? 185)
  || (code c =? 188) || (code c =? 189) || (code c =? 190).

(** Whitespace below 256, as [str.isspace] and [str.strip] see it. *)
Definition char_isspace (c : ascii) : bool :=
  ((9 <=? code c) && (code c <=? 13))
  || ((28 <=? code c) && (code c <=? 32))
  || (code c =? 133) || (code c =? 160).

(** [s.isdecimal()]: at least one character and all of them decimal. *)
Definition isdecimal (s : string) : bool :=
  negb (is_empty s) && forallb char_isdecimal s.

(** [s.isnumeric()]. *)
Definition isnumeric (s : string) : bool :=
  negb (is_empty s) && forallb char_isnumeric s.

Fixpoint lstrip (s : string) : string :=
  match s with
  | EmptyString => EmptyString
  | String c r => if char_isspace c then lstrip r else s
  end.

Fixpoint rstrip (s : string) : string :=
  match s with
  | EmptyString => EmptyString
  | String c r =>
      let r' := rstrip r in
      if is_empty r' && char_isspace c then EmptyString else String c r'
  end.

(** [s.strip()]. *)
Definition strip (s : string) : string := rstrip (lstrip s).

Fixpoint drop (n : nat) (s : string) : string :=
  match n, s with
  | O, _ => s
  | S _, EmptyString => EmptyString
  | S n', String _ r => drop n' r
  end.

(** [s.startswith(p)]. *)
Fixpoint startswith (p s : string) : bool :=
  match p with
  | EmptyString => true
  | String a p' =>
      match s with
      | EmptyString => false
      | String b s' => Ascii.eqb a b && startswith p' s'
      end
  end.

(** [s.removeprefix(p)]. *)
Definition removeprefix (p s : string) : string :=
  if startswith p s then drop (String.length p) s else s.

(** [s.replace(old, new)] for a one-character [old]. *)
Fixpoint replace (old : ascii) (new : string) (s : string) : string :=
  match s with
  | EmptyString => EmptyString
  | String c r =>
      if Ascii.eqb c old then new ++ replace old new r
      else String c (replace old new r)
  end.

(** [sep.join(l)]. *)
Fixpoint join (sep : string) (l : list string) : string :=
  match l with
  | [] => EmptyString
  | [x] => x
  | x :: r => x ++ sep ++ join sep r
  end.

(** [str(n)] for an [int]. *)
Definition of_int (n : Z) : string := NilZero.string_of_int (Z.to_int n).

(** Two-digit zero-padded rendering, as [%d] and [%m] of [strftime]. *)
Definition pad2 (n : Z) : string :=
  if n <? 10 then "0" ++ of_int n else of_int n.

Fixpoint concat (l : list string) : string :=
  match l with
  | [] => EmptyString
  | x :: r => x ++ concat r
  end.

End Str.

(** ** The platform's index range *)

Module Sys.

(** [sys.maxsize]. *)
Definition maxsize : Z := 9223372036854775807.

(** An [int] that converts to the C type [Py_ssize_t]. *)
Definition fits_ssize_t (i : Z) : bool := (- maxsize - 1 <=? i) && (i <=? maxsize).

End Sys.

(** ** Python [list]: the index operations [Record] uses

    A list holds at most [sys.maxsize] items, so an index that does not
    convert to [Py_ssize_t] is also out of the range of the list: the
    failure is then the [OverflowError] of the conversion, which Python
    makes first, and [IndexError] otherwise. *)

Module PyList.

Section Ops.
Context {A : Type}.

Definition len (l : list A) : Z := Z.of_nat (List.length l).

(** The exception of an index that is out of range. *)
Definition index_error (i : Z) : exn :=
  if Sys.fits_ssize_t i then IndexError else OverflowError.

(** [l.pop(i)]: a negative index counts from the end; an index that is
    still out of range raises and leaves the list alone. *)
Definition pop (i : Z) : M (list A) A :=
  fun l =>
    let j := if i <? 0 then i + len l else i in
    if (j <? 0) || (len l <=? j) then (Raise (index_error i), l)
    else
      match nth_error l (Z.to_nat j) with
      | Some x => (Ok x, (firstn (Z.to_nat j) l ++ skipn (S (Z.to_nat j)) l)%list)
      | None => (Raise IndexError, l)
      end.

(** [l.insert(i, x)]: a negative index counts from the end, and the index
    is then clipped to [0 .. len l]; only an index that does not convert
    to [Py_ssize_t], which is one that would be clipped, raises. *)
Definition insert (i : Z) (x : A) : M (list A) unit :=
  fun l =>
    let j := if i <? 0 then i + len l else i in
    let k := if j <? 0 then 0 else if len l <? j then len l else j in
    if negb (Sys.fits_ssize_t i) && negb (j =? k) then (Raise OverflowError, l)
    else (Ok tt, (firstn (Z.to_nat k) l ++ x :: skipn (Z.to_nat k) l)%list).

(** [l.append(x)]. *)
Definition append (x : A) : M (list A) unit :=
  fun l => (Ok tt, (l ++ [x])%list).

End Ops.

End PyList.

(** ** The part of [re] that [AddressBook.search] exercises

    [re.match(pattern, s, flags)] compiles [pattern] and tries it at the
    start of [s]. Modelled here: a pattern made of ordinary characters,
    each matching itself, and of the dot, matching any character but a line
    feed. A pattern holding another special character (one of
    [\ [ { ( ) * + ? ^ $ |]) is outside the model, and [re_match] answers
    [None] for it. *)

Module Re.

Inductive item : Type :=
| Lit (c : ascii)
| AnyChar.

Definition special_chars : string := ".\[{()*+?^$|".

Fixpoint mem (c : ascii) (s : string) : bool :=
  match s with
  | EmptyString => false
  | String a r => Ascii.eqb c a || mem c r
  end.

Definition is_special (c : ascii) : bool := mem c special_chars.

Fixpoint parse (pattern : string) : option (list item) :=
  match pattern with
  | EmptyString => Some []
  | String c r =>
      if Ascii.eqb c "."%char then option_map (cons AnyChar) (parse r)
      else if is_special c then None
      else option_map (cons (Lit c)) (parse r)
  end.

(** Lower-casing of one character, as the case-insensitive matcher does
    it: A-Z, and the Latin-1 capitals 192..222 but the multiplication sign. *)
Definition lower (c : ascii) : ascii :=
  let n := Str.code c in
  if ((65 <=? n) && (n <=? 90))
     || ((192 <=? n) && (n <=? 222) && negb (n =? 215))
  then ascii_of_N (Z.to_N (n + 32))
  else c.

Definition item_matches (ignorecase : bool) (i : item) (c : ascii) : bool :=
  match i with
  | Lit p => if ignorecase then Ascii.eqb (lower p) (lower c) else Ascii.eqb p c
  | AnyChar => negb (Ascii.eqb c "010"%char)
  end.

Fixpoint match_items (ignorecase : bool) (items : list item) (s : string) : bool :=
  match items with
  | [] => true
  | i :: rest =>
      match s with
      | EmptyString => false
      | String c t => item_matches ignorecase i c && match_items ignorecase rest t
      end
  end.

(** [re.match(pattern, s, flags=re.IGNORECASE if ignorecase else 0)],
    read for its truth value. *)
Definition re_match (pattern s : string) (ignorecase : bool) : option bool :=
  option_map (fun items => match_items ignorecase items s) (parse pattern).

End Re.

(** ** [datetime]: naive date-times, [replace(year=...)], subtraction,
       and the two formats [Birthday] parses and prints *)

Module Datetime.

Record datetime : Type := mk_datetime {
  year : Z;
  month : Z;
  day : Z;
  hour : Z;
  minute : Z;
  second : Z;
  microsecond : Z
}.

Definition is_leap (y : Z) : bool :=
  (y mod 4 =? 0) && (negb (y mod 100 =? 0) || (y mod 400 =? 0)).

Definition days_in_month (y m : Z) : Z :=
  if m =? 2 then (if is_leap y then 29 else 28)
  else if (m =? 4) || (m =? 6) || (m =? 9) || (m =? 11) then 30
  else 31.

(** Days in the year before the first of month [m]. *)
Definition days_before_month (y m : Z) : Z :=
  fold_right Z.add 0 (map (days_in_month y) (map Z.of_nat (seq 1 (Z.to_nat (m - 1))))).

(** Days before the first of January of year [y]. *)
Definition days_before_year (y : Z) : Z :=
  let p := y - 1 in
  p * 365 + p / 4 - p / 100 + p / 400.

(** Proleptic Gregorian ordinal; the first of January of year 1 is day 1. *)
Definition ymd2ord (y m d : Z) : Z :=
  days_before_year y + days_before_month y m + d.

Definition toordinal (t : datetime) : Z := ymd2ord (year t) (month t) (day t).

(** The range check of the [date] constructor. *)
Definition valid_date (y m d : Z) : bool :=
  (1 <=? y) && (y <=? 9999) && (1 <=? m) && (m <=? 12)
  && (1 <=? d) && (d <=? days_in_month y m).

(** The range check of the time-of-day fields. *)
Definition valid_time (t : datetime) : bool :=
  (0 <=? hour t) && (hour t <? 24) && (0 <=? minute t) && (minute t <? 60)
  && (0 <=? second t) && (second t <? 60)
  && (0 <=? microsecond t) && (microsecond t <? 1000000).

Definition valid (t : datetime) : bool :=
  valid_date (year t) (month t) (day t) && valid_time t.

(** [t.replace(year=y)]: a new date-time, or [ValueError] when the date
    does not exist in year [y]. *)
Definition replace_year (t : datetime) (y : Z) : result datetime :=
  if valid_date y (month t) (day t)
  then Ok (mk_datetime y (month t) (day t) (hour t) (minute t) (second t) (microsecond t))
  else Raise ValueError.

Definition microseconds_of_day (t : datetime) : Z :=
  ((hour t * 60 + minute t) * 60 + second t) * 1000000 + microsecond t.

Definition day_us : Z := 86400 * 1000000.

(** [(a - b).days]: the difference is normalised so that seconds and
    microseconds are not negative, which makes [days] the floor. *)
Definition sub_days (a b : datetime) : Z :=
  ((toordinal a - toordinal b) * day_us
   + (microseconds_of_day a - microseconds_of_day b)) / day_us.

Definition digit_val (c : ascii) : Z := Str.code c - 48.

Definition in_range (lo hi : ascii) (c : ascii) : bool :=
  (Str.code lo <=? Str.code c) && (Str.code c <=? Str.code hi).

(** The alternatives of the [%d] group, [3[0-1]|[1-2]\d|0[1-9]|[1-9]| [1-9]],
    in the order the matcher tries them, each with the input left. *)
Definition alt_d (s : string) : list (Z * string) :=
  match s with
  | EmptyString => []
  | String a EmptyString =>
      if in_range "1" "9" a then [(digit_val a, EmptyString)] else []
  | String a (String b r) =>
      ((if Ascii.eqb a "3" && in_range "0" "1" b then [(30 + digit_val b, r)] else [])
       ++ (if in_range "1" "2" a && Str.char_isdecimal b
           then [(10 * digit_val a + digit_val b, r)] else [])
       ++ (if Ascii.eqb a "0" && in_range "1" "9" b then [(digit_val b, r)] else [])
       ++ (if in_range "1" "9" a then [(digit_val a, String b r)] else [])
       ++ (if Ascii.eqb a " " && in_range "1" "9" b then [(digit_val b, r)] else []))%list
  end.

(** The alternatives of the [%m] group, [1[0-2]|0[1-9]|[1-9]]. *)
Definition alt_m (s : string) : list (Z * string) :=
  match s with
  | EmptyString => []
  | String a EmptyString =>
      if in_range "1" "9" a then [(digit_val a, EmptyString)] else []
  | String a (String b r) =>
      ((if Ascii.eqb a "1" && in_range "0" "2" b then [(10 + digit_val b, r)] else [])
       ++ (if Ascii.eqb a "0" && in_range "1" "9" b then [(digit_val b, r)] else [])
       ++ (if in_range "1" "9" a then [(digit_val a, String b r)] else []))%list
  end.

(** The [%Y] group, four decimal digits. *)
Definition group_Y (s : string) : option (Z * string) :=
  match s with
  | String a (String b (String c (String d r))) =>
      if Str.char_isdecimal a && Str.char_isdecimal b
         && Str.char_isdecimal c && Str.char_isdecimal d
      then Some (((digit_val a * 10 + digit_val b) * 10 + digit_val c) * 10 + digit_val d, r)
      else None
  | _ => None
  end.

Definition literal (sep : ascii) (s : string) : option string :=
  match s with
  | String c r => if Ascii.eqb c sep then Some r else None
  | EmptyString => None
  end.

(** First alternative, in order, for which the rest of the pattern matches. *)
Fixpoint first_match {A B : Type} (k : A -> option B) (alts : list A) : option B :=
  match alts with
  | [] => None
  | a :: rest =>
      match k a with
      | Some b => Some b
      | None => first_match k rest
      end
  end.

(** The compiled format [%d<sep>%m<sep>%Y] tried at the start of [s]:
    day, month, year and the unconverted rest. *)
Definition match_format (sep : ascii) (s : string) : option (Z * Z * Z * string) :=
  first_match
    (fun '(d, r1) =>
       match literal sep r1 with
       | None => None
       | Some r2 =>
           first_match
             (fun '(m, r3) =>
                match literal sep r3 with
                | None => None
                | Some r4 =>
                    match group_Y r4 with
                    | None => None
                    | Some (y, r5) => Some (d, m, y, r5)
                    end
                end)
             (alt_m r2)
       end)
    (alt_d s).

(** [datetime.strptime(s, "%d<sep>%m<sep>%Y")]: [ValueError] when the
    format does not match, when input is left over, or when the date does
    not exist. *)
Definition strptime (sep : ascii) (s : string) : result datetime :=
  match match_format sep s with
  | None => Raise ValueError
  | Some (d, m, y, rest) =>
      if negb (Str.is_empty rest) then Raise ValueError
      else if valid_date y m d then Ok (mk_datetime y m d 0 0 0 0)
      else Raise ValueError
  end.

(** [datetime.strftime(t, "%d.%m.%Y")]; the year is printed in plain
    decimal, which is four digits from year 1000 on. *)
Definition strftime (t : datetime) : string :=
  Str.pad2 (day t) ++ "." ++ Str.pad2 (month t) ++ "." ++ Str.of_int (year t).

End Datetime.

(** ** The fields: [Name], [Phone], [Email], [Birthday]

    [Field.__init__] runs the subclass's [value] setter; [new] is that
    constructor, and yields an object only when the setter accepts the
    raw value. [str] is [Field.__str__] (overridden by [Birthday]). *)

Module Name.

Record t : Type := mk { value : string }.

Definition new (v : string) : result t :=
  if negb (Str.isnumeric v || (Str.len v <? 3)) then Ok (mk v)
  else Raise ValueError.

Definition str (n : t) : string := value n.

End Name.

Module Phone.

Record t : Type := mk { value : string }.

Definition min_len : Z := 5.
Definition max_len : Z := 17.

(** The chain of the setter: [strip], [removeprefix] of a plus sign, and
    the three [replace] calls that delete the opening parenthesis, the
    closing parenthesis and the hyphen. *)
Definition normalize (v : string) : string :=
  Str.replace "-" EmptyString
    (Str.replace ")" EmptyString
       (Str.replace "(" EmptyString
          (Str.removeprefix "+" (Str.strip v)))).

Definition new (v : string) : result t :=
  let new_phone := normalize v in
  if negb (Str.isdecimal new_phone)
     || negb ((min_len <=? Str.len new_phone) && (Str.len new_phone <=? max_len))
  then Raise TypeError
  else Ok (mk new_phone).

Definition str (p : t) : string := value p.

End Phone.

Module Email.

Record t : Type := mk { value : string }.

Definition str (e : t) : string := value e.

(** The setter's pattern,
    [^[a-zA-Z0-9._%+-]+@[a-zA-Z0-9.-]+\.[a-zA-Z]{2,}$], piece by piece.
    Each piece takes what must match after it; a repetition tries the
    longer match first and falls back to the shorter. *)

Definition letter (c : ascii) : bool :=
  let n := Str.code c in
  ((65 <=? n) && (n <=? 90)) || ((97 <=? n) && (n <=? 122)).

Definition alnum (c : ascii) : bool := letter c || Str.char_isdecimal c.

(** [[a-zA-Z0-9._%+-]]. *)
Definition local_char (c : ascii) : bool := alnum c || Re.mem c "._%+-".

(** [[a-zA-Z0-9.-]]. *)
Definition domain_char (c : ascii) : bool := alnum c || Re.mem c ".-".

(** [[cls]+]. *)
Fixpoint plus (cls : ascii -> bool) (k : string -> bool) (s : string) : bool :=
  match s with
  | EmptyString => false
  | String c r => cls c && (plus cls k r || k r)
  end.

(** [[cls]*]. *)
Fixpoint star (cls : ascii -> bool) (k : string -> bool) (s : string) : bool :=
  match s with
  | EmptyString => k EmptyString
  | String c r => (cls c && star cls k r) || k s
  end.

(** [[cls]{n}]. *)
Fixpoint exactly (n : nat) (cls : ascii -> bool) (k : string -> bool) (s : string) : bool :=
  match n with
  | O => k s
  | S n' =>
      match s with
      | EmptyString => false
      | String c r => cls c && exactly n' cls k r
      end
  end.

(** One given character. *)
Definition lit (ch : ascii) (k : string -> bool) (s : string) : bool :=
  match s with
  | EmptyString => false
  | String c r => Ascii.eqb c ch && k r
  end.

(** [$]: the end of the string, or a line feed that ends it. *)
Definition dollar (s : string) : bool :=
  match s with
  | EmptyString => true
  | String c EmptyString => Ascii.eqb c "010"%char
  | _ => false
  end.

(** [re.match(pattern, s)], read for its truth value. *)
Definition matches (s : string) : bool :=
  plus local_char
    (lit "@" (plus domain_char (lit "." (exactly 2 letter (star letter dollar))))) s.

Definition new (v : string) : result t :=
  if matches v then Ok (mk v) else Raise ValueError.

End Email.

Module Birthday.

Record t : Type := mk { value : Datetime.datetime }.

(** The dotted format first and, on [ValueError], the slashed one. *)
Definition new (v : string) : result t :=
  match Datetime.strptime "." v with
  | Ok d => Ok (mk d)
  | Raise ValueError =>
      match Datetime.strptime "/" v with
      | Ok d => Ok (mk d)
      | Raise e => Raise e
      end
  | Raise e => Raise e
  end.

Definition str (b : t) : string := Datetime.strftime (value b).

End Birthday.

(** ** [Record], one contact (the module is named [Rec]) *)

Module Rec.

Record t : Type := mk {
  name : Name.t;
  phones : list Phone.t;
  birthday : option Birthday.t;
  email : option Email.t
}.

(** [Record.__init__]. *)
Definition init (name : Name.t) (phone : option Phone.t)
    (birthday : option Birthday.t) (email : option Email.t) : t :=
  mk name (match phone with Some p => [p] | None => [] end) birthday email.

Definition set_phones (l : list Phone.t) (self : t) : t :=
  mk (name self) l (birthday self) (email self).

Definition set_birthday (b : option Birthday.t) (self : t) : t :=
  mk (name self) (phones self) b (email self).

Definition set_email (e : option Email.t) (self : t) : t :=
  mk (name self) (phones self) (birthday self) e.

(** A method of the list [self.phones] run on the record that owns it. *)
Definition on_phones {A : Type} (m : M (list Phone.t) A) : M t A :=
  fun self =>
    let (r, l) := m (phones self) in (r, set_phones l self).

(** [str(x)] inside an f-string, for an attribute that may be [None]. *)
Definition str_opt {A : Type} (f : A -> string) (o : option A) : string :=
  match o with
  | Some a => f a
  | None => "None"
  end.

Definition newline : string := String "010"%char EmptyString.

(** [Record.__str__]. *)
Definition str (self : t) : string :=
  Name.str (name self) ++ ": Phones: "
  ++ Str.join ", " (map Phone.str (phones self))
  ++ "; E-mail:" ++ str_opt Email.str (email self)
  ++ "; B-day:" ++ str_opt Birthday.str (birthday self)
  ++ " " ++ newline.

(** [Record.days_to_birthday]; [today] is the reading of
    [datetime.today()], time of day included. *)
Definition days_to_birthday (today : Datetime.datetime) (self : t) : result string :=
  match birthday self with
  | None => Ok "Sorry, no birthdate for this contact"
  | Some b =>
      (compare <~ Datetime.replace_year (Birthday.value b) (Datetime.year today) ;;
       if 0 <? Datetime.sub_days compare today
       then Ok (Str.of_int (Datetime.sub_days compare today) ++ " days to birthday")
       else if (Datetime.month today =? Datetime.month compare)
               && (Datetime.day today =? Datetime.day compare)
       then Ok "It is TODAY!!!"
       else
         next <~ Datetime.replace_year compare (Datetime.year today + 1) ;;
         Ok (Str.of_int (Datetime.sub_days next today) ++ " days to birthday"))%py
  end.

Definition add_phone (phone : Phone.t) : M t unit :=
  on_phones (PyList.append phone).

Definition add_email (e : Email.t) : M t unit :=
  fun self => (Ok tt, set_email (Some e) self).

Definition add_birthday (b : Birthday.t) : M t unit :=
  (self <- get ;;
   match birthday self with
   | None => put (set_birthday (Some b) self)
   | Some _ => raise IndexError
   end)%py.

Definition del_phone (num : Z) : M t Phone.t :=
  (self <- get ;;
   match phones self with
   | [] => raise IndexError
   | _ :: _ => on_phones (PyList.pop (num - 1))
   end)%py.

Definition edit_phone (phone_new : Phone.t) (num : Z) : M t unit :=
  (self <- get ;;
   match phones self with
   | [] => raise IndexError
   | _ :: _ =>
       on_phones (PyList.pop (num - 1)) ;;
       on_phones (PyList.insert (num - 1) phone_new)
   end)%py.

End Rec.

(** ** Python [dict] keyed by [str]: insertion-ordered, keys unique *)

Module Dict.

Section Ops.
Context {V : Type}.

Definition t : Type := list (string * V).

Fixpoint get (k : string) (d : t) : option V :=
  match d with
  | [] => None
  | (k', v) :: r => if String.eqb k k' then Some v else get k r
  end.

Definition contains (k : string) (d : t) : bool :=
  match get k d with
  | Some _ => true
  | None => false
  end.

(** [d.update({k: v})], which is [d[k] = v]: an existing key keeps its
    place and takes the new value, a new key goes to the end. *)
Fixpoint set (k : string) (v : V) (d : t) : t :=
  match d with
  | [] => [(k, v)]
  | (k', v') :: r =>
      if String.eqb k k' then (k', v) :: r else (k', v') :: set k v r
  end.

Fixpoint remove (k : string) (d : t) : t :=
  match d with
  | [] => []
  | (k', v') :: r =>
      if String.eqb k k' then r else (k', v') :: remove k r
  end.

Definition keys (d : t) : list string := map fst d.

Definition values (d : t) : list V := map snd d.

Definition len (d : t) : Z := Z.of_nat (List.length d).

End Ops.

Arguments t V : clear implicits.

End Dict.

(** ** [pickle], protocol 4, at the level of its opcode stream

    [AddressBook.save_to_file] and [load_from_file] hand [self.data] to
    [pickle.dump] and take it back from [pickle.load]. The model follows
    [Pickler.save] and the [Unpickler] dispatch of the standard library:
    - [pyobj] is the universe of picklable values the address book is made
      of: [None], [str], [bytes], tuples, lists, dicts with [str] keys,
      classes (found by module and name), instances with a [__dict__], and
      naive [datetime] values;
    - a blob is the list of opcodes with their arguments, from [PROTO] to
      [STOP]; how an opcode and its argument are laid out in bytes (length
      prefixes, UTF-8, framing) is beneath the model;
    - the unpickler is the stack machine: stack, metastack, memo;
    - the pickler walks the value and mirrors the memo the unpickler will
      build. Whether a string met while pickling is an object already in
      the memo is a matter of object identity, which values do not carry:
      the parameter [identity] answers it, for the n-th string saved, with
      the memo index of that very object, if it has one. Classes are found
      in the memo by module and name. Every other object is taken to be
      met once (no list, dict, instance, tuple, bytes or datetime object
      is shared). *)

Module Pickle.

#[local] Set Warnings "-register-all".

Inductive pyobj : Type :=
| PyNone
| PyStr (s : string)
| PyBytes (b : list Byte.byte)
| PyTuple (items : list pyobj)
| PyList (items : list pyobj)
| PyDict (items : list (string * pyobj))
| PyClass (modname name : string)
| PyInstance (modname name : string) (attrs : list (string * pyobj))
| PyDatetime (t : Datetime.datetime).

Inductive opcode : Type :=
| PROTO (version : Z)
| NONE
| UNICODE (s : string)
| BYTES (b : list Byte.byte)
| EMPTY_TUPLE
| TUPLE1
| TUPLE2
| TUPLE3
| TUPLE
| MARK
| EMPTY_LIST
| APPEND
| APPENDS
| EMPTY_DICT
| SETITEM
| SETITEMS
| STACK_GLOBAL
| NEWOBJ
| REDUCE
| BUILD
| MEMOIZE
| GET (i : nat)
| STOP.

Definition blob : Type := list opcode.

(** *** The ten-byte state of a naive [datetime] *)

Definition byte_of_Z (z : Z) : Byte.byte :=
  match Byte.of_N (Z.to_N z) with
  | Some b => b
  | None => Byte.x00
  end.

Definition Z_of_byte (b : Byte.byte) : Z := Z.of_N (Byte.to_N b).

(** [datetime._getstate]: year high and low, month, day, hour, minute,
    second, and the microsecond on three bytes. *)
Definition getstate (t : Datetime.datetime) : list Byte.byte :=
  map byte_of_Z
    [Datetime.year t / 256; Datetime.year t mod 256;
     Datetime.month t; Datetime.day t;
     Datetime.hour t; Datetime.minute t; Datetime.second t;
     Datetime.microsecond t / 256 / 256;
     (Datetime.microsecond t / 256) mod 256;
     Datetime.microsecond t mod 256].

(** [datetime.__new__] called with a state: ten bytes whose third, the
    fold bit apart, is a month. *)
Definition setstate (b : list Byte.byte) : option Datetime.datetime :=
  match map Z_of_byte b with
  | [yhi; ylo; m; d; h; mi; s; us1; us2; us3] =>
      if (1 <=? Z.land m 127) && (Z.land m 127 <=? 12)
      then Some (Datetime.mk_datetime (yhi * 256 + ylo)
                   (if 127 <? m then m - 128 else m) d h mi s
                   ((us1 * 256 + us2) * 256 + us3))
      else None
  | _ => None
  end.

(** *** The unpickler

    The stack is kept top first. [None] is any failure of [load]. *)

Record vm : Type := mk_vm {
  stack : list pyobj;
  metastack : list (list pyobj);
  memo : list pyobj
}.

Definition with_stack (s : list pyobj) (v : vm) : vm :=
  mk_vm s (metastack v) (memo v).

Definition push (o : pyobj) (v : vm) : vm := with_stack (o :: stack v) v.

(** [pop_mark]: the items pushed since the last [MARK], oldest first, and
    the machine with the stack of before the mark. *)
Definition pop_mark (v : vm) : option (list pyobj * vm) :=
  match metastack v with
  | s :: ms => Some (rev (stack v), mk_vm s ms (memo v))
  | [] => None
  end.

(** [dict[items[i]] = items[i + 1]] for the items taken two by two. *)
Fixpoint set_pairs (items : list pyobj) (d : list (string * pyobj))
  : option (list (string * pyobj)) :=
  match items with
  | [] => Some d
  | PyStr k :: x :: rest => set_pairs rest (Dict.set k x d)
  | _ => None
  end.

(** [inst.__dict__[k] = v] for the items of the state. *)
Definition update_attrs (state attrs : list (string * pyobj)) : list (string * pyobj) :=
  fold_left (fun d kv => Dict.set (fst kv) (snd kv) d) state attrs.

Definition step (op : opcode) (v : vm) : option vm :=
  match op with
  | PROTO version =>
      if (0 <=? version) && (version <=? 5) then Some v else None
  | NONE => Some (push PyNone v)
  | UNICODE s => Some (push (PyStr s) v)
  | BYTES b => Some (push (PyBytes b) v)
  | EMPTY_TUPLE => Some (push (PyTuple []) v)
  | TUPLE1 =>
      match stack v with
      | a :: r => Some (with_stack (PyTuple [a] :: r) v)
      | _ => None
      end
  | TUPLE2 =>
      match stack v with
      | b :: a :: r => Some (with_stack (PyTuple [a; b] :: r) v)
      | _ => None
      end
  | TUPLE3 =>
      match stack v with
      | c :: b :: a :: r => Some (with_stack (PyTuple [a; b; c] :: r) v)
      | _ => None
      end
  | TUPLE =>
      match pop_mark v with
      | Some (items, v') => Some (push (PyTuple items) v')
      | None => None
      end
  | MARK => Some (mk_vm [] (stack v :: metastack v) (memo v))
  | EMPTY_LIST => Some (push (PyList []) v)
  | APPEND =>
      match stack v with
      | x :: PyList l :: r => Some (with_stack (PyList (l ++ [x]) :: r) v)
      | _ => None
      end
  | APPENDS =>
      match pop_mark v with
      | Some (items, v') =>
          match stack v' with
          | PyList l :: r => Some (with_stack (PyList (l ++ items) :: r) v')
          | _ => None
          end
      | None => None
      end
  | EMPTY_DICT => Some (push (PyDict []) v)
  | SETITEM =>
      match stack v with
      | x :: PyStr k :: PyDict d :: r =>
          Some (with_stack (PyDict (Dict.set k x d) :: r) v)
      | _ => None
      end
  | SETITEMS =>
      match pop_mark v with
      | Some (items, v') =>
          match stack v' with
          | PyDict d :: r =>
              match set_pairs items d with
              | Some d' => Some (with_stack (PyDict d' :: r) v')
              | None => None
              end
          | _ => None
          end
      | None => None
      end
  | STACK_GLOBAL =>
      match stack v with
      | PyStr name :: PyStr modname :: r =>
          Some (with_stack (PyClass modname name :: r) v)
      | _ => None
      end
  | NEWOBJ =>
      match stack v with
      | PyTuple [] :: PyClass modname name :: r =>
          Some (with_stack (PyInstance modname name [] :: r) v)
      | _ => None
      end
  | REDUCE =>
      match stack v with
      | PyTuple [PyBytes b] :: PyClass modname name :: r =>
          if String.eqb modname "datetime" && String.eqb name "datetime"
          then
            match setstate b with
            | Some t => Some (with_stack (PyDatetime t :: r) v)
            | None => None
            end
          else None
      | _ => None
      end
  | BUILD =>
      match stack v with
      | PyDict state :: PyInstance modname name attrs :: r =>
          Some (with_stack (PyInstance modname name (update_attrs state attrs) :: r) v)
      | _ => None
      end
  | MEMOIZE =>
      match stack v with
      | x :: _ => Some (mk_vm (stack v) (metastack v) (memo v ++ [x]))
      | [] => None
      end
  | GET i =>
      match nth_error (memo v) i with
      | Some x => Some (push x v)
      | None => None
      end
  | STOP => None
  end.

(** The dispatch loop of [Unpickler.load]: [STOP] returns the top of the
    stack; running out of opcodes is [EOFError]. *)
Fixpoint exec (ops : blob) (v : vm) : option pyobj :=
  match ops with
  | [] => None
  | STOP :: _ =>
      match stack v with
      | x :: _ => Some x
      | [] => None
      end
  | op :: rest =>
      match step op v with
      | Some v' => exec rest v'
      | None => None
      end
  end.

(** [pickle.load]. *)
Definition loads (ops : blob) : option pyobj := exec ops (mk_vm [] [] []).

(** *** The pickler *)

(** What the pickler carries along: the mirror of the unpickler's memo,
    and how many strings it has saved. *)
Record pstate : Type := mk_pstate {
  p_memo : list pyobj;
  asked : nat
}.

(** A piece of pickling: the opcodes written, and the state after. *)
Definition writer : Type := pstate -> blob * pstate.

Definition emit (ops : blob) : writer := fun st => (ops, st).

Definition seq_w (a b : writer) : writer :=
  fun st =>
    let (o1, s1) := a st in
    let (o2, s2) := b s1 in
    ((o1 ++ o2)%list, s2).

Infix "+>" := seq_w (at level 61, right associativity).

(** [Pickler.memoize] under protocol 4: [MEMOIZE], and the object takes the
    next memo index. The mirror records the object as the unpickler has it
    at that point. *)
Definition memoize (o : pyobj) : writer :=
  fun st => ([MEMOIZE], mk_pstate (p_memo st ++ [o]) (asked st)).

Fixpoint all_w (ws : list writer) : writer :=
  match ws with
  | [] => emit []
  | w :: rest => w +> all_w rest
  end.

(** The successive batches [list(islice(it, 1000))] of [_batch_appends]
    and [_batch_setitems], up to the exhaustion of the items. *)
Definition BATCHSIZE : nat := 1000.

Fixpoint batches_of {A : Type} (fuel : nat) (items : list A) : list (list A) :=
  match fuel with
  | O => []
  | S fuel' =>
      match items with
      | [] => []
      | _ :: _ => firstn BATCHSIZE items :: batches_of fuel' (skipn BATCHSIZE items)
      end
  end.

Definition batches {A : Type} (items : list A) : list (list A) :=
  batches_of (List.length items) items.

(** One batch of [_batch_appends]: more than one item goes between [MARK]
    and [APPENDS], a single one before [APPEND]. *)
Definition append_batch (tmp : list writer) : writer :=
  match tmp with
  | [] => emit []
  | [w] => w +> emit [APPEND]
  | _ => emit [MARK] +> all_w tmp +> emit [APPENDS]
  end.

Definition batch_appends (items : list writer) : writer :=
  all_w (map append_batch (batches items)).

(** The memo index of a class, counting from [i] for the head of [m]. *)
Fixpoint index_class_from (modname name : string) (m : list pyobj) (i : nat)
  : option nat :=
  match m with
  | [] => None
  | PyClass md nm :: rest =>
      if String.eqb md modname && String.eqb nm name then Some i
      else index_class_from modname name rest (S i)
  | _ :: rest => index_class_from modname name rest (S i)
  end.

Definition index_class (modname name : string) (m : list pyobj) : option nat :=
  index_class_from modname name m O.

Definition holds_str (m : list pyobj) (i : nat) (s : string) : bool :=
  match nth_error m i with
  | Some (PyStr s') => String.eqb s s'
  | _ => false
  end.

Section Pickler.

(** The memo index of the n-th string saved, when that very object has
    been memoised already. *)
Variable identity : nat -> option nat.

(** [save_str], after the memo check of [save]. *)
Definition save_str (s : string) : writer :=
  fun st =>
    let st' := mk_pstate (p_memo st) (S (asked st)) in
    match identity (asked st) with
    | Some i =>
        if holds_str (p_memo st) i s then ([GET i], st')
        else (emit [UNICODE s] +> memoize (PyStr s)) st'
    | None => (emit [UNICODE s] +> memoize (PyStr s)) st'
    end.

(** [save_global], after the memo check of [save]. *)
Definition save_global (modname name : string) : writer :=
  fun st =>
    match index_class modname name (p_memo st) with
    | Some i => ([GET i], st)
    | None =>
        (save_str modname +> save_str name +> emit [STACK_GLOBAL]
         +> memoize (PyClass modname name)) st
    end.

(** One batch of [_batch_setitems]. *)
Definition setitems_batch (tmp : list (string * writer)) : writer :=
  match tmp with
  | [] => emit []
  | [(k, w)] => save_str k +> w +> emit [SETITEM]
  | _ =>
      emit [MARK] +> all_w (map (fun kw => save_str (fst kw) +> snd kw) tmp)
      +> emit [SETITEMS]
  end.

Definition batch_setitems (items : list (string * writer)) : writer :=
  all_w (map setitems_batch (batches items)).

(** [save_dict]. *)
Definition save_dict (items : list (string * writer)) : writer :=
  emit [EMPTY_DICT] +> memoize (PyDict []) +> batch_setitems items.

(** [save_tuple], given the writers of the elements. *)
Definition save_tuple (o : pyobj) (elements : list writer) : writer :=
  match elements with
  | [] => emit [EMPTY_TUPLE]
  | [_] => all_w elements +> emit [TUPLE1] +> memoize o
  | [_; _] => all_w elements +> emit [TUPLE2] +> memoize o
  | [_; _; _] => all_w elements +> emit [TUPLE3] +> memoize o
  | _ => (emit [MARK] +> all_w elements +> emit [TUPLE]) +> memoize o
  end.

(** [Pickler.save], by the type of the object. An instance goes through
    [object.__reduce_ex__]: the class, no argument, [NEWOBJ], and the
    [__dict__] as state when it is not empty. A [datetime] reduces to its
    class applied to its state. *)
Fixpoint save (o : pyobj) : writer :=
  match o with
  | PyNone => emit [NONE]
  | PyStr s => save_str s
  | PyBytes b => emit [BYTES b] +> memoize o
  | PyTuple items => save_tuple o (map save items)
  | PyList items =>
      emit [EMPTY_LIST] +> memoize (PyList []) +> batch_appends (map save items)
  | PyDict items =>
      save_dict (map (fun kv => (fst kv, save (snd kv))) items)
  | PyClass modname name => save_global modname name
  | PyInstance modname name attrs =>
      save_global modname name +> emit [EMPTY_TUPLE] +> emit [NEWOBJ]
      +> memoize (PyInstance modname name [])
      +> match attrs with
         | [] => emit []
         | _ :: _ =>
             save_dict (map (fun kv => (fst kv, save (snd kv))) attrs) +> emit [BUILD]
         end
  | PyDatetime t =>
      save_global "datetime" "datetime"
      +> (emit [BYTES (getstate t)] +> memoize (PyBytes (getstate t))
          +> emit [TUPLE1] +> memoize (PyTuple [PyBytes (getstate t)]))
      +> emit [REDUCE] +> memoize o
  end.

(** [pickle.dump]: [PROTO 4], the object, [STOP]. *)
Definition dumps (o : pyobj) : blob :=
  (PROTO 4 :: fst (save o (mk_pstate [] O)) ++ [STOP])%list.

End Pickler.

(** *** What a piece of pickling makes the unpickler do

    [does w R]: run from a machine whose memo is the pickler's mirror, the
    opcodes [w] writes take the stack [s] to any [s'] with [R s s'], leave
    the metastack alone, and leave the memo equal to the mirror after [w].
    [saves w o]: they push [o]. *)

Definition does (w : writer) (R : list pyobj -> list pyobj -> Prop) : Prop :=
  forall (st : pstate) (v : vm) (rest : blob) (s' : list pyobj),
    memo v = p_memo st ->
    R (stack v) s' ->
    exec (fst (w st) ++ rest)%list v
    = exec rest (mk_vm s' (metastack v) (p_memo (snd (w st)))).

Definition saves (w : writer) (o : pyobj) : Prop :=
  does w (fun s s' => s' = o :: s).

(** The stack effect of appending [os] to the list on top. *)
Definition extends_list (os : list pyobj) (s s' : list pyobj) : Prop :=
  exists l r, s = PyList l :: r /\ s' = PyList (l ++ os)%list :: r.

(** The stack effect of setting [items] in the dict on top. *)
Definition updates_dict (items : list (string * pyobj)) (s s' : list pyobj) : Prop :=
  exists d r, s = PyDict d :: r /\ s' = PyDict (update_attrs items d) :: r.

(** A key with the writer of its value, against a key with its value. *)
Definition saves_item (kw : string * writer) (ko : string * pyobj) : Prop :=
  fst kw = fst ko /\ saves (snd kw) (snd ko).

(** Key and value of each item, as [_batch_setitems] pushes them. *)
Definition interleave (items : list (string * pyobj)) : list pyobj :=
  flat_map (fun kv => [PyStr (fst kv); snd kv]) items.

(** The values the model pickles faithfully: the keys of a dict, and the
    attribute names of an instance, are distinct, and a [datetime] is a
    valid one. *)
Inductive picklable : pyobj -> Prop :=
| pk_none : picklable PyNone
| pk_str (s : string) : picklable (PyStr s)
| pk_bytes (b : list Byte.byte) : picklable (PyBytes b)
| pk_tuple (items : list pyobj) :
    Forall picklable items -> picklable (PyTuple items)
| pk_list (items : list pyobj) :
    Forall picklable items -> picklable (PyList items)
| pk_dict (items : list (string * pyobj)) :
    NoDup (map fst items) ->
    Forall (fun kv => picklable (snd kv)) items ->
    picklable (PyDict items)
| pk_class (modname name : string) : picklable (PyClass modname name)
| pk_instance (modname name : string) (attrs : list (string * pyobj)) :
    NoDup (map fst attrs) ->
    Forall (fun kv => picklable (snd kv)) attrs ->
    picklable (PyInstance modname name attrs)
| pk_datetime (t : Datetime.datetime) :
    Datetime.valid t = true -> picklable (PyDatetime t).

(** Induction over [pyobj], through the lists it nests. *)
Section Induction.

Variable P : pyobj -> Prop.
Hypothesis P_none : P PyNone.
Hypothesis P_str : forall s, P (PyStr s).
Hypothesis P_bytes : forall b, P (PyBytes b).
Hypothesis P_tuple : forall items, Forall P items -> P (PyTuple items).
Hypothesis P_list : forall items, Forall P items -> P (PyList items).
Hypothesis P_dict : forall items, Forall (fun kv => P (snd kv)) items -> P (PyDict items).
Hypothesis P_class : forall modname name, P (PyClass modname name).
Hypothesis P_instance :
  forall modname name attrs,
    Forall (fun kv => P (snd kv)) attrs -> P (PyInstance modname name attrs).
Hypothesis P_datetime : forall t, P (PyDatetime t).

Fixpoint pyobj_induction (o : pyobj) : P o :=
  match o with
  | PyNone => P_none
  | PyStr s => P_str s
  | PyBytes b => P_bytes b
  | PyTuple items =>
      P_tuple items
        ((fix go (l : list pyobj) : Forall P l :=
            match l with
            | [] => Forall_nil P
            | x :: r => Forall_cons x (pyobj_induction x) (go r)
            end) items)
  | PyList items =>
      P_list items
        ((fix go (l : list pyobj) : Forall P l :=
            match l with
            | [] => Forall_nil P
            | x :: r => Forall_cons x (pyobj_induction x) (go r)
            end) items)
  | PyDict items =>
      P_dict items
        ((fix go (l : list (string * pyobj)) : Forall (fun kv => P (snd kv)) l :=
            match l with
            | [] => Forall_nil _
            | x :: r => Forall_cons x (pyobj_induction (snd x)) (go r)
            end) items)
  | PyClass modname name => P_class modname name
  | PyInstance modname name attrs =>
      P_instance modname name attrs
        ((fix go (l : list (string * pyobj)) : Forall (fun kv => P (snd kv)) l :=
            match l with
            | [] => Forall_nil _
            | x :: r => Forall_cons x (pyobj_induction (snd x)) (go r)
            end) attrs)
  | PyDatetime t => P_datetime t
  end.

End Induction.

End Pickle.

(** ** [AddressBook]

    The state of an address book is its [data], the dict from contact name
    to record. *)

Module AddressBook.

Definition t : Type := Dict.t Rec.t.

Definition add_record (record : Rec.t) : M t unit :=
  fun data => (Ok tt, Dict.set (Name.value (Rec.name record)) record data).

Definition remove_record (contact : string) : M t Rec.t :=
  fun data =>
    match Dict.get contact data with
    | Some r => (Ok r, Dict.remove contact data)
    | None => (Raise KeyError, data)
    end.

Definition total (data : t) : string :=
  "Total: " ++ Str.of_int (Dict.len data) ++ " contacts.".

Definition show_all (data : t) : string :=
  Str.concat (map Rec.str (Dict.values data)) ++ total data.

(** [itertools.islice(it, start, stop)] over a finite iterable; a bound
    that is negative or above [sys.maxsize] is refused. *)
Definition islice {A : Type} (l : list A) (start stop : Z) : result (list A) :=
  if (start <? 0) || (stop <? 0) || (Sys.maxsize <? start) || (Sys.maxsize <? stop)
  then Raise ValueError
  else Ok (firstn (Z.to_nat (stop - start)) (skipn (Z.to_nat start) l)).

(** *** The generator [iterator(page)]

    A generator object is its suspended frame: [Running start] stands at
    the top of the [while] loop with the local [start]; [Summarised] is
    suspended at the [yield] of the summary, with [break] next. Every
    resumption reads [self.data] afresh, so [next] takes the data of that
    moment. *)

Inductive gen_state : Type :=
| Running (start : Z)
| Summarised
| Finished.

Inductive step : Type :=
| Yield (s : string)
| StopIteration
| Error (e : exn).

Definition iterator (page : Z) : gen_state := Running 0.

Definition next (page : Z) (data : t) (g : gen_state) : step * gen_state :=
  match g with
  | Running start =>
      match islice (Dict.values data) start (start + page) with
      | Raise e => (Error e, Finished)
      | Ok slice =>
          let output := Str.concat (map Rec.str slice) in
          if Str.is_empty output then (Yield (total data), Summarised)
          else (Yield output, Running (start + page))
      end
  | Summarised => (StopIteration, Finished)
  | Finished => (StopIteration, Finished)
  end.

(** [list(gen)] over an unchanging book: the pages up to [StopIteration].
    [None] when [fuel] resumptions were not enough. *)
Fixpoint drain (fuel : nat) (page : Z) (data : t) (g : gen_state)
  : option (result (list string)) :=
  match fuel with
  | O => None
  | S fuel' =>
      match next page data g with
      | (Yield s, g') =>
          match drain fuel' page data g' with
          | Some (Ok pages) => Some (Ok (s :: pages))
          | other => other
          end
      | (StopIteration, _) => Some (Ok [])
      | (Error e, _) => Some (Raise e)
      end
  end.

(** *** [search]

    [None] stands for a pattern outside the modelled part of [re]. *)

(** The inner loop of the numeric branch, over one contact's phones. *)
Fixpoint search_phones (pattern : string) (contact : Rec.t)
    (phones : list Phone.t) (found_recs : list Rec.t) : option (list Rec.t) :=
  match phones with
  | [] => Some found_recs
  | phone :: rest =>
      match Re.re_match pattern (Phone.value phone) false with
      | None => None
      | Some true => search_phones pattern contact rest (found_recs ++ [contact])%list
      | Some false => search_phones pattern contact rest found_recs
      end
  end.

Fixpoint search_by_phone (pattern : string) (contacts : list Rec.t)
    (found_recs : list Rec.t) : option (list Rec.t) :=
  match contacts with
  | [] => Some found_recs
  | contact :: rest =>
      match search_phones pattern contact (Rec.phones contact) found_recs with
      | None => None
      | Some found => search_by_phone pattern rest found
      end
  end.

Fixpoint search_by_name (pattern : string) (contacts : list Rec.t)
    (found_recs : list Rec.t) : option (list Rec.t) :=
  match contacts with
  | [] => Some found_recs
  | contact :: rest =>
      match Re.re_match pattern (Name.value (Rec.name contact)) true with
      | None => None
      | Some true => search_by_name pattern rest (found_recs ++ [contact])%list
      | Some false => search_by_name pattern rest found_recs
      end
  end.

Definition search (pattern : string) (data : t) : option (list Rec.t) :=
  if Str.isnumeric pattern
  then search_by_phone pattern (Dict.values data) []
  else search_by_name pattern (Dict.values data) [].

(** *** The object graph of [self.data], and persistence

    What [pickle] sees of the data: a dict from the contact name to an
    instance of [Record], whose [__dict__] holds [name], [phones],
    [birthday] and [email] in the order [__init__] assigns them; a field
    object holds [_Field__value], set to [None] by [Field.__init__], and
    the private attribute its own setter assigns, with the class name
    mangled in. *)

Import Pickle.

Definition classes_module : string := "ab_classes".

Definition field_obj (cls : string) (v : pyobj) : pyobj :=
  PyInstance classes_module cls
    [("_Field__value", PyNone); ("_" ++ cls ++ "__value", v)].

Definition name_obj (n : Name.t) : pyobj := field_obj "Name" (PyStr (Name.value n)).

Definition phone_obj (p : Phone.t) : pyobj := field_obj "Phone" (PyStr (Phone.value p)).

Definition email_obj (e : Email.t) : pyobj := field_obj "Email" (PyStr (Email.value e)).

Definition birthday_obj (b : Birthday.t) : pyobj :=
  field_obj "Birthday" (PyDatetime (Birthday.value b)).

Definition opt_obj {A : Type} (f : A -> pyobj) (o : option A) : pyobj :=
  match o with
  | Some a => f a
  | None => PyNone
  end.

Definition record_obj (r : Rec.t) : pyobj :=
  PyInstance classes_module "Record"
    [("name", name_obj (Rec.name r));
     ("phones", PyList (map phone_obj (Rec.phones r)));
     ("birthday", opt_obj birthday_obj (Rec.birthday r));
     ("email", opt_obj email_obj (Rec.email r))].

Definition data_obj (data : t) : pyobj :=
  PyDict (map (fun kv => (fst kv, record_obj (snd kv))) data).

(** Reading an object graph back as typed data; [None] for an object of
    another shape. *)

Definition obj_field (cls : string) (o : pyobj) : option pyobj :=
  match o with
  | PyInstance md nm [(k1, PyNone); (k2, v)] =>
      if String.eqb md classes_module && String.eqb nm cls
         && String.eqb k1 "_Field__value" && String.eqb k2 ("_" ++ cls ++ "__value")
      then Some v else None
  | _ => None
  end.

Definition obj_str (o : pyobj) : option string :=
  match o with
  | PyStr s => Some s
  | _ => None
  end.

Definition obj_name (o : pyobj) : option Name.t :=
  match obj_field "Name" o with
  | Some v => option_map Name.mk (obj_str v)
  | None => None
  end.

Definition obj_phone (o : pyobj) : option Phone.t :=
  match obj_field "Phone" o with
  | Some v => option_map Phone.mk (obj_str v)
  | None => None
  end.

Definition obj_email (o : pyobj) : option Email.t :=
  match obj_field "Email" o with
  | Some v => option_map Email.mk (obj_str v)
  | None => None
  end.

Definition obj_birthday (o : pyobj) : option Birthday.t :=
  match obj_field "Birthday" o with
  | Some (PyDatetime t) => Some (Birthday.mk t)
  | _ => None
  end.

Definition obj_opt {A : Type} (f : pyobj -> option A) (o : pyobj) : option (option A) :=
  match o with
  | PyNone => Some None
  | _ => option_map Some (f o)
  end.

Fixpoint obj_all {A B : Type} (f : A -> option B) (l : list A) : option (list B) :=
  match l with
  | [] => Some []
  | x :: rest =>
      match f x, obj_all f rest with
      | Some y, Some ys => Some (y :: ys)
      | _, _ => None
      end
  end.

Definition obj_record (o : pyobj) : option Rec.t :=
  match o with
  | PyInstance md nm [(k1, n); (k2, PyList ps); (k3, b); (k4, e)] =>
      if String.eqb md classes_module && String.eqb nm "Record"
         && String.eqb k1 "name" && String.eqb k2 "phones"
         && String.eqb k3 "birthday" && String.eqb k4 "email"
      then
        match obj_name n, obj_all obj_phone ps,
              obj_opt obj_birthday b, obj_opt obj_email e with
        | Some n', Some ps', Some b', Some e' => Some (Rec.mk n' ps' b' e')
        | _, _, _, _ => None
        end
      else None
  | _ => None
  end.

Definition obj_data (o : pyobj) : option t :=
  match o with
  | PyDict items =>
      obj_all (fun kv => option_map (pair (fst kv)) (obj_record (snd kv))) items
  | _ => None
  end.

(** What Python guarantees of the data: the keys of the dict are
    distinct, and a [datetime] object holds a valid date and time. *)
Definition birthday_valid (r : Rec.t) : Prop :=
  match Rec.birthday r with
  | Some b => Datetime.valid (Birthday.value b) = true
  | None => True
  end.

Definition well_formed (data : t) : Prop :=
  NoDup (Dict.keys data) /\ Forall birthday_valid (Dict.values data).

(** What [self.data] holds: the records, or, once a file that holds
    something else than a dict of records has been loaded, that object. *)
Inductive contents : Type :=
| Records (data : t)
| Loaded (o : pyobj).

(** The files: what each file name holds, if anything. Opening for
    writing creates or truncates, and writing does not fail. *)
Definition files : Type := string -> option blob.

Definition write_file (filename : string) (b : blob) (fs : files) : files :=
  fun f => if String.eqb f filename then Some b else fs f.

(** [save_to_file]; the state is the book's data and the files. *)
Definition save_to_file (identity : nat -> option nat) (filename : string)
  : M (t * files) unit :=
  fun s =>
    let (data, fs) := s in
    (Ok tt, (data, write_file filename (dumps identity (data_obj data)) fs)).

(** [load_from_file]: [self.data] becomes whatever object the blob
    holds, read as records when it is a dict of records. *)
Definition load_from_file (filename : string) : M (contents * files) unit :=
  fun s =>
    let (data, fs) := s in
    match fs filename with
    | None => (Raise FileNotFoundError, s)
    | Some b =>
        match loads b with
        | None => (Raise UnpicklingError, s)
        | Some o =>
            (Ok tt,
             (match obj_data o with
              | Some data' => Records data'
              | None => Loaded o
              end, fs))
        end
    end.

End AddressBook.

(** ** The normal form of a phone as the specification words it

    One leading plus, when there is one, is stripped, and every
    parenthesis and hyphen is removed, wherever it stands; the phone is
    accepted when what is left is made of 5 to 17 decimal digits. Kept
    apart from [Phone.normalize], which is the chain of the code, to
    compare the two. *)

Definition phone_punct (c : ascii) : bool :=
  Ascii.eqb c "(" || Ascii.eqb c ")" || Ascii.eqb c "-".

Fixpoint without_punct (s : string) : string :=
  match s with
  | EmptyString => EmptyString
  | String c r => if phone_punct c then without_punct r else String c (without_punct r)
  end.

Definition without_plus (v : string) : string :=
  match v with
  | EmptyString => EmptyString
  | String c r => if Ascii.eqb c "+" then r else v
  end.

Definition normalize_as_specified (v : string) : string :=
  without_punct (without_plus v).

Definition parse_phone_as_specified (v : string) : option string :=
  let n := normalize_as_specified v in
  if Str.forallb Str.char_isdecimal n && (5 <=? Str.len n) && (Str.len n <=? 17)
  then Some n
  else None.

(** ** The rendering of a record as the specification words it

    The name, [": Phones: "], the phone strings joined by a comma and a
    space, ["; E-mail:"], the e-mail or nothing, ["; B-day:"], the birthday
    or nothing, and a line break. Kept apart from [Rec.str], which is the
    code's rendering, to compare the two. *)

Definition str_or_empty {A : Type} (f : A -> string) (o : option A) : string :=
  match o with
  | Some a => f a
  | None => EmptyString
  end.

Definition render_as_specified (r : Rec.t) : string :=
  Name.value (Rec.name r) ++ ": Phones: "
  ++ Str.join ", " (map Phone.value (Rec.phones r))
  ++ "; E-mail:" ++ str_or_empty Email.value (Rec.email r)
  ++ "; B-day:" ++ str_or_empty Birthday.str (Rec.birthday r)
  ++ Rec.newline.

(** ** [search] as the specification words it

    A pattern of digits only selects the records with at least one phone
    that starts with it; any other pattern selects the records whose name
    starts with it, letter case ignored; the records come in store order. *)

(** [s] starts with [p] when letter case is ignored. *)
Fixpoint startswith_nocase (p s : string) : bool :=
  match p with
  | EmptyString => true
  | String a p' =>
      match s with
      | EmptyString => false
      | String b s' => Ascii.eqb (Re.lower a) (Re.lower b) && startswith_nocase p' s'
      end
  end.

Definition has_phone_prefix (pattern : string) (r : Rec.t) : bool :=
  List.existsb (fun ph => Str.startswith pattern (Phone.value ph)) (Rec.phones r).

Definition search_as_specified (pattern : string) (data : AddressBook.t) : list Rec.t :=
  if Str.isdecimal pattern
  then filter (has_phone_prefix pattern) (Dict.values data)
  else filter (fun r => startswith_nocase pattern (Name.value (Rec.name r))) (Dict.values data).

(** A pattern without any of the special characters of [re]. *)
Definition no_special (pattern : string) : bool :=
  Str.forallb (fun c => negb (Re.is_special c)) pattern.

(** One copy of [r] for each of its phones that starts with [pattern]. *)
Definition once_per_matching_phone (pattern : string) (r : Rec.t) : list Rec.t :=
  map (fun _ => r)
      (filter (fun ph => Str.startswith pattern (Phone.value ph)) (Rec.phones r)).

(** ** The pages of the paginated view

    [page_count p n] is the ceiling of [n / p]; page number [i], counted
    from 0, holds the records [i * p .. i * p + p - 1] of the store. *)

Definition page_count (p n : Z) : Z := (n + p - 1) / p.

Definition page_records {A : Type} (p : nat) (l : list A) (i : nat) : list A :=
  firstn p (skipn (i * p) l).

Definition page_numbers (page : Z) (data : AddressBook.t) : list nat :=
  seq 0 (Z.to_nat (page_count page (Dict.len data))).

Definition content_pages (page : Z) (data : AddressBook.t) : list string :=
  map (fun i => Str.concat (map Rec.str (page_records (Z.to_nat page) (Dict.values data) i)))
      (page_numbers page data).

(** ** More of [str] and [re]: what the command line of [main.py] calls *)

Module Words.

(** [s.lower()]. *)
Fixpoint lower (s : string) : string :=
  match s with
  | EmptyString => EmptyString
  | String c r => String (Re.lower c) (lower r)
  end.

(** A word is kept when it is not empty. *)
Definition cons_word (w : string) (ws : list string) : list string :=
  if Str.is_empty w then ws else w :: ws.

(** The characters of [s] before its first whitespace, and the words
    after it. *)
Fixpoint split_rec (s : string) : string * list string :=
  match s with
  | EmptyString => (EmptyString, [])
  | String c r =>
      let (w, ws) := split_rec r in
      if Str.char_isspace c then (EmptyString, cons_word w ws)
      else (String c w, ws)
  end.

(** [s.split()]: the words between runs of whitespace. *)
Definition split (s : string) : list string :=
  let (w, ws) := split_rec s in cons_word w ws.

(** [s] cut at its last space, when it has one. *)
Fixpoint rsplit_rec (s : string) : option (string * string) :=
  match s with
  | EmptyString => None
  | String c r =>
      match rsplit_rec r with
      | Some (a, b) => Some (String c a, b)
      | None => if Ascii.eqb c " " then Some (EmptyString, r) else None
      end
  end.

(** [s.rsplit(" ", 1)]. *)
Definition rsplit (s : string) : list string :=
  match rsplit_rec s with
  | Some (a, b) => [a; b]
  | None => [s]
  end.

(** The scan of [re.sub] with an empty replacement, letter case ignored:
    [skip] characters of a match still to be dropped, then, at each
    position, a match is dropped whole and anything else is kept. *)
Fixpoint delete_matches (items : list Re.item) (skip : nat) (s : string) : string :=
  match s with
  | EmptyString => EmptyString
  | String c r =>
      match skip with
      | S n => delete_matches items n r
      | O =>
          if Re.match_items true items s
          then delete_matches items (pred (List.length items)) r
          else String c (delete_matches items O r)
      end
  end.

(** [re.sub(pattern, "", s, flags=re.IGNORECASE)]; [None] for a pattern
    outside the modelled part of [re]. An empty pattern deletes nothing. *)
Definition re_sub_delete (pattern s : string) : option string :=
  match Re.parse pattern with
  | None => None
  | Some [] => Some s
  | Some items => Some (delete_matches items O s)
  end.

End Words.

(** ** [main.py]: the decorator, the command table, the parser and the
       handlers that do not read the console

    A handler runs on the book; [exit] also on the files and on the
    global [is_ended]. Modelled are [add_email], [add_birthday],
    [congrat], [del_email], [del_birthday], [exit], and [del_phone] called
    with a phone. [change], [del_contact], [show_all] past one page and
    [del_phone] without a phone ask the console and are not modelled;
    neither are [add], which can store [None] among the phones, [greet],
    [phone], [search] and [help], nor [handler] and the loop of [main],
    which call them all. *)

Module Main.

Definition DB_FILE_NAME : string := "phonebook.bin".

Definition quote : string := String "034"%char EmptyString.

Definition no_such_contact : string :=
  "No such contact! to add one use " ++ quote ++ "add" ++ quote ++ " command".

(** *** [input_error]

    [name] is [func.__name__]. [None] is Python's [None], which the
    wrapper returns when no [if] of the matching [except] clause fits. An
    exception of another class than the four passes through. *)

Definition on_TypeError (name : string) : option string :=
  if String.eqb name "handler" then Some "No such command!"
  else if String.eqb name "add" || String.eqb name "change"
  then Some ("Give me name and phone please. Minimum phone number length is "
             ++ Str.of_int Phone.min_len ++ " digits. Maximum "
             ++ Str.of_int Phone.max_len ++ ".Letters not allowed!")
  else if String.eqb name "add_birthday" then Some "input name and date"
  else if String.eqb name "add_email" then Some "input name and e-mail"
  else if String.eqb name "search" then Some "Command needs only 1 argument"
  else None.

Definition on_ValueError (name : string) : option string :=
  if String.eqb name "add" || String.eqb name "change"
  then Some "Name cannot consist of only digits and min name length is 3."
  else if String.eqb name "phone" then Some "Enter contact name"
  else if String.eqb name "show_all" then Some "The Phonebook is empty"
  else if String.eqb name "del_phone"
  then Some "this contact doesn't have such phone number"
  else if String.eqb name "add_birthday"
  then Some "use date format DD.MM.YYYY or DD/MM/YYYY"
  else if String.eqb name "add_email" then Some "invalid email format"
  else None.

Definition on_IndexError (name : string) : option string :=
  if String.eqb name "add_birthday"
  then Some "Birth date lready entered, only one allowed"
  else if String.eqb name "search" then Some "Command needs arguments"
  else Some "Command needs no arguments".

(** The wrapper around a handler that returns a [str]. *)
Definition input_error {S : Type} (name : string) (func : M S string)
  : M S (option string) :=
  fun s =>
    match func s with
    | (Ok result, s') => (Ok (Some result), s')
    | (Raise TypeError, s') => (Ok (on_TypeError name), s')
    | (Raise AttributeError, s') => (Ok (Some no_such_contact), s')
    | (Raise ValueError, s') => (Ok (on_ValueError name), s')
    | (Raise IndexError, s') => (Ok (on_IndexError name), s')
    | (Raise e, s') => (Raise e, s')
    end.

(** An expression that may raise, inside a handler. *)
Definition eval {S A : Type} (r : result A) : M S A := fun s => (r, s).

(** [rec = book.get(contact)] and a use of [rec]: when the name is no
    key, [rec] is [None] and its first use raises [AttributeError];
    otherwise the record object is worked on in place, under its key. *)
Definition on_record {A : Type} (contact : string) (m : M Rec.t A)
  : M AddressBook.t A :=
  fun book =>
    match Dict.get contact book with
    | None => (Raise AttributeError, book)
    | Some rec => let (r, rec') := m rec in (r, Dict.set contact rec' book)
    end.

(** *** The handlers *)

Definition add_email (contact email : string) : M AddressBook.t (option string) :=
  input_error "add_email"
    (email_new <- eval (Email.new email) ;;
     on_record contact (Rec.add_email email_new) ;;
     ret ("Updated existing contact " ++ quote ++ contact ++ quote
          ++ " with new email: " ++ email))%py.

Definition add_birthday (contact birthday : string) : M AddressBook.t (option string) :=
  input_error "add_birthday"
    (b_day <- eval (Birthday.new birthday) ;;
     on_record contact (Rec.add_birthday b_day) ;;
     ret ("Updated existing contact " ++ quote ++ contact ++ quote
          ++ " with a birth date: " ++ Birthday.str b_day))%py.

(** [today] is what [datetime.today()] reads inside [days_to_birthday]. *)
Definition congrat (today : Datetime.datetime) (contact : string)
  : M AddressBook.t (option string) :=
  input_error "congrat"
    (on_record contact (fun rec => (Rec.days_to_birthday today rec, rec))).

(** [Field.__eq__(self, other)] with a [str] for [other], as [del_phone]
    calls it: a [str] has no attribute [value]. *)
Definition field_eq_str (self_value other : string) : result bool :=
  Raise AttributeError.

(** [for i, p in enumerate(rec.phones): if p == phone: num = i + 1]. *)
Fixpoint find_phone (phone : string) (phones : list Phone.t) (i : Z) (num : option Z)
  : result (option Z) :=
  match phones with
  | [] => Ok num
  | p :: rest =>
      match field_eq_str (Phone.value p) phone with
      | Raise e => Raise e
      | Ok true => find_phone phone rest (i + 1) (Some (i + 1))
      | Ok false => find_phone phone rest (i + 1) num
      end
  end.

(** [del_phone] called with a phone that is not empty; [None] for the
    call without one, which asks the console. The loop has no [break],
    so its [else] clause runs whenever the loop ends, and raises. *)
Definition del_phone (contact : string) (phone : option string)
  : option (M AddressBook.t (option string)) :=
  match phone with
  | None => None
  | Some ph =>
      if Str.is_empty ph then None
      else
        Some (input_error "del_phone"
                (on_record contact
                   (fun rec =>
                      match find_phone ph (Rec.phones rec) 0 None with
                      | Raise e => (Raise e, rec)
                      | Ok _ => (Raise ValueError, rec)
                      end)))
  end.

Definition del_email (contact : string) : M AddressBook.t (option string) :=
  input_error "del_email"
    (on_record contact (fun rec => (Ok tt, Rec.set_email None rec)) ;;
     ret ("Contact " ++ contact ++ ", email deleted"))%py.

Definition del_birthday (contact : string) : M AddressBook.t (option string) :=
  input_error "del_birthday"
    (on_record contact (fun rec => (Ok tt, Rec.set_birthday None rec)) ;;
     ret ("Contact " ++ contact ++ ", birthday deleted"))%py.

(** [args != ("",)]. *)
Definition not_blank (args : list string) : bool :=
  match args with
  | [a] => negb (Str.is_empty a)
  | _ => true
  end.

(** The state of a session: the book, the files, and [is_ended]. *)
Definition session : Type := (AddressBook.t * AddressBook.files) * bool.

Definition exit (identity : nat -> option nat) (args : list string)
  : M session (option string) :=
  input_error "exit"
    (fun s : session =>
       let (disk, is_ended) := s in
       if not_blank args then (Raise IndexError, s)
       else
         let (r, disk') := AddressBook.save_to_file identity DB_FILE_NAME disk in
         match r with
         | Ok _ => (Ok "Good bye!", (disk', true))
         | Raise e => (Raise e, (disk', true))
         end).

(** The statements of [main] before its loop: a new book, filled from
    the file when there is one. *)
Definition startup : M (AddressBook.contents * AddressBook.files) unit :=
  fun s =>
    let book1 := AddressBook.Records [] in
    match snd s DB_FILE_NAME with
    | Some _ => AddressBook.load_from_file DB_FILE_NAME (book1, snd s)
    | None => (Ok tt, (book1, snd s))
    end.

(** *** [COMMANDS] and [command_parser] *)

Inductive command : Type :=
| Greet | AddEmail | AddBirthday | Add | Congrat | Change | ShowPhone
| ShowAll | Search | DelPhone | DelBirthday | DelEmail | DelContact
| Exit | Help.

Definition COMMANDS : list (string * command) :=
  [("hello", Greet); ("add email", AddEmail); ("add b_day", AddBirthday);
   ("add", Add); ("congrat", Congrat); ("change", Change);
   ("phone", ShowPhone); ("show all", ShowAll); ("search", Search);
   ("del phone", DelPhone); ("del b_day", DelBirthday);
   ("del email", DelEmail); ("del contact", DelContact);
   ("close", Exit); ("good bye", Exit); ("exit", Exit); ("help", Help)].

(** The test of the loop. *)
Definition begins_with (k line_prep : string) : bool :=
  Str.startswith (k ++ " ") (Words.lower line_prep)
  || String.eqb (Words.lower line_prep) k.

(** The loop over [COMMANDS.items()], up to its [return]. *)
Fixpoint find_command (line_prep : string) (commands : list (string * command))
  : option (string * command) :=
  match commands with
  | [] => None
  | (k, v) :: rest =>
      if begins_with k line_prep then Some (k, v) else find_command line_prep rest
  end.

(** [command_parser]: the handler, if any, and the arguments; the outer
    [None] for a command word outside the modelled part of [re]. *)
Definition command_parser (line : string) : option (option command * list string) :=
  let line_prep := Str.join " " (Words.split line) in
  match find_command line_prep COMMANDS with
  | Some (k, v) =>
      option_map (fun t => (Some v, Words.rsplit (Str.strip t)))
                 (Words.re_sub_delete k line_prep)
  | None => Some (None, [])
  end.

End Main.

(** ** Notions used to state further properties *)

(** The characters of [s] that are decimal digits, in order. *)
Fixpoint keep_digits (s : string) : string :=
  match s with
  | EmptyString => EmptyString
  | String c r =>
      if Str.char_isdecimal c then String c (keep_digits r) else keep_digits r
  end.

(** A digit, a parenthesis or a hyphen. *)
Definition phone_char (c : ascii) : bool :=
  Str.char_isdecimal c || Ascii.eqb c "(" || Ascii.eqb c ")" || Ascii.eqb c "-".

(** Day and month on two digits, the year in decimal, with [sep] between. *)
Definition date_text (sep : ascii) (y m d : Z) : string :=
  Str.pad2 d ++ String sep (Str.pad2 m ++ String sep (Str.of_int y)).

Definition midnight (y m d : Z) : Datetime.datetime :=
  Datetime.mk_datetime y m d 0 0 0 0.

(** [f] holds of the [n] integers from [lo] on. *)
Fixpoint all_from (f : Z -> bool) (lo : Z) (n : nat) : bool :=
  match n with
  | O => true
  | S n' => f lo && all_from f (lo + 1) n'
  end.

(** The decimal text of [y] is read by the [%Y] group as [y], to the end. *)
Definition year_reads_back (y : Z) : bool :=
  match Datetime.group_Y (Str.of_int y) with
  | Some (y', EmptyString) => y' =? y
  | _ => false
  end.

(** One when the time of day of [t] is past midnight, zero at midnight. *)
Definition past_midnight (t : Datetime.datetime) : Z :=
  if 0 <? Datetime.microseconds_of_day t then 1 else 0.

(** The whole days from [today], time of day included, to midnight of day
    [d] of month [m] in year [yr]. *)
Definition whole_days_until (today : Datetime.datetime) (yr m d : Z) : Z :=
  Datetime.ymd2ord yr m d - Datetime.toordinal today - past_midnight today.

(** A pattern inside the modelled part of [re]: ordinary characters and
    dots. *)
Definition modelled_pattern (pattern : string) : bool :=
  Str.forallb (fun c => Ascii.eqb c "." || negb (Re.is_special c)) pattern.

(** A word: not empty and free of whitespace. *)
Definition is_word (w : string) : bool :=
  negb (Str.is_empty w) && Str.forallb (fun c => negb (Str.char_isspace c)) w.

(** [s] holds no space character. *)
Definition has_no_blank (s : string) : bool :=
  Str.forallb (fun c => negb (Ascii.eqb c " ")) s.

(** No character of [s] is, letter case apart, a character of [k]. *)
Definition foreign_to (k s : string) : bool :=
  Str.forallb (fun c => negb (Re.mem (Re.lower c) k)) s.

(** What every command word is: made of ordinary characters, in lower
    case, and starting with something else than a space. *)
Definition plain_key (k : string) : bool :=
  no_special k && String.eqb (Words.lower k) k
  && match k with
     | EmptyString => false
     | String c _ => negb (Ascii.eqb c " ")
     end.

(** The line as the parser prepares it: its words, one space between. *)
Definition prepared (line : string) : string := Str.join " " (Words.split line).

(** Every record is stored under its own name. *)
Definition keyed_by_name (data : AddressBook.t) : Prop :=
  Forall (fun kv => fst kv = Name.value (Rec.name (snd kv))) data.

(** ** Sample data *)

(** Anna with a birthday and an e-mail, and Ann. *)
Definition sample_book : AddressBook.t :=
  [("Anna", Rec.mk (Name.mk "Anna") [Phone.mk "1234567"; Phone.mk "7654321"]
              (Some (Birthday.mk (Datetime.mk_datetime 1990 3 1 0 0 0 0)))
              (Some (Email.mk "anna@example.com")));
   ("Ann", Rec.mk (Name.mk "Ann") [] None None)].

Definition no_files : AddressBook.files := fun _ => None.


(** A record with no phone and no e-mail, born on the given day. *)
Definition born (y m d : Z) : Rec.t :=
  Rec.mk (Name.mk "Ann") []
    (Some (Birthday.mk (Datetime.mk_datetime y m d 0 0 0 0))) None.

Definition anna : Rec.t := Rec.mk (Name.mk "Anna") [Phone.mk "1234567"] None None.

Definition ann : Rec.t := Rec.mk (Name.mk "Ann") [] None None.

(** The store of the specification's search example. *)
Definition anna_and_ann : AddressBook.t := [("Anna", anna); ("Ann", ann)].

(** * Properties *)

(** ** Characters and strings *)

Ltac by_cases_on_char c :=
  destruct c as [[] [] [] [] [] [] [] []]; vm_compute;
  try reflexivity; try discriminate; try tauto.

Lemma decimal_not_space (c : ascii) :
  Str.char_isdecimal c = true -> Str.char_isspace c = false.
Proof. by_cases_on_char c. Qed.

Lemma decimal_is_numeric (c : ascii) :
  Str.char_isdecimal c = true -> Str.char_isnumeric c = true.
Proof. by_cases_on_char c. Qed.

Lemma decimal_not_punct (c : ascii) :
  Str.char_isdecimal c = true ->
  Ascii.eqb c "+" = false /\ Ascii.eqb c "(" = false
  /\ Ascii.eqb c ")" = false /\ Ascii.eqb c "-" = false.
Proof. by_cases_on_char c; intros _; repeat split. Qed.

Lemma forallb_cons (p : ascii -> bool) (c : ascii) (s : string) :
  Str.forallb p (String c s) = true <-> p c = true /\ Str.forallb p s = true.
Proof. simpl. apply andb_true_iff. Qed.

Lemma forallb_false_existsb (p : ascii -> bool) (s : string) :
  Str.forallb p s = false <-> Str.existsb (fun c => negb (p c)) s = true.
Proof.
  induction s as [| c s IH]; simpl.
  - split; discriminate.
  - rewrite andb_false_iff, orb_true_iff, IH, negb_true_iff. tauto.
Qed.

Lemma lstrip_digits (d : string) :
  Str.forallb Str.char_isdecimal d = true -> Str.lstrip d = d.
Proof.
  destruct d as [| c d]; simpl; [reflexivity |].
  intros H. apply andb_true_iff in H as [Hc _].
  now rewrite (decimal_not_space c Hc).
Qed.

Lemma rstrip_digits (d : string) :
  Str.forallb Str.char_isdecimal d = true -> Str.rstrip d = d.
Proof.
  induction d as [| c d IH]; simpl; [reflexivity |].
  intros H. apply andb_true_iff in H as [Hc Hd].
  rewrite (IH Hd), (decimal_not_space c Hc), andb_false_r. reflexivity.
Qed.

Lemma strip_digits (d : string) :
  Str.forallb Str.char_isdecimal d = true -> Str.strip d = d.
Proof.
  intros H. unfold Str.strip. rewrite (lstrip_digits d H). now apply rstrip_digits.
Qed.

Lemma strip_plus_digits (d : string) :
  Str.forallb Str.char_isdecimal d = true ->
  Str.strip (String "+" d) = String "+" d.
Proof.
  intros H. unfold Str.strip. simpl Str.lstrip.
  change (Str.char_isspace "+") with false. cbv iota.
  simpl Str.rstrip. rewrite (rstrip_digits d H).
  change (Str.char_isspace "+") with false. now rewrite andb_false_r.
Qed.

Lemma removeprefix_plus (d : string) :
  Str.removeprefix "+" (String "+" d) = d.
Proof.
  unfold Str.removeprefix. simpl. reflexivity.
Qed.

Lemma removeprefix_plus_digits (d : string) :
  Str.forallb Str.char_isdecimal d = true -> Str.removeprefix "+" d = d.
Proof.
  intros H. unfold Str.removeprefix.
  destruct d as [| c d]; [reflexivity |].
  apply andb_true_iff in H as [Hc _].
  cbn [Str.startswith].
  destruct (Ascii.eqb_spec "+" c) as [E | _]; [| reflexivity].
  subst c. discriminate Hc.
Qed.

Lemma replace_absent (old : ascii) (d : string) :
  Str.forallb (fun c => negb (Ascii.eqb c old)) d = true ->
  Str.replace old EmptyString d = d.
Proof.
  induction d as [| c d IH]; simpl; [reflexivity |].
  intros H. apply andb_true_iff in H as [Hc Hd].
  apply negb_true_iff in Hc. rewrite Hc, (IH Hd). reflexivity.
Qed.

Lemma forallb_impl (p q : ascii -> bool) (s : string) :
  (forall c, p c = true -> q c = true) ->
  Str.forallb p s = true -> Str.forallb q s = true.
Proof.
  intros Hpq. induction s as [| c s IH]; simpl; [reflexivity |].
  intros H. apply andb_true_iff in H as [Hc Hs].
  now rewrite (Hpq c Hc), (IH Hs).
Qed.

Lemma replace_digits (old : ascii) (d : string) :
  Str.char_isdecimal old = false ->
  Str.forallb Str.char_isdecimal d = true ->
  Str.replace old EmptyString d = d.
Proof.
  intros Hold H. apply replace_absent.
  apply (forallb_impl Str.char_isdecimal); [| exact H].
  intros c Hc. apply negb_true_iff. destruct (Ascii.eqb_spec c old) as [E | _]; [| reflexivity].
  subst c. congruence.
Qed.

(** ** [Phone] *)

Lemma normalize_digits (d : string) :
  Str.forallb Str.char_isdecimal d = true -> Phone.normalize d = d.
Proof.
  intros H. unfold Phone.normalize.
  rewrite (strip_digits d H), (removeprefix_plus_digits d H).
  rewrite (replace_digits "(" d), (replace_digits ")" d), (replace_digits "-" d);
    solve [reflexivity | assumption].
Qed.

Lemma normalize_plus_digits (d : string) :
  Str.forallb Str.char_isdecimal d = true -> Phone.normalize (String "+" d) = d.
Proof.
  intros H. unfold Phone.normalize.
  rewrite (strip_plus_digits d H), removeprefix_plus.
  rewrite (replace_digits "(" d), (replace_digits ")" d), (replace_digits "-" d);
    solve [reflexivity | assumption].
Qed.

Lemma new_of_normalized (v : string) :
  Phone.new v =
  if Str.isdecimal (Phone.normalize v)
     && (5 <=? Str.len (Phone.normalize v)) && (Str.len (Phone.normalize v) <=? 17)
  then Ok (Phone.mk (Phone.normalize v))
  else Raise TypeError.
Proof.
  unfold Phone.new, Phone.min_len, Phone.max_len. cbv zeta.
  destruct (Str.isdecimal (Phone.normalize v)); simpl; [| reflexivity].
  destruct (5 <=? Str.len (Phone.normalize v)); simpl; [| reflexivity].
  destruct (Str.len (Phone.normalize v) <=? 17); reflexivity.
Qed.

Lemma isdecimal_digits (d : string) :
  Str.forallb Str.char_isdecimal d = true -> 0 < Str.len d -> Str.isdecimal d = true.
Proof.
  intros H L. unfold Str.isdecimal. rewrite H.
  destruct d; [unfold Str.len in L; simpl in L; lia | reflexivity].
Qed.

Lemma removeprefix_plus_spec (s : string) :
  Str.removeprefix "+" s = without_plus s.
Proof.
  unfold Str.removeprefix. destruct s as [| c r]; [reflexivity |].
  cbn [Str.startswith without_plus String.length Str.drop].
  destruct (Ascii.eqb_spec c "+") as [-> | N]; [reflexivity |].
  destruct (Ascii.eqb_spec "+" c) as [E | _]; [now contradiction N | reflexivity].
Qed.

Lemma replace_chain_spec (s : string) :
  Str.replace "-" EmptyString
    (Str.replace ")" EmptyString (Str.replace "(" EmptyString s))
  = without_punct s.
Proof.
  induction s as [| c s IH]; [reflexivity |].
  cbn [Str.replace without_punct]. unfold phone_punct.
  destruct (Ascii.eqb_spec c "(") as [-> | N1]; [exact IH |].
  cbn [Str.replace orb].
  destruct (Ascii.eqb_spec c ")") as [-> | N2]; [exact IH |].
  cbn [Str.replace orb].
  destruct (Ascii.eqb_spec c "-") as [-> | N3]; [exact IH |].
  now rewrite IH.
Qed.

(** The chain of the code is the normal form of the specification,
    taken of the input without its surrounding whitespace. *)
Lemma normalize_spec (v : string) :
  Phone.normalize v = normalize_as_specified (Str.strip v).
Proof.
  unfold Phone.normalize, normalize_as_specified.
  now rewrite removeprefix_plus_spec, replace_chain_spec.
Qed.

Lemma new_spec (v : string) :
  Phone.new v =
  match parse_phone_as_specified (Str.strip v) with
  | Some n => Ok (Phone.mk n)
  | None => Raise TypeError
  end.
Proof.
  rewrite new_of_normalized, normalize_spec. unfold parse_phone_as_specified. cbv zeta.
  generalize (normalize_as_specified (Str.strip v)) as n. intros n.
  unfold Str.isdecimal. destruct n as [| c n]; [reflexivity |].
  cbn [Str.is_empty negb andb].
  now destruct (Str.forallb Str.char_isdecimal (String c n) && (5 <=? Str.len (String c n))
                && (Str.len (String c n) <=? 17)).
Qed.

(** C8, amended. For a digit string [d] of 5 to 17 characters, parsing
    ["+" ++ d] succeeds and stores exactly [d]; for a digit string shorter
    than 5 or longer than 17, parsing fails (with or without the leading
    plus). The code's normal form is the one of the specification (one
    leading plus stripped, every parenthesis and hyphen removed) taken of
    the input without its surrounding whitespace: parsing succeeds, and
    stores that normal form, exactly when it is made of 5 to 17 decimal
    digits, and fails whenever it holds a character that is not a decimal
    digit, which for an input without surrounding whitespace is the
    normal form of the input itself. *)
Theorem phone_new_accepts_5_to_17_digits (d raw : string) :
  (Str.forallb Str.char_isdecimal d = true ->
   5 <= Str.len d <= 17 ->
   Phone.new ("+" ++ d) = Ok (Phone.mk d))
  /\ (Str.forallb Str.char_isdecimal d = true ->
      Str.len d < 5 \/ 17 < Str.len d ->
      Phone.new d = Raise TypeError /\ Phone.new ("+" ++ d) = Raise TypeError)
  /\ Phone.normalize raw = normalize_as_specified (Str.strip raw)
  /\ Phone.new raw
     = match parse_phone_as_specified (Str.strip raw) with
       | Some n => Ok (Phone.mk n)
       | None => Raise TypeError
       end
  /\ (Str.existsb (fun c => negb (Str.char_isdecimal c))
                  (normalize_as_specified (Str.strip raw)) = true ->
      Phone.new raw = Raise TypeError)
  /\ (Str.strip raw = raw ->
      Str.existsb (fun c => negb (Str.char_isdecimal c))
                  (normalize_as_specified raw) = true ->
      Phone.new raw = Raise TypeError).
Proof.
  assert (F : Str.existsb (fun c => negb (Str.char_isdecimal c))
                          (normalize_as_specified (Str.strip raw)) = true ->
              Phone.new raw = Raise TypeError).
  { intros H. apply forallb_false_existsb in H.
    rewrite new_spec. unfold parse_phone_as_specified. cbv zeta. now rewrite H. }
  split; [| split; [| split; [apply normalize_spec | split; [apply new_spec | split]]]].
  - intros H L. change ("+" ++ d) with (String "+" d).
    rewrite new_of_normalized, (normalize_plus_digits d H).
    rewrite (isdecimal_digits d H) by lia.
    destruct (Z.leb_spec 5 (Str.len d)); [| lia].
    destruct (Z.leb_spec (Str.len d) 17); [reflexivity | lia].
  - intros H L. change ("+" ++ d) with (String "+" d).
    rewrite !new_of_normalized, (normalize_plus_digits d H), (normalize_digits d H).
    destruct (Str.isdecimal d); simpl; [| now split].
    destruct (Z.leb_spec 5 (Str.len d)); simpl; [| now split].
    destruct (Z.leb_spec (Str.len d) 17); [lia | now split].
  - exact F.
  - intros S H. apply F. now rewrite S.
Qed.

Lemma phone_new_accepts_5_to_17_digits_witness :
  Phone.new "+380501234567" = Ok (Phone.mk "380501234567")
  /\ (Phone.new "1234" = Raise TypeError /\ Phone.new "+1234" = Raise TypeError)
  /\ Phone.new "(050)12a45" = Raise TypeError.
Proof.
  split; [| split].
  - apply (phone_new_accepts_5_to_17_digits "380501234567" EmptyString).
    + reflexivity.
    + vm_compute. split; discriminate.
  - apply (phone_new_accepts_5_to_17_digits "1234" EmptyString).
    + reflexivity.
    + left. reflexivity.
  - apply (phone_new_accepts_5_to_17_digits EmptyString "(050)12a45"); reflexivity.
Defined.

(** C8 as stated fails: the code strips the whitespace around the input
    before anything else, which the normal form of the specification does
    not. The normal form of [" 12345 "] holds two spaces, so parsing should
    fail, and the code accepts the input and stores [12345]; the same
    with a plus after the leading space, which the specification's normal
    form would not even strip. *)
Lemma phone_new_strips_surrounding_whitespace :
  let nondigit := fun c => negb (Str.char_isdecimal c) in
  (Str.existsb nondigit (normalize_as_specified " 12345 ") = true
   /\ parse_phone_as_specified " 12345 " = None
   /\ Phone.new " 12345 " = Ok (Phone.mk "12345"))
  /\ (normalize_as_specified " +12345" = " +12345"
      /\ Str.existsb nondigit (normalize_as_specified " +12345") = true
      /\ Phone.new " +12345" = Ok (Phone.mk "12345")).
Proof. cbv zeta. repeat split; reflexivity. Qed.

(** ** [Record]: birthday guard, rendering, phone editing *)

(** C9. On a record that has a birthday, [add_birthday] raises
    [IndexError] (the duplicate-birthday failure) and leaves the record,
    its birthday included, as it was; on a record without one it sets the
    birthday to [b] and touches nothing else. *)
Theorem add_birthday_guards_existing (self : Rec.t) (b : Birthday.t) :
  (forall old : Birthday.t,
      Rec.birthday self = Some old ->
      run (Rec.add_birthday b) self = (Raise IndexError, self))
  /\ (Rec.birthday self = None ->
      exists self',
        run (Rec.add_birthday b) self = (Ok tt, self')
        /\ Rec.birthday self' = Some b
        /\ Rec.name self' = Rec.name self
        /\ Rec.phones self' = Rec.phones self
        /\ Rec.email self' = Rec.email self).
Proof.
  unfold run, Rec.add_birthday, bind, get. split.
  - intros old H. rewrite H. reflexivity.
  - intros H. rewrite H. eexists. split; [reflexivity |]. repeat split.
Qed.

Lemma add_birthday_guards_existing_witness :
  let b1 := Birthday.mk (Datetime.mk_datetime 1990 3 1 0 0 0 0) in
  let b2 := Birthday.mk (Datetime.mk_datetime 1991 4 2 0 0 0 0) in
  let r := Rec.mk (Name.mk "Ann") [] (Some b1) None in
  run (Rec.add_birthday b2) r = (Raise IndexError, r).
Proof.
  intros b1 b2 r.
  exact (proj1 (add_birthday_guards_existing r b2) b1 eq_refl).
Defined.

(** C3, amended. The rendering of a record is its name, [": Phones: "],
    the phone strings joined by a comma and a space, ["; E-mail:"], the
    e-mail or the text [None] when unset, ["; B-day:"], the birthday as
    [DD.MM.YYYY] or the text [None] when unset, then a space and a line
    break; an empty phone list gives an empty joined string. *)
Theorem record_str_format (r : Rec.t) :
  Rec.str r =
    Name.value (Rec.name r) ++ ": Phones: "
    ++ Str.join ", " (map Phone.value (Rec.phones r))
    ++ "; E-mail:"
    ++ match Rec.email r with Some e => Email.value e | None => "None" end
    ++ "; B-day:"
    ++ match Rec.birthday r with
       | Some b => Datetime.strftime (Birthday.value b)
       | None => "None"
       end
    ++ " " ++ Rec.newline
  /\ (Rec.phones r = [] -> Str.join ", " (map Phone.value (Rec.phones r)) = EmptyString).
Proof.
  split.
  - unfold Rec.str, Rec.str_opt, Name.str, Email.str, Birthday.str.
    destruct (Rec.email r), (Rec.birthday r); reflexivity.
  - intros H. rewrite H. reflexivity.
Qed.

Lemma record_str_format_witness :
  Str.join ", " (map Phone.value (Rec.phones (Rec.mk (Name.mk "Ann") [] None None))) = EmptyString.
Proof.
  exact (proj2 (record_str_format (Rec.mk (Name.mk "Ann") [] None None)) eq_refl).
Defined.

(** C3 as stated fails: with e-mail and birthday unset the code prints
    [None] in both places, and in every case a space precedes the line
    break. *)
Lemma record_str_prints_None_and_space :
  let bare := Rec.mk (Name.mk "Ann") [] None None in
  let full := Rec.mk (Name.mk "Ann") [Phone.mk "12345"]
                (Some (Birthday.mk (Datetime.mk_datetime 1990 3 1 0 0 0 0)))
                (Some (Email.mk "ann@example.com")) in
  Rec.str bare = "Ann: Phones: ; E-mail:None; B-day:None " ++ Rec.newline
  /\ render_as_specified bare = "Ann: Phones: ; E-mail:; B-day:" ++ Rec.newline
  /\ Rec.str bare <> render_as_specified bare
  /\ Rec.str full = "Ann: Phones: 12345; E-mail:ann@example.com; B-day:01.03.1990 " ++ Rec.newline
  /\ Rec.str full <> render_as_specified full.
Proof.
  cbv zeta. repeat split; try reflexivity; vm_compute; discriminate.
Qed.

Lemma set_phones_same (self : Rec.t) : Rec.set_phones (Rec.phones self) self = self.
Proof. now destruct self. Qed.

Lemma pop_out_of_range {A : Type} (i : Z) (l : list A) :
  i < - PyList.len l \/ PyList.len l <= i ->
  PyList.pop i l = (Raise (PyList.index_error i), l).
Proof.
  intros H. unfold PyList.pop. cbv zeta.
  assert (L : 0 <= PyList.len l) by (unfold PyList.len; lia).
  destruct (Z.ltb_spec i 0).
  - destruct (Z.ltb_spec (i + PyList.len l) 0); [reflexivity | lia].
  - destruct (Z.ltb_spec i 0); [lia |].
    destruct (Z.leb_spec (PyList.len l) i); [reflexivity | lia].
Qed.

(** The part of C4 the code does honour: on an empty phone list, and for
    an index above the length or below [1 - length], both operations raise
    and leave the record as it was. The exception is [IndexError], but for
    an index that, on a record with phones, does not convert to
    [Py_ssize_t]: then it is the [OverflowError] of [list.pop]. *)
Lemma phone_index_out_of_range_raises (self : Rec.t) (p : Phone.t) (num : Z) :
  Rec.phones self = []
  \/ PyList.len (Rec.phones self) < num
  \/ num < 1 - PyList.len (Rec.phones self) ->
  let e := match Rec.phones self with
           | [] => IndexError
           | _ :: _ => if Sys.fits_ssize_t (num - 1) then IndexError else OverflowError
           end in
  run (Rec.edit_phone p num) self = (Raise e, self)
  /\ run (Rec.del_phone num) self = (Raise e, self).
Proof.
  intros H. unfold run, Rec.edit_phone, Rec.del_phone, bind, get, raise.
  destruct (Rec.phones self) as [| x l] eqn:E; [now split |].
  destruct H as [H | H]; [discriminate |].
  unfold Rec.on_phones. rewrite E.
  rewrite (pop_out_of_range (num - 1) (x :: l)) by lia.
  rewrite <- E, set_phones_same. now split.
Qed.

(** C4 at an index the code does not reject: on three phones, index 0
    makes [edit_phone] drop the last phone and put the new one before the
    new last, and makes [del_phone] remove and return the last phone;
    neither raises. *)
Theorem phone_index_zero_not_rejected :
  let r := Rec.mk (Name.mk "Ann")
             [Phone.mk "11111"; Phone.mk "22222"; Phone.mk "33333"] None None in
  run (Rec.edit_phone (Phone.mk "99999") 0) r
  = (Ok tt, Rec.mk (Name.mk "Ann")
              [Phone.mk "11111"; Phone.mk "99999"; Phone.mk "22222"] None None)
  /\ run (Rec.del_phone 0) r
     = (Ok (Phone.mk "33333"),
        Rec.mk (Name.mk "Ann") [Phone.mk "11111"; Phone.mk "22222"] None None).
Proof. split; reflexivity. Qed.

(** ** [days_to_birthday] *)

Lemma replace_year_feb29 (v : Datetime.datetime) (y : Z) :
  Datetime.month v = 2 -> Datetime.day v = 29 -> Datetime.is_leap y = false ->
  Datetime.replace_year v y = Raise ValueError.
Proof.
  intros Hm Hd Hy. unfold Datetime.replace_year, Datetime.valid_date.
  rewrite Hm, Hd. unfold Datetime.days_in_month. rewrite Hy.
  change (2 =? 2) with true. cbv iota.
  change (29 <=? 28) with false. rewrite andb_false_r. reflexivity.
Qed.

(** C10. A record whose stored birthday is a 29th of February makes
    [days_to_birthday] raise [ValueError] whenever the current year is not
    a leap year: moving the birthday into the current year fails, and the
    method returns neither a count nor a sentinel. *)
Theorem days_to_birthday_feb29_raises
    (today : Datetime.datetime) (self : Rec.t) (b : Birthday.t) :
  Rec.birthday self = Some b ->
  Datetime.month (Birthday.value b) = 2 ->
  Datetime.day (Birthday.value b) = 29 ->
  Datetime.is_leap (Datetime.year today) = false ->
  Rec.days_to_birthday today self = Raise ValueError.
Proof.
  intros Hb Hm Hd Hy. unfold Rec.days_to_birthday. rewrite Hb.
  rewrite (replace_year_feb29 _ _ Hm Hd Hy). reflexivity.
Qed.

(** The birthday of the witness is one the constructor produces. *)
Example birthday_new_feb29 :
  Birthday.new "29.02.2024" = Ok (Birthday.mk (Datetime.mk_datetime 2024 2 29 0 0 0 0)).
Proof. reflexivity. Qed.

Lemma days_to_birthday_feb29_raises_witness :
  Rec.days_to_birthday
    (Datetime.mk_datetime 2025 6 15 12 30 0 0)
    (Rec.mk (Name.mk "Ann") []
       (Some (Birthday.mk (Datetime.mk_datetime 2024 2 29 0 0 0 0))) None)
  = Raise ValueError.
Proof.
  apply (days_to_birthday_feb29_raises _ _
           (Birthday.mk (Datetime.mk_datetime 2024 2 29 0 0 0 0)));
    reflexivity.
Defined.

(** The same failure in a leap year once the 29th of February has passed:
    the move into the following year is the one that fails. *)
Example days_to_birthday_feb29_after_leap_day :
  Rec.days_to_birthday
    (Datetime.mk_datetime 2024 3 1 9 0 0 0)
    (Rec.mk (Name.mk "Ann") []
       (Some (Birthday.mk (Datetime.mk_datetime 2000 2 29 0 0 0 0))) None)
  = Raise ValueError.
Proof. reflexivity. Qed.

(** The half of C2 the code does honour: on the birthday itself the
    answer is the "today" sentinel at every time of day. *)
Lemma days_to_birthday_today_any_time (h mi s us : Z) :
  let today := Datetime.mk_datetime 2024 3 1 h mi s us in
  Datetime.valid_time today = true ->
  Rec.days_to_birthday today (born 1990 3 1) = Ok "It is TODAY!!!".
Proof.
  intros today Hv. unfold Datetime.valid_time in Hv. simpl in Hv.
  repeat (apply andb_true_iff in Hv as [Hv ?]).
  unfold Rec.days_to_birthday, born. cbn [Rec.birthday Birthday.value].
  change (Datetime.replace_year (Datetime.mk_datetime 1990 3 1 0 0 0 0) (Datetime.year today))
    with (Ok (Datetime.mk_datetime 2024 3 1 0 0 0 0) : result Datetime.datetime).
  cbn [result_bind].
  assert (D : Datetime.sub_days (Datetime.mk_datetime 2024 3 1 0 0 0 0) today <= 0).
  { unfold Datetime.sub_days, Datetime.toordinal, Datetime.microseconds_of_day, today.
    cbn [Datetime.year Datetime.month Datetime.day Datetime.hour Datetime.minute
         Datetime.second Datetime.microsecond].
    apply Z.div_le_upper_bound; [reflexivity |]. lia. }
  destruct (Z.ltb_spec 0 (Datetime.sub_days (Datetime.mk_datetime 2024 3 1 0 0 0 0) today));
    [lia |].
  reflexivity.
Qed.

(** C2 at ten in the morning of 2024-03-01, for a birthday on the 2nd of
    March: the difference to midnight of the 2nd is 14 hours, that is zero
    whole days, so the code takes the birthday for past and counts to next
    year's: 365 days. Only at midnight sharp is the answer 1. *)
Theorem days_to_birthday_tomorrow_depends_on_hour :
  Birthday.new "02.03.1990" = Ok (Birthday.mk (Datetime.mk_datetime 1990 3 2 0 0 0 0))
  /\ Rec.days_to_birthday (Datetime.mk_datetime 2024 3 1 10 0 0 0) (born 1990 3 2)
     = Ok "365 days to birthday"
  /\ Rec.days_to_birthday (Datetime.mk_datetime 2024 3 1 0 0 0 0) (born 1990 3 2)
     = Ok "1 days to birthday"
  /\ Rec.days_to_birthday (Datetime.mk_datetime 2024 3 1 10 0 0 0) (born 1990 3 1)
     = Ok "It is TODAY!!!".
Proof. repeat split; reflexivity. Qed.

(** ** [Dict] and [add_record] *)

Lemma dict_get_set_same {V : Type} (k : string) (v : V) (d : Dict.t V) :
  Dict.get k (Dict.set k v d) = Some v.
Proof.
  induction d as [| [k' v'] d IH]; simpl.
  - now rewrite String.eqb_refl.
  - destruct (String.eqb k k') eqn:E; simpl; rewrite E; [reflexivity | exact IH].
Qed.

Lemma dict_get_set_other {V : Type} (k k' : string) (v : V) (d : Dict.t V) :
  k' <> k -> Dict.get k' (Dict.set k v d) = Dict.get k' d.
Proof.
  intros N. induction d as [| [k0 v0] d IH]; simpl.
  - destruct (String.eqb_spec k' k); [contradiction | reflexivity].
  - destruct (String.eqb_spec k k0) as [E | E]; simpl.
    + subst k0. destruct (String.eqb_spec k' k); [contradiction | reflexivity].
    + destruct (String.eqb k' k0); [reflexivity | exact IH].
Qed.

Lemma dict_set_absent {V : Type} (k : string) (v : V) (d : Dict.t V) :
  Dict.contains k d = false -> Dict.set k v d = (d ++ [(k, v)])%list.
Proof.
  unfold Dict.contains. induction d as [| [k0 v0] d IH]; simpl; [reflexivity |].
  destruct (String.eqb k k0); [discriminate |].
  intros H. now rewrite (IH H).
Qed.

Lemma dict_set_present_keys {V : Type} (k : string) (v : V) (d : Dict.t V) :
  Dict.contains k d = true -> Dict.keys (Dict.set k v d) = Dict.keys d.
Proof.
  unfold Dict.contains, Dict.keys. induction d as [| [k0 v0] d IH]; simpl; [discriminate |].
  destruct (String.eqb k k0); simpl; [reflexivity |].
  intros H. now rewrite (IH H).
Qed.

(** C1, amended. [add_record] never fails. Afterwards the record is
    stored under its name and every other key holds what it held; when the
    name was not a key the entry is added at the end, and when it was one
    the stored record is replaced and the keys and their order stay. *)
Theorem add_record_inserts_or_replaces (data : AddressBook.t) (r : Rec.t) :
  let k := Name.value (Rec.name r) in
  exists data' : AddressBook.t,
    run (AddressBook.add_record r) data = (Ok tt, data')
    /\ Dict.get k data' = Some r
    /\ (forall k', k' <> k -> Dict.get k' data' = Dict.get k' data)
    /\ (Dict.contains k data = false -> data' = (data ++ [(k, r)])%list)
    /\ (Dict.contains k data = true -> Dict.keys data' = Dict.keys data).
Proof.
  intros k. exists (Dict.set k r data). split; [reflexivity |].
  split; [apply dict_get_set_same |].
  split; [intros k' N; now apply dict_get_set_other |].
  split; [apply dict_set_absent | apply dict_set_present_keys].
Qed.

Lemma add_record_inserts_or_replaces_witness :
  let r := Rec.mk (Name.mk "Bob") [] None None in
  let data := [("Ann", Rec.mk (Name.mk "Ann") [] None None)] in
  exists data' : AddressBook.t,
    run (AddressBook.add_record r) data = (Ok tt, data')
    /\ data' = (data ++ [("Bob", r)])%list.
Proof.
  intros r data.
  destruct (add_record_inserts_or_replaces data r) as (data' & H1 & _ & _ & H4 & _).
  exists data'. split; [exact H1 | exact (H4 eq_refl)].
Defined.

(** C1 as stated fails: adding a record whose name is already a key does
    not fail, and the mapping changes, the old record being replaced. *)
Lemma add_record_duplicate_not_rejected :
  let old := Rec.mk (Name.mk "Ann") [Phone.mk "12345"] None None in
  let r := Rec.mk (Name.mk "Ann") [Phone.mk "67890"] None None in
  let data := [("Ann", old)] in
  Dict.contains (Name.value (Rec.name r)) data = true
  /\ run (AddressBook.add_record r) data = (Ok tt, [("Ann", r)])
  /\ ~ (exists e : exn, run (AddressBook.add_record r) data = (Raise e, data)).
Proof.
  cbv zeta. split; [reflexivity |]. split; [reflexivity |].
  intros [e H]. discriminate H.
Qed.

(** ** [search] *)

Lemma numeric_not_special (c : ascii) :
  Str.char_isnumeric c = true -> Re.is_special c = false.
Proof. by_cases_on_char c. Qed.

Lemma special_dot_only (c : ascii) :
  Re.is_special c = false -> Ascii.eqb c "." = false.
Proof. by_cases_on_char c. Qed.

Lemma parse_no_special (pattern : string) :
  no_special pattern = true ->
  Re.parse pattern = Some (map Re.Lit (list_ascii_of_string pattern)).
Proof.
  unfold no_special. induction pattern as [| c p IH]; [reflexivity |].
  intros H. apply forallb_cons in H as [Hc Hp]. apply negb_true_iff in Hc.
  cbn [Re.parse list_ascii_of_string map].
  rewrite (special_dot_only c Hc), Hc, (IH Hp). reflexivity.
Qed.

Lemma isnumeric_no_special (pattern : string) :
  Str.isnumeric pattern = true -> no_special pattern = true.
Proof.
  unfold Str.isnumeric, no_special. intros H. apply andb_true_iff in H as [_ H].
  apply (forallb_impl Str.char_isnumeric); [| exact H].
  intros c Hc. now rewrite (numeric_not_special c Hc).
Qed.

Lemma match_literals_exact (p s : string) :
  Re.match_items false (map Re.Lit (list_ascii_of_string p)) s = Str.startswith p s.
Proof.
  revert s. induction p as [| a p IH]; intros s; [reflexivity |].
  destruct s as [| b s]; [reflexivity |].
  cbn [list_ascii_of_string map Re.match_items Re.item_matches Str.startswith].
  now rewrite IH.
Qed.

Lemma match_literals_nocase (p s : string) :
  Re.match_items true (map Re.Lit (list_ascii_of_string p)) s = startswith_nocase p s.
Proof.
  revert s. induction p as [| a p IH]; intros s; [reflexivity |].
  destruct s as [| b s]; [reflexivity |].
  cbn [list_ascii_of_string map Re.match_items Re.item_matches startswith_nocase].
  now rewrite IH.
Qed.

Lemma re_match_no_special (pattern s : string) (ignorecase : bool) :
  no_special pattern = true ->
  Re.re_match pattern s ignorecase =
  Some (if ignorecase then startswith_nocase pattern s else Str.startswith pattern s).
Proof.
  intros H. unfold Re.re_match. rewrite (parse_no_special pattern H).
  cbn [option_map]. destruct ignorecase.
  - now rewrite match_literals_nocase.
  - now rewrite match_literals_exact.
Qed.

Section SearchLoops.
Variable pattern : string.
Hypothesis plain : no_special pattern = true.

Lemma search_phones_spec (contact : Rec.t) (phones : list Phone.t) (found : list Rec.t) :
  AddressBook.search_phones pattern contact phones found =
  Some (found ++ map (fun _ => contact)
                     (filter (fun ph => Str.startswith pattern (Phone.value ph)) phones))%list.
Proof.
  revert found. induction phones as [| ph rest IH]; intros found; simpl.
  - now rewrite app_nil_r.
  - rewrite (re_match_no_special pattern _ false plain).
    destruct (Str.startswith pattern (Phone.value ph)); rewrite IH; [| reflexivity].
    now rewrite <- app_assoc.
Qed.

Lemma search_by_phone_spec (contacts : list Rec.t) (found : list Rec.t) :
  AddressBook.search_by_phone pattern contacts found =
  Some (found ++ flat_map (once_per_matching_phone pattern) contacts)%list.
Proof.
  revert found. induction contacts as [| c rest IH]; intros found; simpl.
  - now rewrite app_nil_r.
  - rewrite search_phones_spec, IH. unfold once_per_matching_phone at 2.
    now rewrite <- app_assoc.
Qed.

Lemma search_by_name_spec (contacts : list Rec.t) (found : list Rec.t) :
  AddressBook.search_by_name pattern contacts found =
  Some (found ++ filter (fun r => startswith_nocase pattern (Name.value (Rec.name r)))
                        contacts)%list.
Proof.
  revert found. induction contacts as [| c rest IH]; intros found; simpl.
  - now rewrite app_nil_r.
  - rewrite (re_match_no_special pattern _ true plain).
    destruct (startswith_nocase pattern (Name.value (Rec.name c))); rewrite IH; [| reflexivity].
    now rewrite <- app_assoc.
Qed.

End SearchLoops.

(** C5, amended. For a numeric pattern (digits only, in particular),
    [search] returns, in store order, each record once for every phone of
    it that starts with the pattern. For a pattern that is not numeric and
    holds no special character of [re], it returns exactly the records
    whose name starts with the pattern, letter case ignored, in store
    order. On the store of Anna (phone 1234567) and Ann (no phone),
    [search "Ann"] returns both in store order and [search "123"] returns
    Anna alone. *)
Theorem search_is_prefix_match (data : AddressBook.t) (pattern : string) :
  (Str.isnumeric pattern = true ->
   AddressBook.search pattern data =
   Some (flat_map (once_per_matching_phone pattern) (Dict.values data)))
  /\ (Str.isnumeric pattern = false ->
      no_special pattern = true ->
      AddressBook.search pattern data =
      Some (filter (fun r => startswith_nocase pattern (Name.value (Rec.name r)))
                   (Dict.values data)))
  /\ AddressBook.search "Ann" anna_and_ann = Some [anna; ann]
  /\ AddressBook.search "123" anna_and_ann = Some [anna].
Proof.
  unfold AddressBook.search. split; [| split; [| split; reflexivity]].
  - intros H. rewrite H.
    now rewrite (search_by_phone_spec pattern (isnumeric_no_special pattern H)).
  - intros H P. rewrite H. now rewrite (search_by_name_spec pattern P).
Qed.

Lemma search_is_prefix_match_witness :
  AddressBook.search "1234" anna_and_ann = Some [anna]
  /\ AddressBook.search "aNN" anna_and_ann = Some [anna; ann].
Proof.
  split.
  - exact (proj1 (search_is_prefix_match anna_and_ann "1234") eq_refl).
  - exact (proj1 (proj2 (search_is_prefix_match anna_and_ann "aNN")) eq_refl eq_refl).
Defined.

(** C5 as stated fails. A dot in the pattern matches any character, so
    ["A.n"] finds Anna and Ann although neither name starts with it; a
    record with two phones that start with the pattern is returned twice;
    and the one-character pattern "one half" (code point 189), which is
    numeric without being a digit, is matched against phones and finds
    nothing, although a name starts with it. *)
Lemma search_differs_from_prefix_match :
  let bob := Rec.mk (Name.mk "Bob") [Phone.mk "12345"; Phone.mk "12399"] None None in
  let half := String (ascii_of_nat 189) EmptyString in
  let odd := Rec.mk (Name.mk (half ++ "ab")) [] None None in
  (AddressBook.search "A.n" anna_and_ann = Some [anna; ann]
   /\ search_as_specified "A.n" anna_and_ann = [])
  /\ (AddressBook.search "123" [("Bob", bob)] = Some [bob; bob]
      /\ search_as_specified "123" [("Bob", bob)] = [bob])
  /\ (AddressBook.search half [(half ++ "ab", odd)] = Some []
      /\ search_as_specified half [(half ++ "ab", odd)] = [odd]).
Proof. cbv zeta. repeat split; reflexivity. Qed.

(** ** The paginated view *)

Lemma is_empty_append (a b : string) :
  Str.is_empty (a ++ b) = Str.is_empty a && Str.is_empty b.
Proof. destruct a; reflexivity. Qed.

Lemma rec_str_not_empty (r : Rec.t) : Str.is_empty (Rec.str r) = false.
Proof.
  unfold Rec.str. rewrite !is_empty_append.
  change (Str.is_empty ": Phones: ") with false.
  now rewrite andb_false_l, andb_false_r.
Qed.

Lemma concat_str_empty (l : list Rec.t) :
  Str.is_empty (Str.concat (map Rec.str l)) = match l with [] => true | _ :: _ => false end.
Proof.
  destruct l as [| r l]; [reflexivity |].
  cbn [map Str.concat]. now rewrite is_empty_append, rec_str_not_empty.
Qed.

Lemma str_append_assoc (a b c : string) : ((a ++ b) ++ c = a ++ (b ++ c))%string.
Proof. induction a as [| x a IH]; simpl; [reflexivity | now rewrite IH]. Qed.

Lemma str_concat_app (l1 l2 : list string) :
  Str.concat (l1 ++ l2)%list = (Str.concat l1 ++ Str.concat l2)%string.
Proof.
  induction l1 as [| x l1 IH]; simpl; [reflexivity |].
  now rewrite IH, str_append_assoc.
Qed.

Lemma str_concat_pages {A : Type} (f : A -> string) (chunks : list (list A)) :
  Str.concat (map (fun c => Str.concat (map f c)) chunks)
  = Str.concat (map f (List.concat chunks)).
Proof.
  induction chunks as [| c chunks IH]; simpl; [reflexivity |].
  now rewrite map_app, str_concat_app, IH.
Qed.

Lemma firstn_plus {A : Type} (a b : nat) (l : list A) :
  firstn (a + b) l = (firstn a l ++ firstn b (skipn a l))%list.
Proof.
  revert l. induction a as [| a IH]; intros l; [reflexivity |].
  destruct l as [| x l]; simpl.
  - now rewrite firstn_nil.
  - now rewrite IH.
Qed.

Lemma firstn_cons_pos {A : Type} (m : nat) (x : A) (l : list A) :
  (0 < m)%nat -> firstn m (x :: l) = x :: firstn (pred m) l.
Proof. destruct m; [lia | reflexivity]. Qed.

(** Consecutive pages, glued, are a stretch of the list. *)
Lemma pages_glue {A : Type} (p : nat) (l : list A) (j a : nat) :
  List.concat (map (page_records p l) (seq a j)) = firstn (j * p) (skipn (a * p) l).
Proof.
  revert a. induction j as [| j IH]; intros a; [reflexivity |].
  cbn [seq map List.concat]. rewrite IH. unfold page_records.
  replace (S j * p)%nat with (p + j * p)%nat by lia.
  rewrite firstn_plus, skipn_skipn.
  now replace (p + a * p)%nat with (S a * p)%nat by lia.
Qed.

Section Pagination.
Variable data : AddressBook.t.
Variable page : Z.
Hypothesis page_pos : 0 < page.

Let n : nat := List.length (Dict.values data).
Let p : nat := Z.to_nat page.
Let k : nat := Z.to_nat (page_count page (Dict.len data)).

Lemma len_values : Dict.len data = Z.of_nat n.
Proof. unfold n, Dict.len, Dict.values. now rewrite length_map. Qed.

(** [page_count] is the ceiling: the least [k] with [n <= k * page]. *)
Lemma page_count_is_ceiling :
  page * (page_count page (Dict.len data) - 1) < Dict.len data
  <= page * page_count page (Dict.len data).
Proof.
  unfold page_count. rewrite len_values.
  pose proof (Z.div_mod (Z.of_nat n + page - 1) page ltac:(lia)) as D.
  pose proof (Z.mod_pos_bound (Z.of_nat n + page - 1) page page_pos) as B.
  lia.
Qed.

Lemma page_count_nonneg : 0 <= page_count page (Dict.len data).
Proof. pose proof page_count_is_ceiling. pose proof len_values. nia. Qed.

Lemma before_last_page (i : nat) : (i < k)%nat <-> (i * p < n)%nat.
Proof.
  pose proof page_count_is_ceiling as C. pose proof page_count_nonneg as K.
  pose proof len_values as L0.
  assert (Hk : Z.of_nat k = page_count page (Dict.len data)) by (unfold k; lia).
  assert (Hp : Z.of_nat p = page) by (unfold p; lia).
  split; intros H.
  - apply Nat2Z.inj_lt. rewrite Nat2Z.inj_mul, Hp.
    apply Nat2Z.inj_lt in H. rewrite Hk in H.
    assert (Z.of_nat i * page <= (page_count page (Dict.len data) - 1) * page)
      by (apply Z.mul_le_mono_nonneg_r; lia).
    lia.
  - apply Nat2Z.inj_lt. rewrite Hk.
    apply Nat2Z.inj_lt in H. rewrite Nat2Z.inj_mul, Hp in H.
    destruct (Z.lt_ge_cases (Z.of_nat i) (page_count page (Dict.len data))) as [L | L];
      [exact L |].
    assert (page_count page (Dict.len data) * page <= Z.of_nat i * page)
      by (apply Z.mul_le_mono_nonneg_r; lia).
    lia.
Qed.

Lemma page_step (i : nat) : Z.of_nat (i * p) + page = Z.of_nat (S i * p).
Proof.
  assert (Hp : Z.of_nat p = page) by (unfold p; lia).
  cbn [Nat.mul]. rewrite Nat2Z.inj_add. lia.
Qed.

(** The largest bound handed to [islice]: the stop of the resumption
    that finds nothing left. *)
Lemma last_stop :
  Z.of_nat (S k * p) = page * (page_count page (Dict.len data) + 1).
Proof.
  pose proof page_count_nonneg as K.
  assert (Hk : Z.of_nat k = page_count page (Dict.len data)) by (unfold k; lia).
  assert (Hp : Z.of_nat p = page) by (unfold p; lia).
  rewrite Nat2Z.inj_mul, Nat2Z.inj_succ, Hk, Hp. ring.
Qed.

Lemma next_running (i : nat) :
  Z.of_nat (S i * p) <= Sys.maxsize ->
  AddressBook.next page data (AddressBook.Running (Z.of_nat (i * p))) =
  if (i <? k)%nat
  then (AddressBook.Yield (Str.concat (map Rec.str (page_records p (Dict.values data) i))),
        AddressBook.Running (Z.of_nat (S i * p)))
  else (AddressBook.Yield (AddressBook.total data), AddressBook.Summarised).
Proof.
  intros B. pose proof (page_step i) as St.
  unfold AddressBook.next, AddressBook.islice.
  destruct (Z.ltb_spec (Z.of_nat (i * p)) 0); [lia |].
  destruct (Z.ltb_spec (Z.of_nat (i * p) + page) 0); [lia |].
  destruct (Z.ltb_spec Sys.maxsize (Z.of_nat (i * p))); [lia |].
  destruct (Z.ltb_spec Sys.maxsize (Z.of_nat (i * p) + page)); [lia |].
  cbn [orb]. cbv zeta.
  replace (Z.to_nat (Z.of_nat (i * p) + page - Z.of_nat (i * p))) with p by (unfold p; lia).
  rewrite Nat2Z.id. fold (page_records p (Dict.values data) i).
  rewrite concat_str_empty.
  assert (P : (0 < p)%nat) by (unfold p; lia).
  destruct (Nat.ltb_spec i k) as [L | L].
  - apply before_last_page in L. unfold page_records.
    destruct (skipn (i * p) (Dict.values data)) as [| x rest] eqn:E.
    + apply skipn_all_iff in E. fold n in E. lia.
    + rewrite (firstn_cons_pos p x rest P).
      do 2 f_equal. exact St.
  - assert (G : (n <= i * p)%nat).
    { destruct (Nat.lt_ge_cases (i * p) n) as [C | C]; [| exact C].
      apply before_last_page in C. lia. }
    unfold page_records. rewrite skipn_all2 by exact G. now rewrite firstn_nil.
Qed.

(** A resumption whose stop is beyond [sys.maxsize] raises. *)
Lemma next_beyond_maxsize (i : nat) :
  Sys.maxsize < Z.of_nat (S i * p) ->
  AddressBook.next page data (AddressBook.Running (Z.of_nat (i * p)))
  = (AddressBook.Error ValueError, AddressBook.Finished).
Proof.
  intros B. pose proof (page_step i) as St.
  unfold AddressBook.next, AddressBook.islice.
  destruct (Z.ltb_spec Sys.maxsize (Z.of_nat (i * p) + page)); [| lia].
  now rewrite !orb_true_r.
Qed.

(** Draining from page [i] on, with fuel for the pages left, the summary
    and the final [StopIteration]. *)
Lemma drain_from (j i fuel : nat) :
  Z.of_nat (S k * p) <= Sys.maxsize ->
  (i + j = k)%nat -> (j + 2 <= fuel)%nat ->
  AddressBook.drain fuel page data (AddressBook.Running (Z.of_nat (i * p))) =
  Some (Ok (map (fun i => Str.concat (map Rec.str (page_records p (Dict.values data) i)))
                (seq i j) ++ [AddressBook.total data])%list).
Proof.
  intros B. revert i fuel. induction j as [| j IH]; intros i fuel E F.
  - destruct fuel as [| [| fuel]]; [lia | lia |].
    cbn [AddressBook.drain]. rewrite next_running by (replace i with k by lia; exact B).
    destruct (Nat.ltb_spec i k); [lia |]. reflexivity.
  - destruct fuel as [| fuel]; [lia |].
    assert (Bi : Z.of_nat (S i * p) <= Sys.maxsize).
    { assert ((S i * p <= S k * p)%nat) by (apply Nat.mul_le_mono_r; lia). lia. }
    cbn [AddressBook.drain]. rewrite (next_running i Bi).
    destruct (Nat.ltb_spec i k); [| lia].
    rewrite (IH (S i) fuel) by lia. reflexivity.
Qed.

(** When the last stop is beyond [sys.maxsize], the drain ends in
    [ValueError], at that resumption or at an earlier one. *)
Lemma drain_from_beyond_maxsize (j i fuel : nat) :
  Sys.maxsize < Z.of_nat (S k * p) ->
  (i + j = k)%nat -> (j + 1 <= fuel)%nat ->
  AddressBook.drain fuel page data (AddressBook.Running (Z.of_nat (i * p)))
  = Some (Raise ValueError).
Proof.
  intros B. revert i fuel. induction j as [| j IH]; intros i fuel E F.
  - destruct fuel as [| fuel]; [lia |].
    cbn [AddressBook.drain]. rewrite next_beyond_maxsize; [reflexivity |].
    replace i with k by lia. exact B.
  - destruct fuel as [| fuel]; [lia |]. cbn [AddressBook.drain].
    destruct (Z.le_gt_cases (Z.of_nat (S i * p)) Sys.maxsize) as [Bi | Bi].
    + rewrite (next_running i Bi). destruct (Nat.ltb_spec i k); [| lia].
      now rewrite (IH (S i) fuel) by lia.
    + now rewrite (next_beyond_maxsize i Bi).
Qed.

Lemma drain_all (fuel : nat) :
  page * (page_count page (Dict.len data) + 1) <= Sys.maxsize ->
  (k + 2 <= fuel)%nat ->
  AddressBook.drain fuel page data (AddressBook.iterator page) =
  Some (Ok (content_pages page data ++ [AddressBook.total data])%list).
Proof.
  intros B F. rewrite <- last_stop in B. unfold AddressBook.iterator.
  change 0 with (Z.of_nat (0 * p)). now rewrite (drain_from k 0 fuel B).
Qed.

Lemma drain_all_beyond_maxsize (fuel : nat) :
  Sys.maxsize < page * (page_count page (Dict.len data) + 1) ->
  (k + 1 <= fuel)%nat ->
  AddressBook.drain fuel page data (AddressBook.iterator page) = Some (Raise ValueError).
Proof.
  intros B F. rewrite <- last_stop in B. unfold AddressBook.iterator.
  change 0 with (Z.of_nat (0 * p)). now rewrite (drain_from_beyond_maxsize k 0 fuel B).
Qed.

Lemma pages_cover :
  List.concat (map (page_records p (Dict.values data)) (page_numbers page data))
  = Dict.values data.
Proof.
  unfold page_numbers. fold k. rewrite pages_glue. cbn [Nat.mul skipn].
  apply firstn_all2. fold n.
  destruct (Nat.lt_ge_cases (k * p) n) as [C | C]; [| exact C].
  apply before_last_page in C. lia.
Qed.

End Pagination.

(** C6, amended. For a page size [page > 0] and a store of [n] records,
    there are [ceil(n / page)] content pages; glued together they are the
    renderings of all records in store order, and the records behind them
    are the records of the store in order. The paginated view yields them
    all, followed by exactly one summary page ["Total: n contacts."], as
    long as the last bound it hands to [islice], which is
    [page * (ceil(n / page) + 1)], is at most [sys.maxsize]; an empty store
    then yields the summary page alone. With a larger page size the view
    ends in [ValueError] and never yields the summary. *)
Theorem iterator_yields_all_pages (data : AddressBook.t) (page : Z) (fuel : nat) :
  0 < page ->
  (Z.to_nat (page_count page (Dict.len data)) + 2 <= fuel)%nat ->
  (page * (page_count page (Dict.len data) + 1) <= Sys.maxsize ->
   AddressBook.drain fuel page data (AddressBook.iterator page)
   = Some (Ok (content_pages page data ++ [AddressBook.total data])%list))
  /\ (Sys.maxsize < page * (page_count page (Dict.len data) + 1) ->
      AddressBook.drain fuel page data (AddressBook.iterator page)
      = Some (Raise ValueError))
  /\ AddressBook.total data = "Total: " ++ Str.of_int (Dict.len data) ++ " contacts."
  /\ Z.of_nat (List.length (content_pages page data)) = page_count page (Dict.len data)
  /\ page * (page_count page (Dict.len data) - 1) < Dict.len data
     <= page * page_count page (Dict.len data)
  /\ Str.concat (content_pages page data) = Str.concat (map Rec.str (Dict.values data))
  /\ List.concat (map (page_records (Z.to_nat page) (Dict.values data))
                      (page_numbers page data))
     = Dict.values data
  /\ (data = [] -> page <= Sys.maxsize ->
      AddressBook.drain fuel page data (AddressBook.iterator page)
      = Some (Ok [AddressBook.total data])).
Proof.
  intros P F.
  pose proof (pages_cover data page P) as C.
  split; [intros B; exact (drain_all data page P fuel B F) |].
  split; [intros B; apply (drain_all_beyond_maxsize data page P fuel B); lia |].
  split; [reflexivity |].
  split.
  { unfold content_pages, page_numbers. rewrite length_map, length_seq.
    pose proof (page_count_nonneg data page P). lia. }
  split; [exact (page_count_is_ceiling data page P) |].
  split.
  { unfold content_pages.
    rewrite <- (map_map (page_records (Z.to_nat page) (Dict.values data))
                        (fun c => Str.concat (map Rec.str c))).
    now rewrite str_concat_pages, C. }
  split; [exact C |].
  intros E B.
  assert (Z0 : page_count page (Dict.len data) = 0).
  { subst data. unfold page_count. cbn [Dict.len List.length Z.of_nat].
    apply Z.div_small. lia. }
  rewrite (drain_all data page P fuel) by (rewrite ?Z0; lia || exact F).
  unfold content_pages, page_numbers. rewrite Z0. reflexivity.
Qed.

Lemma iterator_yields_all_pages_witness :
  AddressBook.drain 4 1 anna_and_ann (AddressBook.iterator 1)
  = Some (Ok [Rec.str anna; Rec.str ann; "Total: 2 contacts."]).
Proof.
  refine (proj1 (iterator_yields_all_pages anna_and_ann 1 4 eq_refl (le_n 4)) _).
  vm_compute. discriminate.
Defined.

(** C6 as stated fails for page sizes near [sys.maxsize]. With page size
    [2^62] a store of two records has one content page, yet the resumption
    after it hands [islice] the stop [2^63] and the view ends in
    [ValueError] instead of the summary; and with page size [2^63] even the
    empty store yields no summary page. *)
Lemma iterator_page_size_beyond_maxsize :
  let page := 4611686018427387904 in
  (0 < page
   /\ page_count page (Dict.len anna_and_ann) = 1
   /\ AddressBook.drain 3 page anna_and_ann (AddressBook.iterator page)
      = Some (Raise ValueError)
   /\ AddressBook.drain 3 page anna_and_ann (AddressBook.iterator page)
      <> Some (Ok (content_pages page anna_and_ann ++ [AddressBook.total anna_and_ann])%list))
  /\ (AddressBook.drain 2 (2 * page) [] (AddressBook.iterator (2 * page))
      = Some (Raise ValueError)
      /\ AddressBook.drain 2 (2 * page) [] (AddressBook.iterator (2 * page))
         <> Some (Ok [AddressBook.total []])).
Proof.
  cbv zeta.
  assert (A : AddressBook.drain 3 4611686018427387904 anna_and_ann
                (AddressBook.iterator 4611686018427387904)
              = Some (Raise ValueError)).
  { apply drain_all_beyond_maxsize; [reflexivity | reflexivity |].
    vm_compute. lia. }
  assert (B : AddressBook.drain 2 (2 * 4611686018427387904) []
                (AddressBook.iterator (2 * 4611686018427387904))
              = Some (Raise ValueError)).
  { apply drain_all_beyond_maxsize; [reflexivity | reflexivity |].
    vm_compute. lia. }
  split; [split; [reflexivity | split; [reflexivity | split; [exact A |]]] | split; [exact B |]].
  - rewrite A. discriminate.
  - rewrite B. discriminate.
Qed.

(** ** Pickling: what the unpickler makes of what the pickler writes *)

Section PickleFacts.
Import Pickle.

Lemma exec_cons (op : opcode) (rest : blob) (v : vm) :
  op <> STOP ->
  exec (op :: rest) v =
  match step op v with
  | Some v' => exec rest v'
  | None => None
  end.
Proof. destruct op; intros H; try reflexivity. now elim H. Qed.

Lemma vm_eta (v : vm) (st : pstate) :
  memo v = p_memo st -> mk_vm (stack v) (metastack v) (p_memo st) = v.
Proof. destruct v; simpl; intros <-; reflexivity. Qed.

Lemma does_nil : does (emit []) (fun s s' => s' = s).
Proof. intros st v rest s' Hm ->. simpl. now rewrite vm_eta. Qed.

Lemma does_op (op : opcode) (R : list pyobj -> list pyobj -> Prop) :
  op <> STOP ->
  (forall v s', R (stack v) s' -> step op v = Some (mk_vm s' (metastack v) (memo v))) ->
  does (emit [op]) R.
Proof.
  intros Hop H st v rest s' Hm HR. cbn [emit fst snd app].
  rewrite exec_cons by exact Hop. rewrite (H v s' HR). now rewrite Hm.
Qed.

Lemma does_memoize (o : pyobj) :
  does (memoize o) (fun s s' => s' = s /\ exists r, s = o :: r).
Proof.
  intros st v rest s' Hm [-> [r Hs]]. cbn [memoize fst snd app p_memo].
  rewrite exec_cons by discriminate. cbn [step]. rewrite Hs, Hm. reflexivity.
Qed.

Lemma does_seq (a b : writer) (R1 R2 : list pyobj -> list pyobj -> Prop) :
  does a R1 -> does b R2 ->
  does (a +> b) (fun s s'' => exists s', R1 s s' /\ R2 s' s'').
Proof.
  intros Ha Hb st v rest s'' Hm (s' & H1 & H2). unfold seq_w.
  specialize (Ha st v). destruct (a st) as [o1 s1]. simpl in Ha.
  specialize (Hb s1). destruct (b s1) as [o2 s2]. simpl in Hb. simpl.
  rewrite <- app_assoc, (Ha _ s' Hm H1).
  now rewrite (Hb (mk_vm s' (metastack v) (p_memo s1)) rest s'' eq_refl H2).
Qed.

Lemma does_weaken (w : writer) (R R' : list pyobj -> list pyobj -> Prop) :
  (forall s s', R' s s' -> R s s') -> does w R -> does w R'.
Proof. intros Himp H st v rest s' Hm HR. apply H; auto. Qed.

(** An opcode that pushes [o], then [MEMOIZE]. *)
Lemma saves_op_memoize (op : opcode) (o : pyobj) :
  op <> STOP ->
  (forall v, step op v = Some (push o v)) ->
  saves (emit [op] +> memoize o) o.
Proof.
  intros Hop H. unfold saves.
  eapply does_weaken; [| eapply does_seq; [| apply does_memoize]].
  2: { apply (does_op op (fun s s' => s' = o :: s) Hop).
       intros v s' ->. apply H. }
  intros s s' ->. exists (o :: s). repeat split. now exists s.
Qed.

(** A writer that saves [o], followed by an opcode that rewrites the top. *)
Lemma saves_then_memoize (w : writer) (o : pyobj) :
  saves w o -> saves (w +> memoize o) o.
Proof.
  intros H. unfold saves.
  eapply does_weaken; [| eapply does_seq; [exact H | apply does_memoize]].
  intros s s' ->. exists (o :: s). repeat split. now exists s.
Qed.

Lemma does_all (ws : list writer) (os : list pyobj) :
  Forall2 saves ws os ->
  does (all_w ws) (fun s s' => s' = (rev os ++ s)%list).
Proof.
  induction 1 as [| w o ws os Hw _ IH]; cbn [all_w].
  - apply does_nil.
  - eapply does_weaken; [| eapply does_seq; [exact Hw | exact IH]].
    intros s s' ->. exists (o :: s). split; [reflexivity |].
    cbn [rev]. now rewrite <- app_assoc.
Qed.

(** Items pushed between [MARK] and an opcode that pops the mark. *)
Lemma does_marked (w : writer) (os : list pyobj) (op : opcode)
    (R : list pyobj -> list pyobj -> Prop) :
  op <> STOP ->
  does w (fun s s' => s' = (rev os ++ s)%list) ->
  (forall s ms m s', R s s' ->
     step op (mk_vm (rev os) (s :: ms) m) = Some (mk_vm s' ms m)) ->
  does (emit [MARK] +> w +> emit [op]) R.
Proof.
  intros Hop Hw Hstep st v rest s' Hm HR. unfold seq_w. cbn [emit].
  specialize (Hw st (mk_vm [] (stack v :: metastack v) (memo v))).
  destruct (w st) as [o1 s1]. simpl in Hw. simpl.
  rewrite <- app_assoc, (Hw _ _ Hm eq_refl). cbn [app stack metastack].
  rewrite exec_cons by exact Hop. rewrite app_nil_r.
  now rewrite (Hstep _ _ _ _ HR).
Qed.

Lemma saves_str (identity : nat -> option nat) (s : string) :
  saves (save_str identity s) (PyStr s).
Proof.
  assert (Fresh : forall st, p_memo st = p_memo st ->
            forall st' v rest, p_memo st' = p_memo st -> memo v = p_memo st ->
            exec (fst ((emit [UNICODE s] +> memoize (PyStr s)) st') ++ rest)%list v
            = exec rest (mk_vm (PyStr s :: stack v) (metastack v)
                           (p_memo (snd ((emit [UNICODE s] +> memoize (PyStr s)) st'))))).
  { intros st _ st' v rest E Hm.
    apply (saves_op_memoize (UNICODE s) (PyStr s)); [discriminate | reflexivity | | reflexivity].
    now rewrite E. }
  intros st v rest s' Hm ->. unfold save_str. cbv zeta.
  destruct (identity (asked st)) as [i |].
  - destruct (holds_str (p_memo st) i s) eqn:E.
    + unfold holds_str in E. cbn [fst snd app p_memo].
      rewrite exec_cons by discriminate. cbn [step]. rewrite Hm.
      destruct (nth_error (p_memo st) i) as [[] |]; try discriminate.
      apply String.eqb_eq in E. subst. unfold push, with_stack. now rewrite Hm.
    + now apply (Fresh st).
  - now apply (Fresh st).
Qed.

Lemma index_class_from_nth (modname name : string) (m : list pyobj) (k i : nat) :
  index_class_from modname name m k = Some i ->
  exists j, i = (k + j)%nat /\ nth_error m j = Some (PyClass modname name).
Proof.
  revert k. induction m as [| x m IH]; intros k H; [discriminate |].
  assert (Next : index_class_from modname name m (S k) = Some i ->
                 exists j, i = (k + j)%nat /\ nth_error (x :: m) j = Some (PyClass modname name)).
  { intros H'. destruct (IH _ H') as (j & -> & Hj). exists (S j). split; [lia | exact Hj]. }
  destruct x; cbn [index_class_from] in H; try (now apply Next).
  destruct (String.eqb_spec modname0 modname) as [-> |]; cbn [andb] in H; [| now apply Next].
  destruct (String.eqb_spec name0 name) as [-> |]; [| now apply Next].
  injection H as <-. exists O. split; [lia | reflexivity].
Qed.

Lemma saves_global (identity : nat -> option nat) (modname name : string) :
  saves (save_global identity modname name) (PyClass modname name).
Proof.
  intros st v rest s' Hm ->. unfold save_global.
  destruct (index_class modname name (p_memo st)) as [i |] eqn:E.
  - apply index_class_from_nth in E as (j & -> & Hj). cbn [fst snd app Nat.add].
    rewrite exec_cons by discriminate. cbn [step]. rewrite Hm, Hj.
    unfold push, with_stack. now rewrite Hm.
  - revert st v rest Hm E. intros st v rest Hm _.
    assert (G : saves (save_str identity modname +> save_str identity name
                       +> emit [STACK_GLOBAL] +> memoize (PyClass modname name))
                      (PyClass modname name)).
    { unfold saves.
      eapply does_weaken;
        [| eapply does_seq; [apply saves_str |
           eapply does_seq; [apply saves_str |
           eapply does_seq; [| apply does_memoize]]]].
      2: { apply (does_op STACK_GLOBAL
                    (fun s s' => exists r, s = PyStr name :: PyStr modname :: r
                                           /\ s' = PyClass modname name :: r));
             [discriminate |].
           intros v0 s0 (r & Hs & ->). cbn [step]. now rewrite Hs. }
      intros s s0 ->. eexists. split; [reflexivity |].
      eexists. split; [reflexivity |].
      eexists. split; [exists s; split; reflexivity |].
      split; [reflexivity | now exists s]. }
    now apply G.
Qed.

Lemma Forall2_firstn_skipn {A B : Type} (P : A -> B -> Prop) (n : nat)
    (l1 : list A) (l2 : list B) :
  Forall2 P l1 l2 ->
  Forall2 P (firstn n l1) (firstn n l2) /\ Forall2 P (skipn n l1) (skipn n l2).
Proof.
  intros H. revert n. induction H as [| a b l1 l2 Hab H IH]; intros n.
  - rewrite !firstn_nil, !skipn_nil. split; constructor.
  - destruct n as [| n]; cbn [firstn skipn].
    + split; constructor; assumption.
    + destruct (IH n) as [F S]. split; [constructor; assumption | exact S].
Qed.

Lemma BATCHSIZE_pos : (1 <= BATCHSIZE)%nat.
Proof. unfold BATCHSIZE. lia. Qed.

Lemma length_skipn_batch {A : Type} (x : A) (l : list A) (fuel : nat) :
  (List.length (x :: l) <= S fuel)%nat ->
  (List.length (skipn BATCHSIZE (x :: l)) <= fuel)%nat.
Proof.
  intros H. rewrite length_skipn. pose proof BATCHSIZE_pos. cbn [List.length] in *. lia.
Qed.

Lemma append_batch_does (tmp : list writer) (os : list pyobj) :
  Forall2 saves tmp os -> does (append_batch tmp) (extends_list os).
Proof.
  intros H. destruct H as [| w o tmp os Hw H].
  - eapply does_weaken; [| apply does_nil].
    intros s s' (l & r & -> & ->). now rewrite app_nil_r.
  - destruct H as [| w2 o2 tmp os Hw2 H].
    + cbn [append_batch].
      eapply does_weaken; [| eapply does_seq; [exact Hw |]].
      2: { apply (does_op APPEND
                    (fun s s' => exists l r, s = o :: PyList l :: r
                                             /\ s' = PyList (l ++ [o]) :: r));
             [discriminate |].
           intros v s' (l & r & Hs & ->). cbn [step]. now rewrite Hs. }
      intros s s' (l & r & -> & ->). eexists. split; [reflexivity |]. now exists l, r.
    + cbn [append_batch].
      apply (does_marked _ (o :: o2 :: os)); [discriminate | |].
      * apply does_all. repeat constructor; assumption.
      * intros s ms m s' (l & r & -> & ->). cbn [step pop_mark metastack stack memo].
        now rewrite rev_involutive.
Qed.

Lemma batch_appends_does (fuel : nat) :
  forall (ws : list writer) (os : list pyobj),
    Forall2 saves ws os -> (List.length ws <= fuel)%nat ->
    does (all_w (map append_batch (batches_of fuel ws))) (extends_list os).
Proof.
  assert (Empty : does (all_w []) (extends_list [])).
  { eapply does_weaken; [| apply does_nil].
    intros s s' (l & r & -> & ->). now rewrite app_nil_r. }
  induction fuel as [| fuel IH]; intros ws os H L.
  - destruct H; [exact Empty | cbn [List.length] in L; lia].
  - destruct H as [| w o ws os Hw H]; [exact Empty |].
    cbn [batches_of map all_w].
    assert (F2 : Forall2 saves (w :: ws) (o :: os)) by (constructor; assumption).
    destruct (Forall2_firstn_skipn saves BATCHSIZE _ _ F2) as [F S].
    eapply does_weaken;
      [| eapply does_seq;
         [apply (append_batch_does _ _ F)
         | apply (IH _ _ S (length_skipn_batch _ _ _ L))]].
    intros s s' (l & r & -> & ->). eexists. split; [now exists l, r |].
    exists (l ++ firstn BATCHSIZE (o :: os))%list, r. split; [reflexivity |].
    now rewrite <- app_assoc, firstn_skipn.
Qed.

Lemma saves_list (ws : list writer) (os : list pyobj) :
  Forall2 saves ws os ->
  saves (emit [EMPTY_LIST] +> memoize (PyList []) +> batch_appends ws) (PyList os).
Proof.
  intros H. unfold saves, batch_appends, batches.
  eapply does_weaken;
    [| eapply does_seq;
       [apply (does_op EMPTY_LIST (fun s s' => s' = PyList [] :: s));
          [discriminate | intros v s' ->; reflexivity]
       | eapply does_seq;
           [apply does_memoize | apply (batch_appends_does _ _ _ H (le_n _))]]].
  intros s s' ->. eexists. split; [reflexivity |].
  eexists. split; [split; [reflexivity | now exists s] |].
  now exists [], s.
Qed.

Lemma set_pairs_interleave (items d : list (string * pyobj)) :
  set_pairs (interleave items) d = Some (update_attrs items d).
Proof.
  revert d. induction items as [| [k o] items IH]; intros d; [reflexivity |].
  cbn [interleave flat_map app set_pairs fst snd]. apply IH.
Qed.

Lemma does_all_items (identity : nat -> option nat)
    (kws : list (string * writer)) (items : list (string * pyobj)) :
  Forall2 saves_item kws items ->
  does (all_w (map (fun kw => save_str identity (fst kw) +> snd kw) kws))
       (fun s s' => s' = (rev (interleave items) ++ s)%list).
Proof.
  induction 1 as [| [k w] [k' o] kws items [Hk Hw] _ IH]; cbn [map all_w].
  - apply does_nil.
  - cbn [fst snd] in *. subst k'.
    eapply does_weaken;
      [| eapply does_seq; [eapply does_seq; [apply saves_str | exact Hw] | exact IH]].
    intros s s' ->. exists (o :: PyStr k :: s). split.
    + eexists. split; reflexivity.
    + cbn [interleave flat_map app rev fst snd]. fold (interleave items).
      now rewrite <- !app_assoc.
Qed.

Lemma setitems_batch_does (identity : nat -> option nat)
    (tmp : list (string * writer)) (items : list (string * pyobj)) :
  Forall2 saves_item tmp items ->
  does (setitems_batch identity tmp) (updates_dict items).
Proof.
  intros H. destruct H as [| [k w] [k' o] tmp items [Hk Hw] H].
  - eapply does_weaken; [| apply does_nil].
    intros s s' (d & r & -> & ->). reflexivity.
  - cbn [fst snd] in *. subst k'. destruct H as [| kw2 ko2 tmp items H2 H].
    + cbn [setitems_batch].
      eapply does_weaken;
        [| eapply does_seq; [apply saves_str | eapply does_seq; [exact Hw |]]].
      2: { apply (does_op SETITEM
                    (fun s s' => exists d r, s = o :: PyStr k :: PyDict d :: r
                                             /\ s' = PyDict (Dict.set k o d) :: r));
             [discriminate |].
           intros v s' (d & r & Hs & ->). cbn [step]. now rewrite Hs. }
      intros s s' (d & r & -> & ->). eexists. split; [reflexivity |].
      eexists. split; [reflexivity |]. now exists d, r.
    + assert (E : setitems_batch identity ((k, w) :: kw2 :: tmp)
                  = emit [MARK]
                    +> all_w (map (fun kw => save_str identity (fst kw) +> snd kw)
                                  ((k, w) :: kw2 :: tmp))
                    +> emit [SETITEMS]) by reflexivity.
      rewrite E.
      apply (does_marked _ (interleave ((k, o) :: ko2 :: items))); [discriminate | |].
      * apply does_all_items. constructor; [now split |]. constructor; assumption.
      * intros s ms m s' (d & r & -> & ->). cbn [step pop_mark metastack stack memo].
        rewrite rev_involutive, set_pairs_interleave. reflexivity.
Qed.

Lemma update_attrs_app (a b d : list (string * pyobj)) :
  update_attrs (a ++ b) d = update_attrs b (update_attrs a d).
Proof. unfold update_attrs. apply fold_left_app. Qed.

Lemma batch_setitems_does (identity : nat -> option nat) (fuel : nat) :
  forall (kws : list (string * writer)) (items : list (string * pyobj)),
    Forall2 saves_item kws items -> (List.length kws <= fuel)%nat ->
    does (all_w (map (setitems_batch identity) (batches_of fuel kws)))
         (updates_dict items).
Proof.
  assert (Empty : does (all_w []) (updates_dict [])).
  { eapply does_weaken; [| apply does_nil].
    intros s s' (d & r & -> & ->). reflexivity. }
  induction fuel as [| fuel IH]; intros kws items H L.
  - destruct H; [exact Empty | cbn [List.length] in L; lia].
  - destruct H as [| kw ko kws items Hkw H]; [exact Empty |].
    cbn [batches_of map all_w].
    assert (F2 : Forall2 saves_item (kw :: kws) (ko :: items)) by (constructor; assumption).
    destruct (Forall2_firstn_skipn saves_item BATCHSIZE _ _ F2) as [F S].
    eapply does_weaken;
      [| eapply does_seq;
         [apply (setitems_batch_does identity _ _ F)
         | apply (IH _ _ S (length_skipn_batch _ _ _ L))]].
    intros s s' (d & r & -> & ->). eexists. split; [now exists d, r |].
    eexists _, r. split; [reflexivity |].
    now rewrite <- update_attrs_app, firstn_skipn.
Qed.

Lemma contains_absent {V : Type} (k : string) (d : Dict.t V) :
  ~ In k (Dict.keys d) -> Dict.contains k d = false.
Proof.
  unfold Dict.contains, Dict.keys. induction d as [| [k' v] d IH]; intros N; [reflexivity |].
  cbn [Dict.get]. destruct (String.eqb_spec k k') as [-> | _].
  - elim N. now left.
  - apply IH. intros I. apply N. now right.
Qed.

Lemma update_attrs_fresh (items : list (string * pyobj)) :
  forall d : list (string * pyobj),
    NoDup (map fst items) ->
    (forall k, In k (map fst items) -> ~ In k (map fst d)) ->
    update_attrs items d = (d ++ items)%list.
Proof.
  induction items as [| [k o] items IH]; intros d N F.
  - cbn. now rewrite app_nil_r.
  - inversion N as [| ? ? Nk N']; subst.
    change (update_attrs ((k, o) :: items) d) with (update_attrs items (Dict.set k o d)).
    rewrite (dict_set_absent k o d) by (apply contains_absent, F; now left).
    rewrite IH; [now rewrite <- app_assoc | exact N' |].
    intros k' I. rewrite map_app, in_app_iff. intros [I' | [<- | []]].
    + apply (F k'); [now right | exact I'].
    + exact (Nk I).
Qed.

Lemma saves_dict (identity : nat -> option nat)
    (kws : list (string * writer)) (items : list (string * pyobj)) :
  Forall2 saves_item kws items ->
  NoDup (map fst items) ->
  saves (save_dict identity kws) (PyDict items).
Proof.
  intros H N. unfold saves, save_dict, batch_setitems, batches.
  eapply does_weaken;
    [| eapply does_seq;
       [apply (does_op EMPTY_DICT (fun s s' => s' = PyDict [] :: s));
          [discriminate | intros v s' ->; reflexivity]
       | eapply does_seq;
           [apply does_memoize
           | apply (batch_setitems_does identity _ _ _ H (le_n _))]]].
  intros s s' ->. eexists. split; [reflexivity |].
  eexists. split; [split; [reflexivity | now exists s] |].
  exists [], s. split; [reflexivity |].
  rewrite update_attrs_fresh; [reflexivity | exact N | intros k _ []].
Qed.

(** The state of a valid [datetime] is read back as that [datetime]. *)

Lemma byte_roundtrip (z : Z) : 0 <= z < 256 -> Z_of_byte (byte_of_Z z) = z.
Proof.
  intros H. unfold Z_of_byte, byte_of_Z.
  destruct (Byte.of_N (Z.to_N z)) as [b |] eqn:E.
  - apply Byte.to_of_N in E. rewrite E. lia.
  - apply Byte.of_N_None_iff in E. lia.
Qed.

Lemma land_127 (m : Z) : 0 <= m < 128 -> Z.land m 127 = m.
Proof.
  intros H. change 127 with (Z.ones 7).
  rewrite Z.land_ones by lia. apply Z.mod_small. exact H.
Qed.

Lemma days_in_month_le_31 (y m : Z) : Datetime.days_in_month y m <= 31.
Proof.
  unfold Datetime.days_in_month.
  destruct (m =? 2); [destruct (Datetime.is_leap y); lia |].
  destruct ((m =? 4) || (m =? 6) || (m =? 9) || (m =? 11)); lia.
Qed.

Lemma setstate_getstate (t : Datetime.datetime) :
  Datetime.valid t = true -> setstate (getstate t) = Some t.
Proof.
  destruct t as [y mo d h mi s us].
  unfold Datetime.valid, Datetime.valid_date, Datetime.valid_time.
  cbn [Datetime.year Datetime.month Datetime.day Datetime.hour Datetime.minute
       Datetime.second Datetime.microsecond].
  intros H. repeat (apply andb_true_iff in H as [H ?]).
  pose proof (days_in_month_le_31 y mo).
  repeat match goal with
         | E : (_ <=? _) = true |- _ => apply Z.leb_le in E
         | E : (_ <? _) = true |- _ => apply Z.ltb_lt in E
         end.
  unfold setstate, getstate.
  cbn [Datetime.year Datetime.month Datetime.day Datetime.hour Datetime.minute
       Datetime.second Datetime.microsecond].
  rewrite map_map. cbn [map].
  rewrite !byte_roundtrip by (Z.div_mod_to_equations; lia).
  rewrite land_127 by lia.
  destruct (Z.leb_spec 1 mo); [| lia].
  destruct (Z.leb_spec mo 12); [| lia].
  destruct (Z.ltb_spec 127 mo); [lia |].
  cbn [andb]. do 2 f_equal; Z.div_mod_to_equations; lia.
Qed.

Section Saving.
Variable identity : nat -> option nat.

Lemma saves_each (items : list pyobj) :
  Forall (fun x => picklable x -> saves (save identity x) x) items ->
  Forall picklable items ->
  Forall2 saves (map (save identity) items) items.
Proof.
  induction 1 as [| x items Hx _ IH]; intros Hp; [constructor |].
  inversion Hp; subst. constructor; auto.
Qed.

Lemma saves_each_item (items : list (string * pyobj)) :
  Forall (fun kv => picklable (snd kv) -> saves (save identity (snd kv)) (snd kv)) items ->
  Forall (fun kv => picklable (snd kv)) items ->
  Forall2 saves_item (map (fun kv => (fst kv, save identity (snd kv))) items) items.
Proof.
  induction 1 as [| x items Hx _ IH]; intros Hp; [constructor |].
  inversion Hp; subst. constructor; [split; auto | auto].
Qed.

Lemma saves_tuple (items : list pyobj) :
  Forall2 saves (map (save identity) items) items ->
  saves (save_tuple (PyTuple items) (map (save identity) items)) (PyTuple items).
Proof.
  intros F. pose proof (does_all _ _ F) as A.
  destruct items as [| a [| b [| c [| d rest]]]]; cbn [map save_tuple] in *.
  - apply does_op; [discriminate | intros v s' ->; reflexivity].
  - eapply does_weaken; [| eapply does_seq; [exact A | eapply does_seq; [| apply does_memoize]]].
    2: { apply (does_op TUPLE1 (fun s s' => exists r, s = a :: r /\ s' = PyTuple [a] :: r));
           [discriminate |].
         intros v s' (r & Hs & ->). cbn [step]. now rewrite Hs. }
    intros s s' ->. eexists. split; [reflexivity |].
    eexists. split; [now exists s |]. split; [reflexivity | now eexists].
  - eapply does_weaken; [| eapply does_seq; [exact A | eapply does_seq; [| apply does_memoize]]].
    2: { apply (does_op TUPLE2
                  (fun s s' => exists r, s = b :: a :: r /\ s' = PyTuple [a; b] :: r));
           [discriminate |].
         intros v s' (r & Hs & ->). cbn [step]. now rewrite Hs. }
    intros s s' ->. eexists. split; [reflexivity |].
    eexists. split; [now exists s |]. split; [reflexivity | now eexists].
  - eapply does_weaken; [| eapply does_seq; [exact A | eapply does_seq; [| apply does_memoize]]].
    2: { apply (does_op TUPLE3
                  (fun s s' => exists r, s = c :: b :: a :: r /\ s' = PyTuple [a; b; c] :: r));
           [discriminate |].
         intros v s' (r & Hs & ->). cbn [step]. now rewrite Hs. }
    intros s s' ->. eexists. split; [reflexivity |].
    eexists. split; [now exists s |]. split; [reflexivity | now eexists].
  - apply saves_then_memoize.
    apply (does_marked _ (a :: b :: c :: d :: rest)); [discriminate | exact A |].
    intros s ms m s' ->. cbn [step pop_mark metastack stack memo].
    now rewrite rev_involutive.
Qed.

Lemma saves_instance (modname name : string) (attrs : list (string * pyobj)) :
  Forall2 saves_item (map (fun kv => (fst kv, save identity (snd kv))) attrs) attrs ->
  NoDup (map fst attrs) ->
  saves (save identity (PyInstance modname name attrs)) (PyInstance modname name attrs).
Proof.
  intros F N. cbn [save].
  pose (R_args := fun s s' : list pyobj => s' = PyTuple [] :: s).
  pose (R_new := fun s s' : list pyobj =>
                   exists r, s = PyTuple [] :: PyClass modname name :: r
                             /\ s' = PyInstance modname name [] :: r).
  assert (Args : does (emit [EMPTY_TUPLE]) R_args)
    by (apply does_op; [discriminate | intros v s' ->; reflexivity]).
  assert (New : does (emit [NEWOBJ]) R_new).
  { apply does_op; [discriminate |].
    intros v s' (r & Hs & ->). cbn [step]. now rewrite Hs. }
  destruct attrs as [| kv attrs].
  - eapply does_weaken;
      [| eapply does_seq; [apply saves_global |
         eapply does_seq; [exact Args |
         eapply does_seq; [exact New |
         eapply does_seq; [apply does_memoize | apply does_nil]]]]].
    intros s s' ->.
    exists (PyClass modname name :: s). split; [reflexivity |].
    exists (PyTuple [] :: PyClass modname name :: s). split; [reflexivity |].
    exists (PyInstance modname name [] :: s). split; [now exists s |].
    exists (PyInstance modname name [] :: s).
    split; [split; [reflexivity | now eexists] | reflexivity].
  - pose (R_build := fun s s' : list pyobj =>
                       exists r, s = PyDict (kv :: attrs) :: PyInstance modname name [] :: r
                                 /\ s' = PyInstance modname name (kv :: attrs) :: r).
    assert (Build : does (emit [BUILD]) R_build).
    { apply does_op; [discriminate |].
      intros v s' (r & Hs & ->). cbn [step]. rewrite Hs.
      rewrite update_attrs_fresh; [reflexivity | exact N | intros k _ []]. }
    eapply does_weaken;
      [| eapply does_seq; [apply saves_global |
         eapply does_seq; [exact Args |
         eapply does_seq; [exact New |
         eapply does_seq; [apply does_memoize |
         eapply does_seq; [apply (saves_dict identity _ _ F N) | exact Build]]]]]].
    intros s s' ->.
    exists (PyClass modname name :: s). split; [reflexivity |].
    exists (PyTuple [] :: PyClass modname name :: s). split; [reflexivity |].
    exists (PyInstance modname name [] :: s). split; [now exists s |].
    exists (PyInstance modname name [] :: s).
    split; [split; [reflexivity | now eexists] |].
    exists (PyDict (kv :: attrs) :: PyInstance modname name [] :: s).
    split; [reflexivity | now exists s].
Qed.

Lemma saves_datetime (t : Datetime.datetime) :
  Datetime.valid t = true ->
  saves (save identity (PyDatetime t)) (PyDatetime t).
Proof.
  intros V. cbn [save].
  pose (R_bytes := fun s s' : list pyobj => s' = PyBytes (getstate t) :: s).
  pose (R_tuple := fun s s' : list pyobj =>
                     exists r, s = PyBytes (getstate t) :: r
                               /\ s' = PyTuple [PyBytes (getstate t)] :: r).
  pose (R_reduce := fun s s' : list pyobj =>
                      exists r, s = PyTuple [PyBytes (getstate t)]
                                    :: PyClass "datetime" "datetime" :: r
                                /\ s' = PyDatetime t :: r).
  assert (Bytes : does (emit [BYTES (getstate t)]) R_bytes)
    by (apply does_op; [discriminate | intros v s' ->; reflexivity]).
  assert (Tuple : does (emit [TUPLE1]) R_tuple).
  { apply does_op; [discriminate |].
    intros v s' (r & Hs & ->). cbn [step]. now rewrite Hs. }
  assert (Reduce : does (emit [REDUCE]) R_reduce).
  { apply does_op; [discriminate |].
    intros v s' (r & Hs & ->). cbn [step]. rewrite Hs.
    change (String.eqb "datetime" "datetime") with true. cbn [andb].
    now rewrite (setstate_getstate t V). }
  eapply does_weaken;
    [| eapply does_seq; [apply saves_global |
       eapply does_seq;
         [eapply does_seq; [exact Bytes |
          eapply does_seq; [apply does_memoize |
          eapply does_seq; [exact Tuple | apply does_memoize]]]
         | eapply does_seq; [exact Reduce | apply does_memoize]]]].
  intros s s' ->.
  exists (PyClass "datetime" "datetime" :: s). split; [reflexivity |].
  exists (PyTuple [PyBytes (getstate t)] :: PyClass "datetime" "datetime" :: s). split.
  - exists (PyBytes (getstate t) :: PyClass "datetime" "datetime" :: s).
    split; [reflexivity |].
    exists (PyBytes (getstate t) :: PyClass "datetime" "datetime" :: s).
    split; [split; [reflexivity | now eexists] |].
    exists (PyTuple [PyBytes (getstate t)] :: PyClass "datetime" "datetime" :: s).
    split; [now eexists | split; [reflexivity | now eexists]].
  - exists (PyDatetime t :: s). split; [now exists s |].
    split; [reflexivity | now eexists].
Qed.

(** What [save] writes for a picklable value makes the unpickler push
    that value. *)
Lemma saves_picklable (o : pyobj) : picklable o -> saves (save identity o) o.
Proof.
  apply (pyobj_induction (fun o => picklable o -> saves (save identity o) o)).
  - intros _. apply does_op; [discriminate | intros v s' ->; reflexivity].
  - intros s _. apply saves_str.
  - intros b _. cbn [save]. apply saves_op_memoize; [discriminate | reflexivity].
  - intros items IH Hp. inversion Hp; subst. cbn [save].
    apply saves_tuple. now apply saves_each.
  - intros items IH Hp. inversion Hp; subst. cbn [save].
    apply saves_list. now apply saves_each.
  - intros items IH Hp. inversion Hp; subst. cbn [save].
    apply saves_dict; [now apply saves_each_item | assumption].
  - intros modname name _. apply saves_global.
  - intros modname name attrs IH Hp. inversion Hp; subst.
    apply saves_instance; [now apply saves_each_item | assumption].
  - intros t Hp. inversion Hp; subst. now apply saves_datetime.
Qed.

(** [pickle.load] gives back what [pickle.dump] was given. *)
Lemma loads_dumps (o : pyobj) : picklable o -> loads (dumps identity o) = Some o.
Proof.
  intros H. unfold loads, dumps.
  rewrite exec_cons by discriminate. cbn [step].
  change ((0 <=? 4) && (4 <=? 5)) with true. cbv iota.
  now rewrite (saves_picklable o H (mk_pstate [] O) (mk_vm [] [] []) [STOP]
                 (o :: []) eq_refl eq_refl).
Qed.

End Saving.

End PickleFacts.

(** ** Persistence: the data as objects, and the round trip *)

Section Persistence.
Import Pickle.

Lemma field_obj_picklable (cls : string) (v : pyobj) :
  "_Field__value" <> "_" ++ cls ++ "__value" ->
  picklable v -> picklable (AddressBook.field_obj cls v).
Proof.
  intros D Hv. unfold AddressBook.field_obj. apply pk_instance.
  - cbn [map fst]. constructor; [intros [E | []]; now apply D |].
    constructor; [intros [] | constructor].
  - repeat constructor. exact Hv.
Qed.

Lemma obj_field_field_obj (cls : string) (v : pyobj) :
  AddressBook.obj_field cls (AddressBook.field_obj cls v) = Some v.
Proof.
  unfold AddressBook.obj_field, AddressBook.field_obj.
  now rewrite !String.eqb_refl.
Qed.

Lemma name_obj_picklable (n : Name.t) : picklable (AddressBook.name_obj n).
Proof. apply field_obj_picklable; [discriminate | constructor]. Qed.

Lemma phone_obj_picklable (p : Phone.t) : picklable (AddressBook.phone_obj p).
Proof. apply field_obj_picklable; [discriminate | constructor]. Qed.

Lemma email_obj_picklable (e : Email.t) : picklable (AddressBook.email_obj e).
Proof. apply field_obj_picklable; [discriminate | constructor]. Qed.

Lemma birthday_obj_picklable (b : Birthday.t) :
  Datetime.valid (Birthday.value b) = true -> picklable (AddressBook.birthday_obj b).
Proof. intros V. apply field_obj_picklable; [discriminate | now constructor]. Qed.

Lemma record_obj_picklable (r : Rec.t) :
  AddressBook.birthday_valid r -> picklable (AddressBook.record_obj r).
Proof.
  intros V. unfold AddressBook.record_obj. apply pk_instance.
  - cbn [map fst]. repeat constructor; cbn [In]; intuition discriminate.
  - constructor; [apply name_obj_picklable |].
    constructor.
    { cbn [snd]. apply pk_list. induction (Rec.phones r) as [| p ps IH]; cbn [map].
      - constructor.
      - constructor; [apply phone_obj_picklable | exact IH]. }
    constructor.
    { cbn [snd]. unfold AddressBook.birthday_valid in V.
      destruct (Rec.birthday r) as [b |]; cbn [AddressBook.opt_obj].
      - now apply birthday_obj_picklable.
      - constructor. }
    constructor; [| constructor].
    cbn [snd]. destruct (Rec.email r) as [e |]; cbn [AddressBook.opt_obj].
    + apply email_obj_picklable.
    + constructor.
Qed.

Lemma data_obj_picklable (data : AddressBook.t) :
  AddressBook.well_formed data -> picklable (AddressBook.data_obj data).
Proof.
  intros [N V]. unfold AddressBook.data_obj. apply pk_dict.
  - rewrite map_map. cbn [fst]. exact N.
  - unfold Dict.values in V. rewrite Forall_map in *.
    revert V. apply Forall_impl. intros [k r] H. cbn [snd] in *.
    now apply record_obj_picklable.
Qed.

Lemma obj_name_name_obj (n : Name.t) :
  AddressBook.obj_name (AddressBook.name_obj n) = Some n.
Proof.
  unfold AddressBook.obj_name, AddressBook.name_obj.
  rewrite obj_field_field_obj. now destruct n.
Qed.

Lemma obj_phone_phone_obj (p : Phone.t) :
  AddressBook.obj_phone (AddressBook.phone_obj p) = Some p.
Proof.
  unfold AddressBook.obj_phone, AddressBook.phone_obj.
  rewrite obj_field_field_obj. now destruct p.
Qed.

Lemma obj_email_email_obj (e : Email.t) :
  AddressBook.obj_email (AddressBook.email_obj e) = Some e.
Proof.
  unfold AddressBook.obj_email, AddressBook.email_obj.
  rewrite obj_field_field_obj. now destruct e.
Qed.

Lemma obj_birthday_birthday_obj (b : Birthday.t) :
  AddressBook.obj_birthday (AddressBook.birthday_obj b) = Some b.
Proof.
  unfold AddressBook.obj_birthday, AddressBook.birthday_obj.
  rewrite obj_field_field_obj. now destruct b.
Qed.

Lemma obj_all_map {A B : Type} (f : B -> option A) (g : A -> B) (l : list A) :
  (forall x, f (g x) = Some x) -> AddressBook.obj_all f (map g l) = Some l.
Proof.
  intros H. induction l as [| x l IH]; [reflexivity |].
  cbn [map AddressBook.obj_all]. now rewrite H, IH.
Qed.

Lemma obj_opt_birthday (o : option Birthday.t) :
  AddressBook.obj_opt AddressBook.obj_birthday
    (AddressBook.opt_obj AddressBook.birthday_obj o) = Some o.
Proof.
  destruct o as [b |]; [| reflexivity]. cbn [AddressBook.opt_obj].
  change (AddressBook.obj_opt AddressBook.obj_birthday (AddressBook.birthday_obj b))
    with (option_map Some (AddressBook.obj_birthday (AddressBook.birthday_obj b))).
  now rewrite obj_birthday_birthday_obj.
Qed.

Lemma obj_opt_email (o : option Email.t) :
  AddressBook.obj_opt AddressBook.obj_email
    (AddressBook.opt_obj AddressBook.email_obj o) = Some o.
Proof.
  destruct o as [e |]; [| reflexivity]. cbn [AddressBook.opt_obj].
  change (AddressBook.obj_opt AddressBook.obj_email (AddressBook.email_obj e))
    with (option_map Some (AddressBook.obj_email (AddressBook.email_obj e))).
  now rewrite obj_email_email_obj.
Qed.

Lemma obj_record_record_obj (r : Rec.t) :
  AddressBook.obj_record (AddressBook.record_obj r) = Some r.
Proof.
  unfold AddressBook.obj_record, AddressBook.record_obj.
  rewrite !String.eqb_refl. cbn [andb].
  rewrite obj_name_name_obj, (obj_all_map _ _ _ obj_phone_phone_obj).
  rewrite obj_opt_birthday, obj_opt_email. now destruct r.
Qed.

Lemma obj_data_data_obj (data : AddressBook.t) :
  AddressBook.obj_data (AddressBook.data_obj data) = Some data.
Proof.
  unfold AddressBook.obj_data, AddressBook.data_obj.
  induction data as [| [k r] data IH]; [reflexivity |].
  cbn [map AddressBook.obj_all fst snd].
  rewrite obj_record_record_obj. cbn [option_map]. now rewrite IH.
Qed.

End Persistence.

(** C7. For every store whose keys are distinct and whose birthdays are
    valid dates (what Python guarantees of a dict and of [datetime]
    objects), and whatever objects the pickler finds shared, saving to a
    file and loading that file, into a book holding anything, succeeds and
    leaves the book with records, the saved ones: the same contact names in the
    same order, and under each name a record with the same phones in
    order, the same e-mail and the same birthday. *)
Theorem load_after_save_restores
    (identity : nat -> option nat) (filename : string)
    (data : AddressBook.t) (stale : AddressBook.contents) (fs : AddressBook.files) :
  NoDup (Dict.keys data) ->
  Forall AddressBook.birthday_valid (Dict.values data) ->
  exists (fs' : AddressBook.files) (loaded : AddressBook.t),
    run (AddressBook.save_to_file identity filename) (data, fs) = (Ok tt, (data, fs'))
    /\ run (AddressBook.load_from_file filename) (stale, fs')
       = (Ok tt, (AddressBook.Records loaded, fs'))
    /\ loaded = data
    /\ Dict.keys loaded = Dict.keys data
    /\ (forall (k : string) (r : Rec.t),
          Dict.get k data = Some r ->
          exists r' : Rec.t,
            Dict.get k loaded = Some r'
            /\ Rec.phones r' = Rec.phones r
            /\ Rec.email r' = Rec.email r
            /\ Rec.birthday r' = Rec.birthday r).
Proof.
  intros N V.
  exists (AddressBook.write_file filename
            (Pickle.dumps identity (AddressBook.data_obj data)) fs), data.
  split; [reflexivity |]. split.
  - unfold run, AddressBook.load_from_file, AddressBook.write_file.
    rewrite String.eqb_refl.
    rewrite (loads_dumps identity _ (data_obj_picklable data (conj N V))).
    now rewrite obj_data_data_obj.
  - split; [reflexivity |]. split; [reflexivity |].
    intros k r H. exists r. now repeat split.
Qed.

Lemma load_after_save_restores_witness :
  exists fs' : AddressBook.files,
    run (AddressBook.save_to_file (fun _ => None) "phonebook.bin") (sample_book, no_files)
    = (Ok tt, (sample_book, fs'))
    /\ run (AddressBook.load_from_file "phonebook.bin") (AddressBook.Records [], fs')
       = (Ok tt, (AddressBook.Records sample_book, fs')).
Proof.
  assert (N : NoDup (Dict.keys sample_book)).
  { constructor; [intros [E | []]; discriminate E |].
    constructor; [intros [] | constructor]. }
  assert (V : Forall AddressBook.birthday_valid (Dict.values sample_book)).
  { constructor; [reflexivity |]. constructor; [exact I | constructor]. }
  destruct (load_after_save_restores (fun _ => None) "phonebook.bin"
              sample_book (AddressBook.Records []) no_files N V)
    as (fs' & loaded & S & L & E & _).
  exists fs'. split; [exact S |]. now rewrite <- E.
Defined.

(** * Further properties of the code *)

(** ** [Name] and [Phone] *)

Lemma forallb_existsb_negb (p : ascii -> bool) (s : string) :
  Str.existsb (fun c => negb (p c)) s = true -> Str.forallb p s = false.
Proof. apply forallb_false_existsb. Qed.

(** A name of at least three characters, one of which is not numeric, is
    accepted and stored unchanged; a name that is numeric throughout, or
    shorter than three characters, is refused with [ValueError]. *)
Theorem name_new_accepts_unchanged (v : string) :
  (3 <= Str.len v ->
   Str.existsb (fun c => negb (Str.char_isnumeric c)) v = true ->
   Name.new v = Ok (Name.mk v))
  /\ (Str.isnumeric v = true \/ Str.len v < 3 -> Name.new v = Raise ValueError)
  /\ (forall n, Name.new v = Ok n -> Name.value n = v /\ 3 <= Str.len v).
Proof.
  unfold Name.new. split; [| split].
  - intros L E. unfold Str.isnumeric.
    rewrite (forallb_existsb_negb _ _ E), andb_false_r.
    destruct (Z.ltb_spec (Str.len v) 3); [lia | reflexivity].
  - intros [H | H].
    + now rewrite H.
    + destruct (Z.ltb_spec (Str.len v) 3); [| lia]. now rewrite orb_true_r.
  - intros n. destruct (Str.isnumeric v); [discriminate |].
    destruct (Z.ltb_spec (Str.len v) 3) as [L | L]; [discriminate |].
    cbn [orb negb]. intros E. injection E as <-. now split.
Qed.

Lemma name_new_accepts_unchanged_witness :
  Name.new "R2D2" = Ok (Name.mk "R2D2") /\ Name.new "12" = Raise ValueError.
Proof.
  split.
  - apply (name_new_accepts_unchanged "R2D2"); [vm_compute; discriminate | reflexivity].
  - apply (name_new_accepts_unchanged "12"). left. reflexivity.
Defined.

(** Every phone the constructor yields holds 5 to 17 decimal digits, and
    parsing the stored value again yields the same phone. *)
Theorem phone_new_yields_digits (v : string) (p : Phone.t) :
  Phone.new v = Ok p ->
  Str.forallb Str.char_isdecimal (Phone.value p) = true
  /\ 5 <= Str.len (Phone.value p) <= 17
  /\ Phone.value p = Phone.normalize v
  /\ Phone.new (Phone.value p) = Ok p.
Proof.
  rewrite new_of_normalized.
  destruct (Str.isdecimal (Phone.normalize v)) eqn:D; [| discriminate].
  destruct (Z.leb_spec 5 (Str.len (Phone.normalize v))) as [L5 | L5]; [| discriminate].
  destruct (Z.leb_spec (Str.len (Phone.normalize v)) 17) as [L17 | L17]; [| discriminate].
  cbn [andb]. intros E. injection E as <-. cbn [Phone.value].
  assert (F : Str.forallb Str.char_isdecimal (Phone.normalize v) = true)
    by (unfold Str.isdecimal in D; now apply andb_true_iff in D).
  repeat split; try assumption.
  rewrite new_of_normalized, (normalize_digits _ F), D.
  destruct (Z.leb_spec 5 (Str.len (Phone.normalize v))); [| lia].
  destruct (Z.leb_spec (Str.len (Phone.normalize v)) 17); [reflexivity | lia].
Qed.

Lemma phone_new_yields_digits_witness :
  Phone.new "380501234567" = Ok (Phone.mk "380501234567").
Proof.
  exact (proj2 (proj2 (proj2
           (phone_new_yields_digits "+38(050)123-45-67" (Phone.mk "380501234567")
              eq_refl)))).
Defined.

Lemma phone_char_not_space (c : ascii) : phone_char c = true -> Str.char_isspace c = false.
Proof. by_cases_on_char c. Qed.

Lemma phone_char_not_plus (c : ascii) : phone_char c = true -> Ascii.eqb "+" c = false.
Proof. by_cases_on_char c. Qed.

Lemma lstrip_no_space (s : string) :
  Str.forallb (fun c => negb (Str.char_isspace c)) s = true -> Str.lstrip s = s.
Proof.
  destruct s as [| c s]; [reflexivity |]. intros H.
  apply forallb_cons in H as [Hc _]. apply negb_true_iff in Hc.
  cbn [Str.lstrip]. now rewrite Hc.
Qed.

Lemma rstrip_no_space (s : string) :
  Str.forallb (fun c => negb (Str.char_isspace c)) s = true -> Str.rstrip s = s.
Proof.
  induction s as [| c s IH]; [reflexivity |]. intros H.
  apply forallb_cons in H as [Hc Hs]. apply negb_true_iff in Hc.
  cbn [Str.rstrip]. now rewrite (IH Hs), Hc, andb_false_r.
Qed.

Lemma replace_chain_keeps_digits (s : string) :
  Str.forallb phone_char s = true ->
  Str.replace "-" EmptyString
    (Str.replace ")" EmptyString (Str.replace "(" EmptyString s))
  = keep_digits s.
Proof.
  induction s as [| c s IH]; [reflexivity |]. intros H.
  apply forallb_cons in H as [Hc Hs]. specialize (IH Hs).
  cbn [Str.replace keep_digits].
  destruct (Ascii.eqb_spec c "(") as [-> | N1]; [exact IH |].
  cbn [Str.replace].
  destruct (Ascii.eqb_spec c ")") as [-> | N2]; [exact IH |].
  cbn [Str.replace].
  destruct (Ascii.eqb_spec c "-") as [-> | N3]; [exact IH |].
  unfold phone_char in Hc.
  destruct (Str.char_isdecimal c).
  - now rewrite IH.
  - cbn [orb] in Hc.
    destruct (Ascii.eqb_spec c "("); [contradiction |].
    destruct (Ascii.eqb_spec c ")"); [contradiction |].
    destruct (Ascii.eqb_spec c "-"); [contradiction | discriminate].
Qed.

Lemma keep_digits_are_digits (s : string) :
  Str.forallb Str.char_isdecimal (keep_digits s) = true.
Proof.
  induction s as [| c s IH]; [reflexivity |]. cbn [keep_digits].
  destruct (Str.char_isdecimal c) eqn:E; [| exact IH].
  cbn [Str.forallb]. now rewrite E, IH.
Qed.

Lemma normalize_phone_chars (s : string) :
  Str.forallb phone_char s = true ->
  Phone.normalize s = keep_digits s /\ Phone.normalize (String "+" s) = keep_digits s.
Proof.
  intros H.
  assert (NS : Str.forallb (fun c => negb (Str.char_isspace c)) s = true).
  { apply (forallb_impl phone_char); [| exact H].
    intros c Hc. now rewrite (phone_char_not_space c Hc). }
  unfold Phone.normalize. split.
  - unfold Str.strip. rewrite (lstrip_no_space s NS), (rstrip_no_space s NS).
    replace (Str.removeprefix "+" s) with s; [now apply replace_chain_keeps_digits |].
    unfold Str.removeprefix. destruct s as [| c s]; [reflexivity |].
    apply forallb_cons in H as [Hc _]. cbn [Str.startswith].
    now rewrite (phone_char_not_plus c Hc).
  - unfold Str.strip. cbn [Str.lstrip].
    change (Str.char_isspace "+") with false. cbv iota.
    cbn [Str.rstrip]. rewrite (rstrip_no_space s NS).
    change (Str.char_isspace "+") with false. rewrite andb_false_r.
    rewrite removeprefix_plus. now apply replace_chain_keeps_digits.
Qed.

(** Parentheses and hyphens count for nothing, wherever they stand, and
    neither does one leading plus: a text made of digits, parentheses and
    hyphens parses as its digits alone do, with or without the plus; it is
    accepted exactly when it holds 5 to 17 digits. *)
Theorem phone_new_ignores_punctuation (s : string) :
  Str.forallb phone_char s = true ->
  Phone.new s = Phone.new (keep_digits s)
  /\ Phone.new ("+" ++ s) = Phone.new (keep_digits s)
  /\ (5 <= Str.len (keep_digits s) <= 17 ->
      Phone.new s = Ok (Phone.mk (keep_digits s)))
  /\ (Str.len (keep_digits s) < 5 \/ 17 < Str.len (keep_digits s) ->
      Phone.new s = Raise TypeError).
Proof.
  intros H. destruct (normalize_phone_chars s H) as [N1 N2].
  pose proof (keep_digits_are_digits s) as D.
  change ("+" ++ s) with (String "+" s).
  rewrite !new_of_normalized, N1, N2, (normalize_digits _ D).
  split; [reflexivity |]. split; [reflexivity |]. split.
  - intros L. rewrite (isdecimal_digits _ D) by lia.
    destruct (Z.leb_spec 5 (Str.len (keep_digits s))); [| lia].
    destruct (Z.leb_spec (Str.len (keep_digits s)) 17); [reflexivity | lia].
  - intros L. destruct (Str.isdecimal (keep_digits s)); [| reflexivity].
    destruct (Z.leb_spec 5 (Str.len (keep_digits s))); [| reflexivity].
    destruct (Z.leb_spec (Str.len (keep_digits s)) 17); [lia | reflexivity].
Qed.

Lemma phone_new_ignores_punctuation_witness :
  Phone.new "(050)123-45-67" = Ok (Phone.mk "0501234567").
Proof.
  apply (phone_new_ignores_punctuation "(050)123-45-67"); [reflexivity |].
  vm_compute. split; discriminate.
Defined.

(** ** [Birthday] *)

(** Every birthday the constructor yields is a date of the calendar, at
    midnight. *)
Theorem birthday_new_yields_valid_date (v : string) (b : Birthday.t) :
  Birthday.new v = Ok b ->
  Datetime.valid (Birthday.value b) = true
  /\ Datetime.hour (Birthday.value b) = 0
  /\ Datetime.minute (Birthday.value b) = 0
  /\ Datetime.second (Birthday.value b) = 0
  /\ Datetime.microsecond (Birthday.value b) = 0.
Proof.
  assert (P : forall sep t, Datetime.strptime sep v = Ok t ->
              Datetime.valid t = true /\ Datetime.hour t = 0 /\ Datetime.minute t = 0
              /\ Datetime.second t = 0 /\ Datetime.microsecond t = 0).
  { intros sep t. unfold Datetime.strptime.
    destruct (Datetime.match_format sep v) as [[[[d m] y] rest] |]; [| discriminate].
    destruct (Str.is_empty rest); [| discriminate]. cbn [negb].
    destruct (Datetime.valid_date y m d) eqn:V; [| discriminate].
    intros E. injection E as <-. unfold Datetime.valid.
    cbn [Datetime.year Datetime.month Datetime.day Datetime.hour Datetime.minute
         Datetime.second Datetime.microsecond].
    rewrite V. repeat split. }
  unfold Birthday.new.
  destruct (Datetime.strptime "." v) as [t | e] eqn:E1.
  - intros H. injection H as <-. exact (P _ _ E1).
  - destruct e; try discriminate.
    destruct (Datetime.strptime "/" v) as [t | e] eqn:E2; [| discriminate].
    intros H. injection H as <-. exact (P _ _ E2).
Qed.

Lemma birthday_new_yields_valid_date_witness :
  Datetime.valid (Datetime.mk_datetime 2024 2 29 0 0 0 0) = true.
Proof.
  exact (proj1 (birthday_new_yields_valid_date "29/02/2024"
                  (Birthday.mk (Datetime.mk_datetime 2024 2 29 0 0 0 0)) eq_refl)).
Defined.

Ltac compute_alternatives :=
  match goal with
  | |- context [Datetime.alt_d ?s] =>
      let l := eval cbv in (Datetime.alt_d s) in change (Datetime.alt_d s) with l
  | |- context [Datetime.alt_m ?s] =>
      let l := eval cbv in (Datetime.alt_m s) in change (Datetime.alt_m s) with l
  end.

(** On a two-digit day followed by what is not a digit, the first
    alternative that can go on is the day itself. *)
Lemma first_day_alternative {B : Type} (K : Z * string -> option B) (d : Z)
    (c : ascii) (rest : string) :
  1 <= d <= 31 ->
  (forall z r x, Str.char_isdecimal x = true -> K (z, String x r) = None) ->
  Datetime.first_match K (Datetime.alt_d (Str.pad2 d ++ String c rest))
  = K (d, String c rest).
Proof.
  intros R HK.
  assert (E : d = 1 \/ d = 2 \/ d = 3 \/ d = 4 \/ d = 5 \/ d = 6 \/ d = 7 \/ d = 8 \/ d = 9 \/ d = 10 \/ d = 11 \/ d = 12 \/ d = 13 \/ d = 14 \/ d = 15 \/ d = 16 \/ d = 17 \/ d = 18 \/ d = 19 \/ d = 20 \/ d = 21 \/ d = 22 \/ d = 23 \/ d = 24 \/ d = 25 \/ d = 26 \/ d = 27 \/ d = 28 \/ d = 29 \/ d = 30 \/ d = 31) by lia.
  repeat destruct E as [E | E]; subst d; compute_alternatives;
    cbn [Datetime.first_match];
    repeat match goal with
           | |- context [K (?z, String ?x ?r)] => rewrite (HK z r x eq_refl)
           end;
    destruct (K _); reflexivity.
Qed.

Lemma first_month_alternative {B : Type} (K : Z * string -> option B) (m : Z)
    (c : ascii) (rest : string) :
  1 <= m <= 12 ->
  (forall z r x, Str.char_isdecimal x = true -> K (z, String x r) = None) ->
  Datetime.first_match K (Datetime.alt_m (Str.pad2 m ++ String c rest))
  = K (m, String c rest).
Proof.
  intros R HK.
  assert (E : m = 1 \/ m = 2 \/ m = 3 \/ m = 4 \/ m = 5 \/ m = 6 \/ m = 7 \/ m = 8 \/ m = 9 \/ m = 10 \/ m = 11 \/ m = 12) by lia.
  repeat destruct E as [E | E]; subst m; compute_alternatives;
    cbn [Datetime.first_match];
    repeat match goal with
           | |- context [K (?z, String ?x ?r)] => rewrite (HK z r x eq_refl)
           end;
    destruct (K _); reflexivity.
Qed.

Lemma literal_not_digit (sep x : ascii) (r : string) :
  Str.char_isdecimal sep = false -> Str.char_isdecimal x = true ->
  Datetime.literal sep (String x r) = None.
Proof.
  intros Hs Hx. cbn [Datetime.literal].
  destruct (Ascii.eqb_spec x sep) as [-> | _]; [congruence | reflexivity].
Qed.

Lemma literal_same (sep : ascii) (r : string) :
  Datetime.literal sep (String sep r) = Some r.
Proof. cbn [Datetime.literal]. now rewrite Ascii.eqb_refl. Qed.

Lemma all_from_spec (f : Z -> bool) (n : nat) :
  forall lo : Z,
    all_from f lo n = true ->
    forall z, lo <= z < lo + Z.of_nat n -> f z = true.
Proof.
  induction n as [| n IH]; intros lo H z R; [lia |].
  cbn [all_from] in H. apply andb_true_iff in H as [H0 H1].
  destruct (Z.eq_dec z lo) as [-> | N]; [exact H0 |].
  apply (IH (lo + 1) H1). lia.
Qed.

Lemma year_text (y : Z) :
  1000 <= y <= 9999 -> Datetime.group_Y (Str.of_int y) = Some (y, EmptyString).
Proof.
  intros R.
  assert (All : all_from year_reads_back 1000 (Z.to_nat 9000) = true)
    by (vm_compute; reflexivity).
  assert (C : year_reads_back y = true)
    by (apply (all_from_spec _ _ _ All); lia).
  clear All. unfold year_reads_back in C.
  destruct (Datetime.group_Y (Str.of_int y)) as [[y' [| ? ?]] |]; try discriminate.
  apply Z.eqb_eq in C. now subst.
Qed.

(** The format with separator [sep] read on a text written with [c]. *)
Lemma match_format_date_text (sep c : ascii) (y m d : Z) :
  Str.char_isdecimal sep = false ->
  1 <= d <= 31 -> 1 <= m <= 12 -> 1000 <= y <= 9999 ->
  Datetime.match_format sep (date_text c y m d)
  = if Ascii.eqb c sep then Some (d, m, y, EmptyString) else None.
Proof.
  intros Hs Rd Rm Ry. unfold Datetime.match_format, date_text.
  rewrite first_day_alternative; [| exact Rd |].
  2: { intros z r x Hx. now rewrite (literal_not_digit sep x r Hs Hx). }
  cbn [Datetime.literal].
  destruct (Ascii.eqb_spec c sep) as [-> | N]; [| reflexivity].
  rewrite first_month_alternative; [| exact Rm |].
  2: { intros z r x Hx. now rewrite (literal_not_digit sep x r Hs Hx). }
  rewrite literal_same. now rewrite (year_text y Ry).
Qed.

Lemma strptime_date_text (sep c : ascii) (y m d : Z) :
  Str.char_isdecimal sep = false ->
  1 <= d <= 31 -> 1 <= m <= 12 -> 1000 <= y <= 9999 ->
  Datetime.strptime sep (date_text c y m d)
  = if Ascii.eqb c sep && Datetime.valid_date y m d
    then Ok (midnight y m d) else Raise ValueError.
Proof.
  intros Hs Rd Rm Ry. unfold Datetime.strptime.
  rewrite (match_format_date_text sep c y m d Hs Rd Rm Ry).
  destruct (Ascii.eqb c sep); [| reflexivity]. cbn [Str.is_empty negb andb].
  now destruct (Datetime.valid_date y m d).
Qed.

Lemma birthday_new_date_text (y m d : Z) :
  1 <= d <= 31 -> 1 <= m <= 12 -> 1000 <= y <= 9999 ->
  forall c : ascii, c = "."%char \/ c = "/"%char ->
    Birthday.new (date_text c y m d)
    = if Datetime.valid_date y m d
      then Ok (Birthday.mk (midnight y m d)) else Raise ValueError.
Proof.
  intros Rd Rm Ry c Hc. unfold Birthday.new.
  rewrite !strptime_date_text by (reflexivity || assumption).
  destruct Hc as [-> | ->]; cbn [Ascii.eqb Bool.eqb andb];
    now destruct (Datetime.valid_date y m d).
Qed.

Lemma valid_date_ranges (y m d : Z) :
  Datetime.valid_date y m d = true -> 1 <= d <= 31 /\ 1 <= m <= 12 /\ 1 <= y <= 9999.
Proof.
  unfold Datetime.valid_date. intros H.
  repeat (apply andb_true_iff in H as [H ?]).
  pose proof (days_in_month_le_31 y m).
  repeat match goal with
         | E : (_ <=? _) = true |- _ => apply Z.leb_le in E
         end.
  lia.
Qed.

(** A date of the calendar with a four-digit year, written with day and
    month on two digits, is read back as that date at midnight, whether
    written with dots or with slashes; in particular a birthday printed by
    [str] and parsed again is the same birthday. *)
Theorem birthday_text_round_trip (y m d : Z) :
  Datetime.valid_date y m d = true ->
  1000 <= y ->
  Birthday.new (date_text "." y m d) = Ok (Birthday.mk (midnight y m d))
  /\ Birthday.new (date_text "/" y m d) = Ok (Birthday.mk (midnight y m d))
  /\ Birthday.new (Birthday.str (Birthday.mk (midnight y m d)))
     = Ok (Birthday.mk (midnight y m d)).
Proof.
  intros V Y. destruct (valid_date_ranges y m d V) as (Rd & Rm & Ry).
  assert (D : Birthday.new (date_text "." y m d) = Ok (Birthday.mk (midnight y m d))).
  { rewrite (birthday_new_date_text y m d) by (lia || now left). now rewrite V. }
  split; [exact D |]. split; [| exact D].
  rewrite (birthday_new_date_text y m d) by (lia || now right). now rewrite V.
Qed.

Lemma birthday_text_round_trip_witness :
  Birthday.new "29/02/2024" = Ok (Birthday.mk (midnight 2024 2 29)).
Proof.
  exact (proj1 (proj2 (birthday_text_round_trip 2024 2 29 eq_refl ltac:(lia)))).
Defined.

(** A well-formed text (day 01 to 31, month 01 to 12, four-digit year)
    that names no date of the calendar, such as the 31st of April or the
    29th of February of a common year, is refused with [ValueError] in
    both formats. *)
Theorem birthday_new_rejects_impossible_date (y m d : Z) :
  1 <= d <= 31 -> 1 <= m <= 12 -> 1000 <= y <= 9999 ->
  Datetime.valid_date y m d = false ->
  Birthday.new (date_text "." y m d) = Raise ValueError
  /\ Birthday.new (date_text "/" y m d) = Raise ValueError.
Proof.
  intros Rd Rm Ry V.
  rewrite !(birthday_new_date_text y m d) by (assumption || (now left) || (now right)).
  now rewrite V.
Qed.

Lemma birthday_new_rejects_impossible_date_witness :
  Birthday.new "31.04.2023" = Raise ValueError
  /\ Birthday.new "29/02/2023" = Raise ValueError.
Proof.
  split.
  - apply (birthday_new_rejects_impossible_date 2023 4 31); (lia || reflexivity).
  - apply (birthday_new_rejects_impossible_date 2023 2 29); (lia || reflexivity).
Defined.

(** ** [Email] *)

Lemma str_app_nil_r (s : string) : (s ++ EmptyString)%string = s.
Proof. induction s as [| c s IH]; [reflexivity |]. cbn. now rewrite IH. Qed.

Lemma forallb_app (p : ascii -> bool) (a b : string) :
  Str.forallb p (a ++ b) = Str.forallb p a && Str.forallb p b.
Proof.
  induction a as [| c a IH]; [reflexivity |]. cbn [append Str.forallb].
  now rewrite IH, andb_assoc.
Qed.

Lemma str_length_app (a b : string) :
  String.length (a ++ b) = (String.length a + String.length b)%nat.
Proof. induction a as [| c a IH]; [reflexivity |]. cbn. now rewrite IH. Qed.

Lemma plus_spec (cls : ascii -> bool) (k : string -> bool) (s : string) :
  Email.plus cls k s = true <->
  exists a b, s = (a ++ b)%string /\ a <> EmptyString
              /\ Str.forallb cls a = true /\ k b = true.
Proof.
  split.
  - induction s as [| c r IH]; [discriminate |]. cbn [Email.plus].
    intros H. apply andb_true_iff in H as [Hc H]. apply orb_true_iff in H as [H | H].
    + destruct (IH H) as (a & b & -> & _ & Fa & Kb).
      exists (String c a), b. repeat split; [discriminate | | exact Kb].
      cbn [Str.forallb]. now rewrite Hc, Fa.
    + exists (String c EmptyString), r. repeat split; [discriminate | | exact H].
      cbn [Str.forallb]. now rewrite Hc.
  - intros (a & b & -> & Na & Fa & Kb). revert Na Fa.
    induction a as [| c a IH]; intros Na Fa; [now elim Na |].
    apply forallb_cons in Fa as [Hc Fa]. cbn [append Email.plus]. rewrite Hc.
    destruct a as [| c' a'].
    + cbn [append]. now rewrite Kb, orb_true_r.
    + rewrite IH; [reflexivity | discriminate | exact Fa].
Qed.

Lemma star_spec (cls : ascii -> bool) (k : string -> bool) (s : string) :
  Email.star cls k s = true <->
  exists a b, s = (a ++ b)%string /\ Str.forallb cls a = true /\ k b = true.
Proof.
  split.
  - induction s as [| c r IH]; cbn [Email.star].
    + intros H. now exists EmptyString, EmptyString.
    + intros H. apply orb_true_iff in H as [H | H].
      * apply andb_true_iff in H as [Hc H].
        destruct (IH H) as (a & b & -> & Fa & Kb).
        exists (String c a), b. repeat split; [| exact Kb].
        cbn [Str.forallb]. now rewrite Hc, Fa.
      * now exists EmptyString, (String c r).
  - intros (a & b & -> & Fa & Kb). revert Fa.
    induction a as [| c a IH]; intros Fa.
    + cbn [append]. destruct b; cbn [Email.star]; [exact Kb |].
      now rewrite Kb, orb_true_r.
    + apply forallb_cons in Fa as [Hc Fa]. cbn [append Email.star].
      now rewrite Hc, (IH Fa).
Qed.

Lemma exactly_spec (n : nat) (cls : ascii -> bool) (k : string -> bool) (s : string) :
  Email.exactly n cls k s = true <->
  exists a b, s = (a ++ b)%string /\ String.length a = n
              /\ Str.forallb cls a = true /\ k b = true.
Proof.
  revert s. induction n as [| n IH]; intros s; cbn [Email.exactly].
  - split.
    + intros H. now exists EmptyString, s.
    + intros (a & b & -> & L & _ & Kb). destruct a; [exact Kb | discriminate].
  - destruct s as [| c r].
    + split; [discriminate |].
      intros (a & b & E & L & _). destruct a; discriminate.
    + rewrite andb_true_iff, IH. split.
      * intros (Hc & a & b & -> & L & Fa & Kb).
        exists (String c a), b. repeat split; [cbn; now rewrite L | | exact Kb].
        cbn [Str.forallb]. now rewrite Hc, Fa.
      * intros (a & b & E & L & Fa & Kb). destruct a as [| c' a]; [discriminate |].
        cbn [append] in E. injection E as -> ->.
        apply forallb_cons in Fa as [Hc Fa].
        split; [exact Hc |]. exists a, b. repeat split; auto.
Qed.

Lemma lit_spec (ch : ascii) (k : string -> bool) (s : string) :
  Email.lit ch k s = true <-> exists b, s = String ch b /\ k b = true.
Proof.
  destruct s as [| c r]; cbn [Email.lit].
  - split; [discriminate | intros (b & E & _); discriminate].
  - rewrite andb_true_iff. split.
    + intros [E K]. apply Ascii.eqb_eq in E. subst. now exists r.
    + intros (b & E & K). injection E as -> ->. now rewrite Ascii.eqb_refl.
Qed.

Lemma dollar_spec (s : string) :
  Email.dollar s = true <-> s = EmptyString \/ s = Rec.newline.
Proof.
  unfold Rec.newline. destruct s as [| c [| c' r]]; cbn [Email.dollar].
  - split; auto.
  - split.
    + intros E. apply Ascii.eqb_eq in E. subst. now right.
    + intros [E | E]; [discriminate |]. injection E as ->. reflexivity.
  - split; [discriminate | intros [E | E]; discriminate].
Qed.

(** The e-mail pattern accepts exactly the texts made of a non-empty local
    part of letters, digits and [._%+-], an [@], a non-empty domain of
    letters, digits, dots and hyphens, a dot, and at least two letters,
    the whole optionally followed by one line feed; an accepted text is
    stored unchanged, line feed included, and any other text is refused
    with [ValueError]. *)
Theorem email_new_accepts_shape (v : string) :
  (Email.new v = Ok (Email.mk v) <->
   exists l d t e : string,
     v = l ++ "@" ++ d ++ "." ++ t ++ e
     /\ l <> EmptyString /\ Str.forallb Email.local_char l = true
     /\ d <> EmptyString /\ Str.forallb Email.domain_char d = true
     /\ (2 <= String.length t)%nat /\ Str.forallb Email.letter t = true
     /\ (e = EmptyString \/ e = Rec.newline))
  /\ (Email.new v = Ok (Email.mk v) \/ Email.new v = Raise ValueError).
Proof.
  split; [| unfold Email.new; destruct (Email.matches v); auto].
  assert (M : Email.new v = Ok (Email.mk v) <-> Email.matches v = true).
  { unfold Email.new. destruct (Email.matches v); split; congruence. }
  rewrite M. unfold Email.matches. rewrite plus_spec. split.
  - intros (l & b1 & -> & Nl & Fl & K1).
    apply lit_spec in K1 as (b2 & -> & K2).
    apply plus_spec in K2 as (d & b3 & -> & Nd & Fd & K3).
    apply lit_spec in K3 as (b4 & -> & K4).
    apply exactly_spec in K4 as (t2 & b5 & -> & L2 & F2 & K5).
    apply star_spec in K5 as (t3 & e & -> & F3 & K6).
    apply dollar_spec in K6.
    exists l, d, (t2 ++ t3)%string, e. repeat split; auto.
    + cbn [append]. now rewrite str_append_assoc.
    + rewrite str_length_app. lia.
    + now rewrite forallb_app, F2, F3.
  - intros (l & d & t & e & -> & Nl & Fl & Nd & Fd & Lt & Ft & He).
    exists l, ("@" ++ d ++ "." ++ t ++ e)%string. repeat split; auto.
    apply lit_spec. eexists. split; [reflexivity |].
    apply plus_spec. exists d, ("." ++ t ++ e)%string. repeat split; auto.
    apply lit_spec. eexists. split; [reflexivity |].
    apply exactly_spec.
    destruct t as [| c1 [| c2 t]]; cbn [String.length] in Lt; try lia.
    apply forallb_cons in Ft as [H1 Ft]. apply forallb_cons in Ft as [H2 Ft].
    exists (String c1 (String c2 EmptyString)), (t ++ e)%string.
    repeat split; [cbn [Str.forallb]; now rewrite H1, H2 |].
    apply star_spec. exists t, e. repeat split; auto. now apply dollar_spec.
Qed.

Lemma email_new_accepts_shape_witness :
  Email.new "ann.lee@example.com" = Ok (Email.mk "ann.lee@example.com").
Proof.
  apply (proj1 (email_new_accepts_shape "ann.lee@example.com")).
  exists "ann.lee", "example", "com", EmptyString.
  repeat split; try reflexivity; try discriminate; try (cbn; lia). now left.
Defined.

(** ** [Record]: phones by index *)

Lemma pop_at {A : Type} (j : nat) (l : list A) (x : A) :
  nth_error l j = Some x ->
  PyList.pop (Z.of_nat j) l = (Ok x, (firstn j l ++ skipn (S j) l)%list).
Proof.
  intros H. unfold PyList.pop, PyList.len. cbv zeta.
  assert (L : (j < List.length l)%nat) by (apply nth_error_Some; congruence).
  destruct (Z.ltb_spec (Z.of_nat j) 0); [lia |].
  destruct (Z.ltb_spec (Z.of_nat j) 0); [lia |].
  destruct (Z.leb_spec (Z.of_nat (List.length l)) (Z.of_nat j)); [lia |].
  cbn [orb]. now rewrite Nat2Z.id, H.
Qed.

Lemma pop_from_end {A : Type} (i : Z) (l : list A) :
  - PyList.len l <= i < 0 -> PyList.pop i l = PyList.pop (i + PyList.len l) l.
Proof.
  intros H. unfold PyList.pop. cbv zeta.
  destruct (Z.ltb_spec i 0); [| lia].
  destruct (Z.ltb_spec (i + PyList.len l) 0); [lia |].
  destruct (Z.ltb_spec (i + PyList.len l) 0); [lia |].
  destruct (Z.leb_spec (PyList.len l) (i + PyList.len l)); [lia | reflexivity].
Qed.

Lemma insert_at {A : Type} (j : nat) (x : A) (l : list A) :
  (j <= List.length l)%nat ->
  PyList.insert (Z.of_nat j) x l = (Ok tt, (firstn j l ++ x :: skipn j l)%list).
Proof.
  intros H. unfold PyList.insert, PyList.len. cbv zeta.
  destruct (Z.ltb_spec (Z.of_nat j) 0); [lia |].
  destruct (Z.ltb_spec (Z.of_nat j) 0); [lia |].
  destruct (Z.ltb_spec (Z.of_nat (List.length l)) (Z.of_nat j)); [lia |].
  rewrite Z.eqb_refl, andb_false_r. now rewrite Nat2Z.id.
Qed.

Lemma nth_error_in_range {A : Type} (l : list A) (num : Z) :
  1 <= num <= PyList.len l ->
  exists x, nth_error l (Z.to_nat (num - 1)) = Some x.
Proof.
  intros H. unfold PyList.len in H.
  destruct (nth_error l (Z.to_nat (num - 1))) as [x |] eqn:E; [now exists x |].
  apply nth_error_None in E. lia.
Qed.

Lemma set_phones_twice (a b : list Phone.t) (self : Rec.t) :
  Rec.set_phones a (Rec.set_phones b self) = Rec.set_phones a self.
Proof. reflexivity. Qed.

(** With an index from 1 to the number of phones, [edit_phone] succeeds
    and replaces exactly that phone: the list keeps its length, holds the
    new phone at the index, and every other position keeps its phone;
    name, birthday and e-mail are untouched. *)
Theorem edit_phone_replaces_indexed (self : Rec.t) (p : Phone.t) (num : Z) :
  1 <= num <= PyList.len (Rec.phones self) ->
  exists phones' : list Phone.t,
    run (Rec.edit_phone p num) self = (Ok tt, Rec.set_phones phones' self)
    /\ List.length phones' = List.length (Rec.phones self)
    /\ nth_error phones' (Z.to_nat (num - 1)) = Some p
    /\ (forall i, i <> Z.to_nat (num - 1) ->
          nth_error phones' i = nth_error (Rec.phones self) i).
Proof.
  intros R. destruct (nth_error_in_range _ _ R) as [x Hx].
  set (j := Z.to_nat (num - 1)) in *.
  assert (Ej : num - 1 = Z.of_nat j) by (unfold j; lia).
  assert (Lj : (j < List.length (Rec.phones self))%nat)
    by (apply nth_error_Some; congruence).
  exists (firstn j (Rec.phones self) ++ p :: skipn (S j) (Rec.phones self))%list.
  assert (Lf : List.length (firstn j (Rec.phones self)) = j)
    by (rewrite length_firstn; lia).
  split; [| split; [| split]].
  - unfold run, Rec.edit_phone, Rec.on_phones, bind, get.
    destruct (Rec.phones self) as [| y l] eqn:E; [cbn in Lj; lia |].
    rewrite ?E, Ej, (pop_at j (y :: l) x Hx).
    cbn [Rec.phones Rec.set_phones].
    rewrite insert_at by (rewrite length_app, Lf, length_skipn; cbn [List.length] in *; lia).
    rewrite set_phones_twice. do 2 f_equal.
    rewrite firstn_app, Lf, Nat.sub_diag, firstn_O, app_nil_r.
    rewrite firstn_firstn, Nat.min_id.
    rewrite skipn_app, Lf, Nat.sub_diag.
    rewrite (skipn_all2 (firstn j (y :: l))) by lia. reflexivity.
  - rewrite length_app, Lf. cbn [List.length]. rewrite length_skipn. lia.
  - rewrite nth_error_app2 by lia. now rewrite Lf, Nat.sub_diag.
  - intros i Ni. destruct (Nat.lt_ge_cases i j) as [Lt | Ge].
    + rewrite nth_error_app1 by lia. rewrite nth_error_firstn.
      destruct (Nat.ltb_spec i j); [reflexivity | lia].
    + rewrite nth_error_app2 by lia. rewrite Lf.
      destruct (i - j)%nat as [| k] eqn:Ek; [lia |].
      cbn [nth_error]. rewrite nth_error_skipn. f_equal. lia.
Qed.

Lemma edit_phone_replaces_indexed_witness :
  let self := Rec.mk (Name.mk "Ann")
                [Phone.mk "11111"; Phone.mk "22222"; Phone.mk "33333"] None None in
  exists phones' : list Phone.t,
    run (Rec.edit_phone (Phone.mk "99999") 2) self = (Ok tt, Rec.set_phones phones' self)
    /\ List.length phones' = 3%nat
    /\ nth_error phones' 1 = Some (Phone.mk "99999").
Proof.
  intros self.
  destruct (edit_phone_replaces_indexed self (Phone.mk "99999") 2 ltac:(cbn; lia))
    as (phones' & H & L & N & _).
  exists phones'. split; [exact H |]. split; [exact L | exact N].
Defined.

Lemma del_phone_at (self : Rec.t) (num : Z) (x : Phone.t) :
  1 <= num ->
  nth_error (Rec.phones self) (Z.to_nat (num - 1)) = Some x ->
  run (Rec.del_phone num) self
  = (Ok x, Rec.set_phones (firstn (Z.to_nat (num - 1)) (Rec.phones self)
                           ++ skipn (S (Z.to_nat (num - 1))) (Rec.phones self)) self).
Proof.
  intros R Hx.
  set (j := Z.to_nat (num - 1)) in *.
  assert (Ej : num - 1 = Z.of_nat j) by (unfold j; lia).
  unfold run, Rec.del_phone, Rec.on_phones, bind, get.
  destruct (Rec.phones self) as [| y l] eqn:E; [now destruct j |].
  now rewrite ?E, Ej, (pop_at j (y :: l) x Hx).
Qed.

(** With an index from 1 to the number of phones, [del_phone] succeeds,
    returns the phone at that index and removes it alone: the phones
    before it keep their place and those after it move up by one. *)
Theorem del_phone_removes_indexed (self : Rec.t) (num : Z) :
  1 <= num <= PyList.len (Rec.phones self) ->
  exists (x : Phone.t) (phones' : list Phone.t),
    run (Rec.del_phone num) self = (Ok x, Rec.set_phones phones' self)
    /\ nth_error (Rec.phones self) (Z.to_nat (num - 1)) = Some x
    /\ S (List.length phones') = List.length (Rec.phones self)
    /\ (forall i, (i < Z.to_nat (num - 1))%nat ->
          nth_error phones' i = nth_error (Rec.phones self) i)
    /\ (forall i, (Z.to_nat (num - 1) <= i)%nat ->
          nth_error phones' i = nth_error (Rec.phones self) (S i)).
Proof.
  intros R. destruct (nth_error_in_range _ _ R) as [x Hx].
  set (j := Z.to_nat (num - 1)) in *.
  assert (Lj : (j < List.length (Rec.phones self))%nat)
    by (apply nth_error_Some; congruence).
  assert (Lf : List.length (firstn j (Rec.phones self)) = j)
    by (rewrite length_firstn; lia).
  exists x, (firstn j (Rec.phones self) ++ skipn (S j) (Rec.phones self))%list.
  split; [| split; [exact Hx | split; [| split]]].
  - apply del_phone_at; [lia | exact Hx].
  - rewrite length_app, Lf, length_skipn. lia.
  - intros i Lt. rewrite nth_error_app1 by lia. rewrite nth_error_firstn.
    destruct (Nat.ltb_spec i j); [reflexivity | lia].
  - intros i Ge. rewrite nth_error_app2 by lia. rewrite Lf, nth_error_skipn.
    f_equal. lia.
Qed.

Lemma del_phone_removes_indexed_witness :
  let self := Rec.mk (Name.mk "Ann") [Phone.mk "11111"; Phone.mk "22222"] None None in
  exists (x : Phone.t) (phones' : list Phone.t),
    run (Rec.del_phone 1) self = (Ok x, Rec.set_phones phones' self)
    /\ Some (Phone.mk "11111") = Some x
    /\ nth_error phones' 0 = Some (Phone.mk "22222").
Proof.
  intros self.
  destruct (del_phone_removes_indexed self 1 ltac:(cbn; lia))
    as (x & phones' & H & X & _ & _ & A).
  exists x, phones'. split; [exact H |]. split; [exact X |].
  exact (A 0%nat (le_n 0)).
Defined.

(** An index from [1 - n] to 0, on [n] phones, is not refused: it counts
    from the end, and [del_phone] does with it what it does with that
    index plus [n]; index 0 removes the last phone. *)
Theorem del_phone_wraps_around (self : Rec.t) (num : Z) :
  1 - PyList.len (Rec.phones self) <= num <= 0 ->
  run (Rec.del_phone num) self
  = run (Rec.del_phone (num + PyList.len (Rec.phones self))) self
  /\ exists x, fst (run (Rec.del_phone num) self) = Ok x.
Proof.
  intros R.
  assert (E : run (Rec.del_phone num) self
              = run (Rec.del_phone (num + PyList.len (Rec.phones self))) self).
  { unfold run, Rec.del_phone, Rec.on_phones, bind, get.
    destruct (Rec.phones self) as [| y l] eqn:E; [reflexivity |].
    rewrite ?E. rewrite (pop_from_end (num - 1) (y :: l)) by lia.
    now replace (num - 1 + PyList.len (y :: l)) with (num + PyList.len (y :: l) - 1) by lia. }
  split; [exact E |]. rewrite E.
  destruct (nth_error_in_range (Rec.phones self) (num + PyList.len (Rec.phones self)))
    as [x Hx]; [lia |].
  exists x. rewrite (del_phone_at self _ x); [reflexivity | lia | exact Hx].
Qed.

Lemma del_phone_wraps_around_witness :
  exists x,
    fst (run (Rec.del_phone (-1))
           (Rec.mk (Name.mk "Ann") [Phone.mk "11111"; Phone.mk "22222"] None None))
    = Ok x.
Proof.
  exact (proj2 (del_phone_wraps_around
                  (Rec.mk (Name.mk "Ann") [Phone.mk "11111"; Phone.mk "22222"] None None)
                  (-1) ltac:(cbn; lia))).
Defined.

(** [add_phone] never fails and puts the phone last; deleting the last
    index right after gives the phone back and leaves the record as it
    was before the two calls. *)
Theorem add_phone_then_del_last (self : Rec.t) (p : Phone.t) :
  run (Rec.add_phone p) self
  = (Ok tt, Rec.set_phones (Rec.phones self ++ [p]) self)
  /\ run (bind (Rec.add_phone p)
            (fun _ => Rec.del_phone (PyList.len (Rec.phones self) + 1))) self
     = (Ok p, self).
Proof.
  split; [reflexivity |].
  unfold run, bind, Rec.add_phone, Rec.on_phones, PyList.append.
  cbn [Rec.phones Rec.set_phones fst snd].
  unfold Rec.del_phone, Rec.on_phones, bind, get. cbn [Rec.phones Rec.set_phones].
  destruct (Rec.phones self ++ [p])%list as [| y l] eqn:E.
  { destruct (Rec.phones self); discriminate. }
  rewrite <- E.
  replace (PyList.len (Rec.phones self) + 1 - 1)
    with (Z.of_nat (List.length (Rec.phones self))) by (unfold PyList.len; lia).
  rewrite (pop_at (List.length (Rec.phones self)) _ p).
  - change (Rec.phones (Rec.set_phones (Rec.phones self ++ [p]) self))
      with (Rec.phones self ++ [p])%list.
    rewrite firstn_app, Nat.sub_diag, firstn_O, app_nil_r, firstn_all.
    rewrite skipn_all2 by (rewrite length_app; cbn; lia).
    rewrite app_nil_r, set_phones_twice. now rewrite set_phones_same.
  - change (Rec.phones (Rec.set_phones (Rec.phones self ++ [p]) self))
      with (Rec.phones self ++ [p])%list.
    rewrite nth_error_app2 by lia. now rewrite Nat.sub_diag.
Qed.

(** ** [AddressBook]: removing a record, and what the operations keep *)

Lemma dict_get_none_keys {V : Type} (k : string) (d : Dict.t V) :
  Dict.get k d = None <-> ~ In k (Dict.keys d).
Proof.
  unfold Dict.keys. induction d as [| [k0 v0] d IH]; cbn [Dict.get map fst In].
  - tauto.
  - destruct (String.eqb_spec k k0) as [-> | N].
    + split; [discriminate | intros H; exfalso; apply H; now left].
    + rewrite IH. split.
      * intros H [E | I]; [congruence | contradiction].
      * intros H I. apply H. now right.
Qed.

Lemma dict_get_remove_other {V : Type} (k k' : string) (d : Dict.t V) :
  k' <> k -> Dict.get k' (Dict.remove k d) = Dict.get k' d.
Proof.
  intros N. induction d as [| [k0 v0] d IH]; cbn [Dict.remove Dict.get]; [reflexivity |].
  destruct (String.eqb_spec k k0) as [-> | N0].
  - destruct (String.eqb_spec k' k0); [contradiction | reflexivity].
  - cbn [Dict.get]. destruct (String.eqb k' k0); [reflexivity | exact IH].
Qed.

Lemma dict_remove_In {V : Type} (k : string) (d : Dict.t V) (kv : string * V) :
  In kv (Dict.remove k d) -> In kv d.
Proof.
  induction d as [| [k0 v0] d IH]; cbn [Dict.remove]; [tauto |].
  destruct (String.eqb k k0); [now right |].
  intros [E | I]; [now left | right; now apply IH].
Qed.

Lemma dict_set_In {V : Type} (k : string) (v : V) (d : Dict.t V) (kv : string * V) :
  In kv (Dict.set k v d) -> kv = (k, v) \/ In kv d.
Proof.
  induction d as [| [k0 v0] d IH]; cbn [Dict.set].
  - intros [E | []]. now left.
  - destruct (String.eqb_spec k k0) as [-> | N].
    + intros [E | I]; [now left | right; now right].
    + intros [E | I]; [right; now left |].
      destruct (IH I) as [E | I']; [now left | right; now right].
Qed.

Lemma dict_remove_nodup {V : Type} (k : string) (d : Dict.t V) :
  NoDup (Dict.keys d) ->
  NoDup (Dict.keys (Dict.remove k d)) /\ ~ In k (Dict.keys (Dict.remove k d)).
Proof.
  unfold Dict.keys. induction d as [| [k0 v0] d IH]; cbn [Dict.remove map fst].
  - intros _. split; [constructor | intros []].
  - intros N. inversion N as [| ? ? N0 N1]; subst.
    destruct (String.eqb_spec k k0) as [-> | D].
    + split; assumption.
    + destruct (IH N1) as [A B]. cbn [map fst]. split.
      * constructor; [| exact A]. intros I. apply N0.
        apply in_map_iff in I as [kv [E I]].
        apply in_map_iff. exists kv. split; [exact E |].
        now apply (dict_remove_In k d).
      * intros [E | I]; [congruence | contradiction].
Qed.

Lemma dict_remove_len {V : Type} (k : string) (d : Dict.t V) (v : V) :
  Dict.get k d = Some v -> Dict.len (Dict.remove k d) = Dict.len d - 1.
Proof.
  unfold Dict.len. induction d as [| [k0 v0] d IH]; cbn [Dict.get Dict.remove]; [discriminate |].
  destruct (String.eqb k k0).
  - intros _. cbn [List.length]. lia.
  - intros H. specialize (IH H). cbn [List.length]. lia.
Qed.

Lemma dict_remove_set_fresh {V : Type} (k : string) (v : V) (d : Dict.t V) :
  Dict.contains k d = false -> Dict.remove k (Dict.set k v d) = d.
Proof.
  unfold Dict.contains.
  induction d as [| [k0 v0] d IH]; cbn [Dict.get Dict.set Dict.remove].
  - intros _. now rewrite String.eqb_refl.
  - destruct (String.eqb k k0) eqn:E; [discriminate |].
    intros H. cbn [Dict.remove]. rewrite E. now rewrite (IH H).
Qed.

Lemma dict_set_nodup {V : Type} (k : string) (v : V) (d : Dict.t V) :
  NoDup (Dict.keys d) -> NoDup (Dict.keys (Dict.set k v d)).
Proof.
  intros N. destruct (Dict.contains k d) eqn:C.
  - now rewrite dict_set_present_keys.
  - rewrite (dict_set_absent k v d C). unfold Dict.keys. rewrite map_app. cbn [map fst].
    assert (A : ~ In k (Dict.keys d)).
    { apply dict_get_none_keys. unfold Dict.contains in C.
      now destruct (Dict.get k d). }
    clear C. unfold Dict.keys in *.
    induction (map fst d) as [| x l IH]; cbn [app].
    + constructor; [intros [] | constructor].
    + inversion N as [| ? ? N0 N1]; subst. constructor.
      * rewrite in_app_iff. intros [I | [E | []]]; [contradiction |].
        apply A. now left.
      * apply IH; [exact N1 |]. intros I. apply A. now right.
Qed.

Lemma values_In {V : Type} (d : Dict.t V) (v : V) :
  In v (Dict.values d) <-> exists k, In (k, v) d.
Proof.
  unfold Dict.values. rewrite in_map_iff. split.
  - intros [[k v'] [E I]]. cbn [snd] in E. subst v'. now exists k.
  - intros [k I]. now exists (k, v).
Qed.

(** [remove_record] on a name that is no key raises [KeyError] and leaves
    the book alone. On a key it returns the record stored under it; after
    that the key is gone, every other key holds what it held, and the book
    is one entry shorter. *)
Theorem remove_record_pops (data : AddressBook.t) (contact : string) :
  NoDup (Dict.keys data) ->
  match Dict.get contact data with
  | None => run (AddressBook.remove_record contact) data = (Raise KeyError, data)
  | Some r =>
      exists data' : AddressBook.t,
        run (AddressBook.remove_record contact) data = (Ok r, data')
        /\ Dict.get contact data' = None
        /\ (forall k', k' <> contact -> Dict.get k' data' = Dict.get k' data)
        /\ Dict.len data' = Dict.len data - 1
  end.
Proof.
  intros N. unfold run, AddressBook.remove_record.
  destruct (Dict.get contact data) as [r |] eqn:G; [| reflexivity].
  exists (Dict.remove contact data). split; [reflexivity |].
  split; [apply dict_get_none_keys; now apply dict_remove_nodup |].
  split; [intros k' D; now apply dict_get_remove_other |].
  now apply (dict_remove_len contact data r).
Qed.

Lemma remove_record_pops_witness :
  exists data' : AddressBook.t,
    run (AddressBook.remove_record "Anna") anna_and_ann = (Ok anna, data')
    /\ Dict.get "Anna" data' = None
    /\ (forall k', k' <> "Anna" -> Dict.get k' data' = Dict.get k' anna_and_ann)
    /\ Dict.len data' = Dict.len anna_and_ann - 1.
Proof.
  apply (remove_record_pops anna_and_ann "Anna").
  constructor; [intros [E | []]; discriminate E |].
  constructor; [intros [] | constructor].
Defined.

(** Adding a record under a name that is not yet a key and removing that
    name right after gives the record back and leaves the book as it was,
    order included. *)
Theorem add_then_remove_record (data : AddressBook.t) (r : Rec.t) :
  Dict.contains (Name.value (Rec.name r)) data = false ->
  run (bind (AddressBook.add_record r)
         (fun _ => AddressBook.remove_record (Name.value (Rec.name r)))) data
  = (Ok r, data).
Proof.
  intros C. unfold run, bind, AddressBook.add_record, AddressBook.remove_record.
  rewrite dict_get_set_same. now rewrite dict_remove_set_fresh.
Qed.

Lemma add_then_remove_record_witness :
  run (bind (AddressBook.add_record (born 1990 3 1))
         (fun _ => AddressBook.remove_record "Ann")) [("Anna", anna)]
  = (Ok (born 1990 3 1), [("Anna", anna)]).
Proof. exact (add_then_remove_record [("Anna", anna)] (born 1990 3 1) eq_refl). Defined.

(** What [add_record] and [remove_record] keep: distinct keys, valid
    birthdays, and every record under its own name. A book built with the
    two from the empty book is therefore one that can be saved. *)
Theorem book_operations_keep_well_formed
    (data : AddressBook.t) (r : Rec.t) (contact : string) :
  AddressBook.well_formed data -> keyed_by_name data ->
  AddressBook.birthday_valid r ->
  (AddressBook.well_formed (snd (run (AddressBook.add_record r) data))
   /\ keyed_by_name (snd (run (AddressBook.add_record r) data)))
  /\ (AddressBook.well_formed (snd (run (AddressBook.remove_record contact) data))
      /\ keyed_by_name (snd (run (AddressBook.remove_record contact) data))).
Proof.
  intros [N V] K B. unfold keyed_by_name in *. rewrite Forall_forall in V, K.
  split.
  - unfold run, AddressBook.add_record. cbn [snd]. split; [split |].
    + now apply dict_set_nodup.
    + apply Forall_forall. intros x I. apply values_In in I as [k I].
      apply dict_set_In in I as [E | I].
      * now injection E as _ ->.
      * apply V. apply values_In. now exists k.
    + apply Forall_forall. intros kv I. apply dict_set_In in I as [-> | I].
      * reflexivity.
      * now apply K.
  - unfold run, AddressBook.remove_record.
    destruct (Dict.get contact data) as [x |]; cbn [snd].
    + split; [split |].
      * now apply dict_remove_nodup.
      * apply Forall_forall. intros y I. apply values_In in I as [k I].
        apply dict_remove_In in I. apply V. apply values_In. now exists k.
      * apply Forall_forall. intros kv I. apply K. now apply (dict_remove_In contact).
    + split; [split; [exact N | now apply Forall_forall] | now apply Forall_forall].
Qed.

Lemma book_operations_keep_well_formed_witness :
  AddressBook.well_formed (snd (run (AddressBook.add_record (born 1990 3 1)) []))
  /\ keyed_by_name (snd (run (AddressBook.add_record (born 1990 3 1)) [])).
Proof.
  apply (book_operations_keep_well_formed [] (born 1990 3 1) "Ann").
  - split; constructor.
  - constructor.
  - reflexivity.
Defined.

(** ** [AddressBook]: the two views, the page size, [search], the files *)

(** What the paginated view yields page by page is, glued together, what
    [show_all] returns in one piece: the renderings of all records in
    store order and the summary line. This holds for a positive page size
    as long as the last bound the view hands to [islice],
    [page * (ceil(n / page) + 1)], is at most [sys.maxsize]; with a larger
    page size the view ends in [ValueError], and yields no such pages. *)
Theorem show_all_is_all_pages (data : AddressBook.t) (page : Z) (fuel : nat) :
  0 < page ->
  (Z.to_nat (page_count page (Dict.len data)) + 2 <= fuel)%nat ->
  (page * (page_count page (Dict.len data) + 1) <= Sys.maxsize ->
   exists pages : list string,
     AddressBook.drain fuel page data (AddressBook.iterator page) = Some (Ok pages)
     /\ Str.concat pages = AddressBook.show_all data)
  /\ (Sys.maxsize < page * (page_count page (Dict.len data) + 1) ->
      AddressBook.drain fuel page data (AddressBook.iterator page)
      = Some (Raise ValueError)).
Proof.
  intros P F. split.
  - intros B. exists (content_pages page data ++ [AddressBook.total data])%list.
    split; [exact (drain_all data page P fuel B F) |].
    rewrite str_concat_app. unfold content_pages.
    rewrite <- (map_map (page_records (Z.to_nat page) (Dict.values data))
                        (fun c => Str.concat (map Rec.str c))).
    rewrite str_concat_pages, (pages_cover data page P).
    unfold AddressBook.show_all. cbn [Str.concat]. now rewrite str_app_nil_r.
  - intros B. apply (drain_all_beyond_maxsize data page P fuel B). lia.
Qed.

Lemma show_all_is_all_pages_witness :
  exists pages : list string,
    AddressBook.drain 3 2 sample_book (AddressBook.iterator 2) = Some (Ok pages)
    /\ Str.concat pages = AddressBook.show_all sample_book.
Proof.
  refine (proj1 (show_all_is_all_pages sample_book 2 3 eq_refl (le_n 3)) _).
  vm_compute. discriminate.
Defined.

(** Without a positive page size the records are never shown: with page
    size 0 the view yields the summary alone, whatever the book holds, and
    with a negative one its first resumption raises [ValueError]. *)
Theorem iterator_without_page_size (data : AddressBook.t) (page : Z) (fuel : nat) :
  page <= 0 -> (2 <= fuel)%nat ->
  AddressBook.drain fuel page data (AddressBook.iterator page)
  = if page <? 0 then Some (Raise ValueError)
    else Some (Ok [AddressBook.total data]).
Proof.
  intros P F. destruct fuel as [| [| fuel]]; [lia | lia |].
  unfold AddressBook.iterator. cbn [AddressBook.drain].
  unfold AddressBook.next at 1. unfold AddressBook.islice.
  rewrite Z.add_0_l. change (0 <? 0) with false.
  change (Sys.maxsize <? 0) with false. cbn [orb].
  destruct (Z.ltb_spec page 0) as [L | L]; [reflexivity |].
  replace page with 0 by lia. reflexivity.
Qed.

Lemma iterator_without_page_size_witness :
  AddressBook.drain 2 0 sample_book (AddressBook.iterator 0)
  = Some (Ok ["Total: 2 contacts."])
  /\ AddressBook.drain 2 (-1) sample_book (AddressBook.iterator (-1))
     = Some (Raise ValueError).
Proof.
  split.
  - exact (iterator_without_page_size sample_book 0 2 ltac:(lia) (le_n 2)).
  - exact (iterator_without_page_size sample_book (-1) 2 ltac:(lia) (le_n 2)).
Defined.

Lemma search_phones_incl (pattern : string) (contact : Rec.t) (phones : list Phone.t)
    (found out : list Rec.t) :
  AddressBook.search_phones pattern contact phones found = Some out ->
  forall r, In r out -> In r found \/ r = contact.
Proof.
  revert found. induction phones as [| ph rest IH]; intros found; cbn [AddressBook.search_phones].
  - intros [= <-] r I. now left.
  - destruct (Re.re_match pattern (Phone.value ph) false) as [[|] |]; [| | discriminate].
    + intros H r I. destruct (IH _ H r I) as [J | J]; [| now right].
      apply in_app_iff in J as [J | [J | []]]; [now left | now right].
    + apply IH.
Qed.

Lemma search_by_phone_incl (pattern : string) (contacts : list Rec.t)
    (found out : list Rec.t) :
  AddressBook.search_by_phone pattern contacts found = Some out ->
  forall r, In r out -> In r found \/ In r contacts.
Proof.
  revert found. induction contacts as [| c rest IH]; intros found;
    cbn [AddressBook.search_by_phone].
  - intros [= <-] r I. now left.
  - destruct (AddressBook.search_phones pattern c (Rec.phones c) found) as [mid |] eqn:E;
      [| discriminate].
    intros H r I. destruct (IH _ H r I) as [J | J]; [| right; now right].
    destruct (search_phones_incl _ _ _ _ _ E r J) as [K | K]; [now left |].
    right. left. now symmetry.
Qed.

Lemma search_by_name_incl (pattern : string) (contacts : list Rec.t)
    (found out : list Rec.t) :
  AddressBook.search_by_name pattern contacts found = Some out ->
  forall r, In r out -> In r found \/ In r contacts.
Proof.
  revert found. induction contacts as [| c rest IH]; intros found;
    cbn [AddressBook.search_by_name].
  - intros [= <-] r I. now left.
  - destruct (Re.re_match pattern (Name.value (Rec.name c)) true) as [[|] |];
      [| | discriminate].
    + intros H r I. destruct (IH _ H r I) as [J | J]; [| right; now right].
      apply in_app_iff in J as [J | [J | []]]; [now left |].
      right. now left.
    + intros H r I. destruct (IH _ H r I) as [J | J]; [now left | right; now right].
Qed.

Lemma parse_modelled (pattern : string) :
  modelled_pattern pattern = true -> exists items, Re.parse pattern = Some items.
Proof.
  unfold modelled_pattern. induction pattern as [| c r IH]; intros H.
  - now exists [].
  - apply forallb_cons in H as [Hc Hr]. destruct (IH Hr) as [items E].
    cbn [Re.parse]. rewrite E. cbn [option_map].
    destruct (Ascii.eqb c "."); [now eexists |]. cbn [orb] in Hc.
    apply negb_true_iff in Hc. rewrite Hc. now eexists.
Qed.

Lemma search_phones_answers (pattern : string) (items : list Re.item)
    (contact : Rec.t) (phones : list Phone.t) (found : list Rec.t) :
  Re.parse pattern = Some items ->
  exists out, AddressBook.search_phones pattern contact phones found = Some out.
Proof.
  intros E. revert found.
  induction phones as [| ph rest IH]; intros found; cbn [AddressBook.search_phones].
  - now eexists.
  - unfold Re.re_match. rewrite E. cbn [option_map].
    destruct (Re.match_items false items (Phone.value ph)); apply IH.
Qed.

Lemma search_by_phone_answers (pattern : string) (items : list Re.item)
    (contacts : list Rec.t) (found : list Rec.t) :
  Re.parse pattern = Some items ->
  exists out, AddressBook.search_by_phone pattern contacts found = Some out.
Proof.
  intros E. revert found.
  induction contacts as [| c rest IH]; intros found; cbn [AddressBook.search_by_phone].
  - now eexists.
  - destruct (search_phones_answers pattern items c (Rec.phones c) found E) as [mid ->].
    apply IH.
Qed.

Lemma search_by_name_answers (pattern : string) (items : list Re.item)
    (contacts : list Rec.t) (found : list Rec.t) :
  Re.parse pattern = Some items ->
  exists out, AddressBook.search_by_name pattern contacts found = Some out.
Proof.
  intros E. revert found.
  induction contacts as [| c rest IH]; intros found; cbn [AddressBook.search_by_name].
  - now eexists.
  - unfold Re.re_match. rewrite E. cbn [option_map].
    destruct (Re.match_items true items (Name.value (Rec.name c))); apply IH.
Qed.

(** [search] finds nothing that is not in the book. For every pattern
    made of ordinary characters and dots, which is the part of [re] the
    model covers, it returns a list, and every record of the list is a
    record of the store. With the empty pattern it returns them all, in
    store order. *)
Theorem search_returns_stored_records (data : AddressBook.t) (pattern : string) :
  modelled_pattern pattern = true ->
  (exists found : list Rec.t,
     AddressBook.search pattern data = Some found
     /\ (forall r, In r found -> In r (Dict.values data)))
  /\ AddressBook.search EmptyString data = Some (Dict.values data).
Proof.
  intros M. destruct (parse_modelled pattern M) as [items E]. split.
  - unfold AddressBook.search. destruct (Str.isnumeric pattern).
    + destruct (search_by_phone_answers pattern items (Dict.values data) [] E) as [found H].
      exists found. split; [exact H |]. intros r I.
      destruct (search_by_phone_incl _ _ _ _ H r I) as [[] | J]. exact J.
    + destruct (search_by_name_answers pattern items (Dict.values data) [] E) as [found H].
      exists found. split; [exact H |]. intros r I.
      destruct (search_by_name_incl _ _ _ _ H r I) as [[] | J]. exact J.
  - unfold AddressBook.search. change (Str.isnumeric EmptyString) with false. cbv iota.
    rewrite (search_by_name_spec EmptyString eq_refl). cbn [app startswith_nocase].
    induction (Dict.values data) as [| x l IH]; [reflexivity |].
    cbn [filter]. congruence.
Qed.

Lemma search_returns_stored_records_witness :
  exists found : list Rec.t,
    AddressBook.search "A.n" anna_and_ann = Some found
    /\ (forall r, In r found -> In r (Dict.values anna_and_ann)).
Proof. exact (proj1 (search_returns_stored_records anna_and_ann "A.n" eq_refl)). Defined.

(** A file holds what was last saved to it. After one book is saved under
    a name and another book under a second name, loading the second name
    gives the second book; loading the first name gives the first book
    when the names differ; every other file is as it was, and loading a
    name that was never written raises [FileNotFoundError] and leaves the
    book that asked alone. *)
Theorem file_holds_last_save
    (identity1 identity2 : nat -> option nat) (f1 f2 : string)
    (data1 data2 : AddressBook.t) (stale : AddressBook.contents)
    (fs : AddressBook.files) :
  AddressBook.well_formed data1 -> AddressBook.well_formed data2 ->
  let fs1 := snd (snd (run (AddressBook.save_to_file identity1 f1) (data1, fs))) in
  let fs2 := snd (snd (run (AddressBook.save_to_file identity2 f2) (data2, fs1))) in
  run (AddressBook.load_from_file f2) (stale, fs2)
  = (Ok tt, (AddressBook.Records data2, fs2))
  /\ (f1 <> f2 ->
      run (AddressBook.load_from_file f1) (stale, fs2)
      = (Ok tt, (AddressBook.Records data1, fs2)))
  /\ (forall f, f <> f1 -> f <> f2 -> fs2 f = fs f)
  /\ (forall f, f <> f1 -> f <> f2 -> fs f = None ->
      run (AddressBook.load_from_file f) (stale, fs2)
      = (Raise FileNotFoundError, (stale, fs2))).
Proof.
  intros W1 W2 fs1 fs2.
  assert (O : forall f, f <> f1 -> f <> f2 -> fs2 f = fs f).
  { intros f D1 D2. unfold fs2, fs1, run, AddressBook.save_to_file, AddressBook.write_file.
    cbn [snd].
    destruct (String.eqb_spec f f2); [contradiction |].
    destruct (String.eqb_spec f f1); [contradiction | reflexivity]. }
  split; [| split; [| split; [exact O |]]].
  - unfold run, AddressBook.load_from_file.
    assert (E : fs2 f2 = Some (Pickle.dumps identity2 (AddressBook.data_obj data2))).
    { unfold fs2, run, AddressBook.save_to_file, AddressBook.write_file. cbn [snd].
      now rewrite String.eqb_refl. }
    rewrite E, (loads_dumps identity2 _ (data_obj_picklable data2 W2)).
    now rewrite obj_data_data_obj.
  - intros D. unfold run, AddressBook.load_from_file.
    assert (E : fs2 f1 = Some (Pickle.dumps identity1 (AddressBook.data_obj data1))).
    { unfold fs2, fs1, run, AddressBook.save_to_file, AddressBook.write_file. cbn [snd].
      destruct (String.eqb_spec f1 f2); [contradiction |].
      now rewrite String.eqb_refl. }
    rewrite E, (loads_dumps identity1 _ (data_obj_picklable data1 W1)).
    now rewrite obj_data_data_obj.
  - intros f D1 D2 A. unfold run, AddressBook.load_from_file.
    now rewrite (O f D1 D2), A.
Qed.

Lemma file_holds_last_save_witness :
  let fs1 := snd (snd (run (AddressBook.save_to_file (fun _ => None) "phonebook.bin")
                         (sample_book, no_files))) in
  let fs2 := snd (snd (run (AddressBook.save_to_file (fun _ => None) "phonebook.bin")
                         (anna_and_ann, fs1))) in
  run (AddressBook.load_from_file "phonebook.bin") (AddressBook.Records [], fs2)
  = (Ok tt, (AddressBook.Records anna_and_ann, fs2)).
Proof.
  assert (N : forall a b : Rec.t, NoDup (Dict.keys [("Anna", a); ("Ann", b)])).
  { intros a b. constructor; [intros [E | []]; discriminate E |].
    constructor; [intros [] | constructor]. }
  refine (proj1 (file_holds_last_save (fun _ => None) (fun _ => None)
                   "phonebook.bin" "phonebook.bin" sample_book anna_and_ann
                   (AddressBook.Records []) no_files _ _)).
  - split; [apply N |].
    constructor; [reflexivity |]. constructor; [exact I | constructor].
  - split; [apply N |].
    constructor; [exact I |]. constructor; [exact I | constructor].
Defined.

(** ** [days_to_birthday]: what it counts *)

Lemma days_before_year_succ (y : Z) :
  Datetime.days_before_year (y + 1)
  = Datetime.days_before_year y + 365 + (if Datetime.is_leap y then 1 else 0).
Proof.
  unfold Datetime.days_before_year, Datetime.is_leap. cbv zeta.
  replace (y + 1 - 1) with y by lia.
  destruct (Z.eqb_spec (y mod 4) 0), (Z.eqb_spec (y mod 100) 0),
    (Z.eqb_spec (y mod 400) 0);
    cbn [andb orb negb]; Z.div_mod_to_equations; lia.
Qed.

Ltac month_cases m :=
  let C := fresh "C" in
  assert (C : m = 1 \/ m = 2 \/ m = 3 \/ m = 4 \/ m = 5 \/ m = 6 \/ m = 7
              \/ m = 8 \/ m = 9 \/ m = 10 \/ m = 11 \/ m = 12) by lia;
  repeat destruct C as [C | C]; subst m.

Lemma valid_date_day (y m d : Z) :
  Datetime.valid_date y m d = true -> d <= Datetime.days_in_month y m.
Proof.
  unfold Datetime.valid_date. intros H.
  apply andb_true_iff in H as [_ H]. now apply Z.leb_le.
Qed.

(** The day of the year of a date of the calendar. *)
Lemma day_of_year_bounds (y m d : Z) :
  Datetime.valid_date y m d = true ->
  1 <= Datetime.days_before_month y m + d
    <= 365 + (if Datetime.is_leap y then 1 else 0).
Proof.
  intros V. pose proof (valid_date_ranges _ _ _ V) as (Rd & Rm & _).
  apply valid_date_day in V. revert V.
  unfold Datetime.days_before_month.
  month_cases m; simpl Z.to_nat;
    cbv -[Datetime.is_leap Z.add Z.le Z.lt];
    destruct (Datetime.is_leap y); lia.
Qed.

(** The same day and month one year later is 365 or 366 days on. *)
Lemma ordinal_next_year (y m d : Z) :
  1 <= m <= 12 ->
  Datetime.ymd2ord (y + 1) m d - Datetime.ymd2ord y m d
  = 365 + (if m <=? 2
           then (if Datetime.is_leap y then 1 else 0)
           else (if Datetime.is_leap (y + 1) then 1 else 0)).
Proof.
  intros Rm. unfold Datetime.ymd2ord. rewrite days_before_year_succ.
  generalize (Datetime.days_before_year y) as B. intros B.
  unfold Datetime.days_before_month.
  month_cases m; simpl Z.to_nat;
    cbv -[Datetime.is_leap Z.add Z.sub Z.le Z.lt];
    destruct (Datetime.is_leap y), (Datetime.is_leap (y + 1)); lia.
Qed.

Lemma valid_date_other_year (y y' m d : Z) :
  Datetime.valid_date y m d = true -> ~ (m = 2 /\ d = 29) ->
  1 <= y' <= 9999 ->
  Datetime.valid_date y' m d = true.
Proof.
  intros V N R. pose proof (valid_date_ranges _ _ _ V) as (Rd & Rm & _).
  apply valid_date_day in V. unfold Datetime.valid_date.
  repeat (apply andb_true_iff; split); apply Z.leb_le; try lia.
  unfold Datetime.days_in_month in *.
  destruct (Z.eqb_spec m 2) as [E | E]; [| exact V].
  destruct (Datetime.is_leap y), (Datetime.is_leap y'); lia.
Qed.

Lemma time_of_day_bounds (t : Datetime.datetime) :
  Datetime.valid_time t = true ->
  0 <= Datetime.microseconds_of_day t < Datetime.day_us.
Proof.
  unfold Datetime.valid_time, Datetime.microseconds_of_day, Datetime.day_us. intros H.
  repeat (apply andb_true_iff in H as [H ?]).
  repeat match goal with
         | E : (_ <=? _) = true |- _ => apply Z.leb_le in E
         | E : (_ <? _) = true |- _ => apply Z.ltb_lt in E
         end.
  lia.
Qed.

(** The subtraction of [today] from a midnight gives the days between the
    two dates, less one when [today] is past midnight. *)
Lemma sub_days_from_midnight (today : Datetime.datetime) (yr m d : Z) :
  Datetime.valid_time today = true ->
  Datetime.sub_days (midnight yr m d) today = whole_days_until today yr m d.
Proof.
  intros T. pose proof (time_of_day_bounds today T) as U.
  unfold Datetime.sub_days, whole_days_until, past_midnight, midnight.
  change (Datetime.microseconds_of_day (Datetime.mk_datetime yr m d 0 0 0 0)) with 0.
  change (Datetime.toordinal (Datetime.mk_datetime yr m d 0 0 0 0))
    with (Datetime.ymd2ord yr m d).
  generalize dependent (Datetime.microseconds_of_day today). intros u U.
  generalize (Datetime.ymd2ord yr m d - Datetime.toordinal today) as D. intros D.
  unfold Datetime.day_us in *.
  destruct (Z.ltb_spec 0 u); Z.div_mod_to_equations; lia.
Qed.

Lemma replace_year_midnight (y y' m d : Z) :
  Datetime.valid_date y' m d = true ->
  Datetime.replace_year (midnight y m d) y' = Ok (midnight y' m d).
Proof.
  intros V. unfold Datetime.replace_year, midnight.
  cbn [Datetime.month Datetime.day Datetime.hour Datetime.minute Datetime.second
       Datetime.microsecond].
  now rewrite V.
Qed.

(** For a birthday that is not a 29th of February, and up to the year
    9998, [days_to_birthday] always answers. The answer is the "today"
    sentinel exactly when day and month of today are those of the
    birthday. Otherwise it is a count [n] of days, from 0 to 366: the whole
    days, time of day included, to midnight of the birthday in the current
    year when at least one whole day is left, and to midnight of the
    birthday in the following year when not. *)
Theorem days_to_birthday_counts
    (today : Datetime.datetime) (self : Rec.t) (y m d : Z) :
  Rec.birthday self = Some (Birthday.mk (midnight y m d)) ->
  Datetime.valid_date y m d = true ->
  ~ (m = 2 /\ d = 29) ->
  Datetime.valid today = true ->
  Datetime.year today <= 9998 ->
  let this_year := whole_days_until today (Datetime.year today) m d in
  let next_year := whole_days_until today (Datetime.year today + 1) m d in
  let n := if 0 <? this_year then this_year else next_year in
  Rec.days_to_birthday today self
  = Ok (if (Datetime.month today =? m) && (Datetime.day today =? d)
        then "It is TODAY!!!"
        else Str.of_int n ++ " days to birthday")
  /\ 0 <= n <= 366.
Proof.
  intros Hb V N T Y this_year next_year n.
  unfold Datetime.valid in T. apply andb_true_iff in T as [Td Tt].
  pose proof (valid_date_ranges _ _ _ V) as (_ & Rm & _).
  pose proof (valid_date_ranges _ _ _ Td) as (_ & _ & Ry).
  assert (V0 : Datetime.valid_date (Datetime.year today) m d = true)
    by (apply (valid_date_other_year y); [exact V | exact N | lia]).
  assert (V1 : Datetime.valid_date (Datetime.year today + 1) m d = true)
    by (apply (valid_date_other_year y); [exact V | exact N | lia]).
  assert (L : 0 <= past_midnight today <= 1)
    by (unfold past_midnight; destruct (0 <? Datetime.microseconds_of_day today); lia).
  split.
  - unfold Rec.days_to_birthday. rewrite Hb. cbn [Birthday.value].
    rewrite (replace_year_midnight y _ m d V0). cbn [result_bind].
    rewrite (sub_days_from_midnight today _ m d Tt). fold this_year.
    change (Datetime.month (midnight (Datetime.year today) m d)) with m.
    change (Datetime.day (midnight (Datetime.year today) m d)) with d.
    rewrite (replace_year_midnight _ _ m d V1). cbn [result_bind].
    rewrite (sub_days_from_midnight today _ m d Tt). fold next_year.
    unfold n. destruct (Z.ltb_spec 0 this_year) as [P | P];
      [| now destruct ((Datetime.month today =? m) && (Datetime.day today =? d))].
    destruct (Z.eqb_spec (Datetime.month today) m) as [Em | Em]; [| reflexivity].
    destruct (Z.eqb_spec (Datetime.day today) d) as [Ed | Ed]; [| reflexivity].
    exfalso. unfold this_year, whole_days_until, Datetime.toordinal in P.
    rewrite Em, Ed in P. lia.
  - pose proof (day_of_year_bounds _ _ _ Td) as B0.
    pose proof (day_of_year_bounds _ _ _ V0) as B1.
    pose proof (day_of_year_bounds _ _ _ V1) as B2.
    pose proof (ordinal_next_year (Datetime.year today) m d Rm) as S.
    pose proof (days_before_year_succ (Datetime.year today)) as Sy.
    unfold n, this_year, next_year, whole_days_until, Datetime.toordinal in *.
    unfold Datetime.ymd2ord in *.
    destruct (m <=? 2), (Datetime.is_leap (Datetime.year today)),
      (Datetime.is_leap (Datetime.year today + 1));
      match goal with
      | |- context [0 <? ?w] => destruct (Z.ltb_spec 0 w)
      end; lia.
Qed.

Lemma days_to_birthday_counts_witness :
  let today := Datetime.mk_datetime 2024 12 31 12 0 0 0 in
  Rec.days_to_birthday today (born 1990 1 1) = Ok "0 days to birthday".
Proof.
  intros today.
  refine (proj1 (days_to_birthday_counts today (born 1990 1 1) 1990 1 1
                   eq_refl eq_refl _ eq_refl _)).
  - intros [E _]. discriminate E.
  - cbn. lia.
Defined.

Lemma leap_year_not_followed (y : Z) :
  Datetime.is_leap y = true -> Datetime.is_leap (y + 1) = false.
Proof.
  unfold Datetime.is_leap. intros H. apply andb_true_iff in H as [H _].
  apply Z.eqb_eq in H.
  destruct (Z.eqb_spec ((y + 1) mod 4) 0) as [E | E]; [| reflexivity].
  exfalso. revert H E. Z.div_mod_to_equations. lia.
Qed.

(** In a leap year, the days before each month: none before January, 31
    before February, at least 60 from March on. *)
Lemma days_before_month_leap (y m : Z) :
  Datetime.is_leap y = true -> 1 <= m <= 12 ->
  (m = 1 /\ Datetime.days_before_month y m = 0)
  \/ (m = 2 /\ Datetime.days_before_month y m = 31)
  \/ (3 <= m /\ 60 <= Datetime.days_before_month y m).
Proof.
  intros L R. unfold Datetime.days_before_month, Datetime.days_in_month. rewrite L.
  month_cases m; simpl;
    first [ left; split; reflexivity
          | right; left; split; reflexivity
          | right; right; split; lia ].
Qed.

(** A birthday on the 29th of February, asked for in a leap year. Before
    the 28th of February, and on the 28th at midnight sharp, the answer is
    the count of whole days left; on the 29th it is the "today" sentinel;
    at every other moment of the year, the rest of the 28th included, the
    method raises [ValueError], the following year having no such day. *)
Theorem days_to_birthday_feb29_leap_year
    (today : Datetime.datetime) (self : Rec.t) (y : Z) :
  Rec.birthday self = Some (Birthday.mk (midnight y 2 29)) ->
  Datetime.valid today = true ->
  Datetime.is_leap (Datetime.year today) = true ->
  Rec.days_to_birthday today self
  = if (Datetime.month today =? 1)
       || ((Datetime.month today =? 2)
           && ((Datetime.day today <=? 27)
               || ((Datetime.day today =? 28)
                   && (Datetime.microseconds_of_day today =? 0))))
    then Ok (Str.of_int (whole_days_until today (Datetime.year today) 2 29)
             ++ " days to birthday")
    else if (Datetime.month today =? 2) && (Datetime.day today =? 29)
    then Ok "It is TODAY!!!"
    else Raise ValueError.
Proof.
  intros Hb T Leap.
  unfold Datetime.valid in T. apply andb_true_iff in T as [Td Tt].
  pose proof (valid_date_ranges _ _ _ Td) as (Rd & Rm & Ry).
  pose proof (time_of_day_bounds today Tt) as U.
  assert (V0 : Datetime.valid_date (Datetime.year today) 2 29 = true).
  { unfold Datetime.valid_date, Datetime.days_in_month. rewrite Leap.
    change (2 =? 2) with true. cbv iota.
    repeat (apply andb_true_iff; split); apply Z.leb_le; lia. }
  unfold Rec.days_to_birthday. rewrite Hb. cbn [Birthday.value].
  rewrite (replace_year_midnight y _ 2 29 V0). cbn [result_bind].
  rewrite (sub_days_from_midnight today _ 2 29 Tt).
  change (Datetime.month (midnight (Datetime.year today) 2 29)) with 2.
  change (Datetime.day (midnight (Datetime.year today) 2 29)) with 29.
  rewrite (replace_year_feb29 (midnight (Datetime.year today) 2 29)
             (Datetime.year today + 1) eq_refl eq_refl
             (leap_year_not_followed _ Leap)).
  cbn [result_bind].
  assert (W : whole_days_until today (Datetime.year today) 2 29
              = 60 - (Datetime.days_before_month (Datetime.year today)
                        (Datetime.month today) + Datetime.day today)
                - past_midnight today).
  { unfold whole_days_until, Datetime.toordinal, Datetime.ymd2ord.
    change (Datetime.days_before_month (Datetime.year today) 2) with (31 + 0). lia. }
  rewrite W. clear W.
  unfold past_midnight.
  destruct (days_before_month_leap _ _ Leap Rm) as [[Em B] | [[Em B] | [Em B]]];
    revert B; generalize (Datetime.days_before_month (Datetime.year today)
                            (Datetime.month today)) as dbm; intros dbm B;
    repeat match goal with
           | |- context [Z.ltb ?a ?b] => destruct (Z.ltb_spec a b); try lia
           | |- context [Z.leb ?a ?b] => destruct (Z.leb_spec a b); try lia
           | |- context [Z.eqb ?a ?b] => destruct (Z.eqb_spec a b); try lia
           end;
    reflexivity.
Qed.

Lemma days_to_birthday_feb29_leap_year_witness :
  Rec.days_to_birthday (Datetime.mk_datetime 2024 2 28 9 0 0 0) (born 2000 2 29)
  = Raise ValueError.
Proof.
  exact (days_to_birthday_feb29_leap_year
           (Datetime.mk_datetime 2024 2 28 9 0 0 0) (born 2000 2 29) 2000
           eq_refl eq_refl eq_refl).
Defined.

(** ** [main.py]: the handlers behind [input_error] *)

Lemma dict_set_same_value {V : Type} (k : string) (v : V) (d : Dict.t V) :
  Dict.get k d = Some v -> Dict.set k v d = d.
Proof.
  induction d as [| [k0 v0] d IH]; cbn [Dict.get Dict.set]; [discriminate |].
  destruct (String.eqb k k0).
  - now intros [= ->].
  - intros H. now rewrite (IH H).
Qed.

Lemma dict_set_twice {V : Type} (k : string) (v1 v2 : V) (d : Dict.t V) :
  Dict.set k v2 (Dict.set k v1 d) = Dict.set k v2 d.
Proof.
  induction d as [| [k0 v0] d IH]; cbn [Dict.set].
  - now rewrite String.eqb_refl.
  - destruct (String.eqb k k0) eqn:E; cbn [Dict.set]; rewrite E; [reflexivity |].
    now rewrite IH.
Qed.

Lemma dict_get_contains {V : Type} (k : string) (v : V) (d : Dict.t V) :
  Dict.get k d = Some v -> Dict.contains k d = true.
Proof. unfold Dict.contains. now intros ->. Qed.

Lemma email_new_raises (v : string) (e : exn) :
  Email.new v = Raise e -> e = ValueError.
Proof. unfold Email.new. destruct (Email.matches v); [discriminate | now intros [= <-]]. Qed.

Lemma strptime_raises (sep : ascii) (v : string) (e : exn) :
  Datetime.strptime sep v = Raise e -> e = ValueError.
Proof.
  unfold Datetime.strptime.
  destruct (Datetime.match_format sep v) as [[[[d m] y] rest] |]; [| now intros [= <-]].
  destruct (negb (Str.is_empty rest)); [now intros [= <-] |].
  destruct (Datetime.valid_date y m d); [discriminate | now intros [= <-]].
Qed.

Lemma birthday_new_raises (v : string) (e : exn) :
  Birthday.new v = Raise e -> e = ValueError.
Proof.
  unfold Birthday.new.
  destruct (Datetime.strptime "." v) as [t | x] eqn:E1; [discriminate |].
  apply strptime_raises in E1. subst x.
  destruct (Datetime.strptime "/" v) as [t | x] eqn:E2; [discriminate |].
  apply strptime_raises in E2. subst x. now intros [= <-].
Qed.

Lemma days_to_birthday_raises (today : Datetime.datetime) (self : Rec.t) (e : exn) :
  Rec.days_to_birthday today self = Raise e -> e = ValueError.
Proof.
  unfold Rec.days_to_birthday, Datetime.replace_year.
  destruct (Rec.birthday self) as [b |]; [| discriminate].
  destruct (Datetime.valid_date _ _ _); cbn [result_bind]; [| now intros [= <-]].
  destruct (0 <? _); [discriminate |].
  destruct (_ && _); [discriminate |].
  cbn [Datetime.month Datetime.day].
  destruct (Datetime.valid_date _ _ _); cbn [result_bind]; [discriminate | now intros [= <-]].
Qed.

(** The command [add email]. The e-mail is checked before the contact is
    looked up: an invalid e-mail is answered "invalid email format" and an
    unknown contact "No such contact!", the book staying as it is; on a
    known contact a valid e-mail replaces the stored one. The answer is
    never [None], the keys and their order stay, and no other contact
    changes. *)
Theorem add_email_command (book : AddressBook.t) (contact email : string) :
  exists (reply : string) (book' : AddressBook.t),
    run (Main.add_email contact email) book = (Ok (Some reply), book')
    /\ match Email.new email, Dict.get contact book with
       | Raise _, _ => reply = "invalid email format" /\ book' = book
       | Ok _, None => reply = Main.no_such_contact /\ book' = book
       | Ok e, Some rec =>
           reply = "Updated existing contact " ++ Main.quote ++ contact ++ Main.quote
                   ++ " with new email: " ++ email
           /\ book' = Dict.set contact (Rec.set_email (Some e) rec) book
       end
    /\ Dict.keys book' = Dict.keys book
    /\ (forall k, k <> contact -> Dict.get k book' = Dict.get k book).
Proof.
  unfold run, Main.add_email, Main.input_error, bind, Main.eval, Main.on_record, ret,
    Rec.add_email.
  destruct (Email.new email) as [e | x] eqn:E.
  - destruct (Dict.get contact book) as [rec |] eqn:G.
    + eexists _, _. split; [reflexivity |]. split; [now split |].
      split; [apply dict_set_present_keys; now apply (dict_get_contains _ rec) |].
      intros k D. now apply dict_get_set_other.
    + eexists _, _. split; [reflexivity |]. now repeat split.
  - apply email_new_raises in E. subst x.
    eexists _, _. split; [reflexivity |]. now repeat split.
Qed.

(** The command [add b_day]. A text that is no date is answered with the
    format reminder, an unknown contact with "No such contact!", and a
    contact that has a birthday with "Birth date lready entered, only one
    allowed"; in the three cases the book stays as it is. Only a contact
    without birthday gets the date. The answer is never [None], the keys
    and their order stay, and no other contact changes. *)
Theorem add_birthday_command (book : AddressBook.t) (contact birthday : string) :
  exists (reply : string) (book' : AddressBook.t),
    run (Main.add_birthday contact birthday) book = (Ok (Some reply), book')
    /\ match Birthday.new birthday, Dict.get contact book with
       | Raise _, _ =>
           reply = "use date format DD.MM.YYYY or DD/MM/YYYY" /\ book' = book
       | Ok _, None => reply = Main.no_such_contact /\ book' = book
       | Ok b, Some rec =>
           match Rec.birthday rec with
           | Some _ =>
               reply = "Birth date lready entered, only one allowed" /\ book' = book
           | None =>
               reply = "Updated existing contact " ++ Main.quote ++ contact ++ Main.quote
                       ++ " with a birth date: " ++ Birthday.str b
               /\ book' = Dict.set contact (Rec.set_birthday (Some b) rec) book
           end
       end
    /\ Dict.keys book' = Dict.keys book
    /\ (forall k, k <> contact -> Dict.get k book' = Dict.get k book).
Proof.
  unfold run, Main.add_birthday, Main.input_error, Main.eval, Main.on_record, ret,
    Rec.add_birthday, get, put, raise, bind. cbv beta.
  destruct (Birthday.new birthday) as [b | x] eqn:E.
  - destruct (Dict.get contact book) as [rec |] eqn:G.
    + destruct (Rec.birthday rec) as [old |] eqn:B.
      * rewrite (dict_set_same_value _ _ _ G).
        eexists _, _. split; [reflexivity |]. now repeat split.
      * eexists _, _. split; [reflexivity |]. split; [now split |].
        split; [apply dict_set_present_keys; now apply (dict_get_contains _ rec) |].
        intros k D. now apply dict_get_set_other.
    + eexists _, _. split; [reflexivity |]. now repeat split.
  - apply birthday_new_raises in E. subst x.
    eexists _, _. split; [reflexivity |]. now repeat split.
Qed.

(** A stored birthday can be changed in two commands: after [del b_day]
    on a known contact, [add b_day] with a date accepts it, whatever was
    stored before, and the contact ends with the new date alone changed. *)
Theorem del_birthday_then_add_birthday
    (book : AddressBook.t) (contact text : string) (rec : Rec.t) (b : Birthday.t) :
  Dict.get contact book = Some rec ->
  Birthday.new text = Ok b ->
  run (bind (Main.del_birthday contact) (fun _ => Main.add_birthday contact text)) book
  = (Ok (Some ("Updated existing contact " ++ Main.quote ++ contact ++ Main.quote
               ++ " with a birth date: " ++ Birthday.str b)),
     Dict.set contact (Rec.set_birthday (Some b) rec) book).
Proof.
  intros G E.
  unfold run, bind at 1, Main.del_birthday, Main.input_error,
    bind at 1, Main.on_record, ret.
  rewrite G.
  unfold Main.add_birthday, Main.input_error, Main.eval, Main.on_record, ret,
    Rec.add_birthday, get, put, raise, bind. cbv beta.
  rewrite E, dict_get_set_same. cbn [Rec.birthday Rec.set_birthday].
  now rewrite dict_set_twice.
Qed.

Lemma del_birthday_then_add_birthday_witness :
  snd (run (bind (Main.del_birthday "Anna")
              (fun _ => Main.add_birthday "Anna" "02/03/1991")) sample_book)
  = Dict.set "Anna"
      (Rec.set_birthday (Some (Birthday.mk (midnight 1991 3 2)))
         (Rec.mk (Name.mk "Anna") [Phone.mk "1234567"; Phone.mk "7654321"]
            (Some (Birthday.mk (Datetime.mk_datetime 1990 3 1 0 0 0 0)))
            (Some (Email.mk "anna@example.com"))))
      sample_book.
Proof.
  now rewrite (del_birthday_then_add_birthday sample_book "Anna" "02/03/1991"
                 _ (Birthday.mk (midnight 1991 3 2)) eq_refl eq_refl).
Defined.

(** The command [congrat] never changes the book. An unknown contact is
    answered "No such contact!"; a known one with what [days_to_birthday]
    returns, and with [None] when that raises: for a contact born on a
    29th of February the command answers [None] in every common year. *)
Theorem congrat_command
    (today : Datetime.datetime) (book : AddressBook.t) (contact : string) :
  snd (run (Main.congrat today contact) book) = book
  /\ fst (run (Main.congrat today contact) book)
     = Ok (match Dict.get contact book with
           | None => Some Main.no_such_contact
           | Some rec =>
               match Rec.days_to_birthday today rec with
               | Ok s => Some s
               | Raise _ => None
               end
           end)
  /\ (forall (rec : Rec.t) (b : Birthday.t),
        Dict.get contact book = Some rec ->
        Rec.birthday rec = Some b ->
        Datetime.month (Birthday.value b) = 2 ->
        Datetime.day (Birthday.value b) = 29 ->
        Datetime.is_leap (Datetime.year today) = false ->
        fst (run (Main.congrat today contact) book) = Ok None).
Proof.
  assert (P : snd (run (Main.congrat today contact) book) = book
              /\ fst (run (Main.congrat today contact) book)
                 = Ok (match Dict.get contact book with
                       | None => Some Main.no_such_contact
                       | Some rec =>
                           match Rec.days_to_birthday today rec with
                           | Ok s => Some s
                           | Raise _ => None
                           end
                       end)).
  { unfold run, Main.congrat, Main.input_error, Main.on_record.
    destruct (Dict.get contact book) as [rec |] eqn:G; [| now split].
    rewrite (dict_set_same_value _ _ _ G).
    destruct (Rec.days_to_birthday today rec) as [s | x] eqn:E; [now split |].
    apply days_to_birthday_raises in E. subst x. now split. }
  destruct P as [P1 P2]. split; [exact P1 |]. split; [exact P2 |].
  intros rec b G B Hm Hd L. rewrite P2, G.
  unfold Rec.days_to_birthday. rewrite B.
  now rewrite (replace_year_feb29 _ _ Hm Hd L).
Qed.

Lemma congrat_command_witness :
  fst (run (Main.congrat (Datetime.mk_datetime 2025 6 15 12 30 0 0) "Ann")
         [("Ann", born 2024 2 29)])
  = Ok None.
Proof.
  exact (proj2 (proj2 (congrat_command (Datetime.mk_datetime 2025 6 15 12 30 0 0)
                         [("Ann", born 2024 2 29)] "Ann"))
           (born 2024 2 29) (Birthday.mk (Datetime.mk_datetime 2024 2 29 0 0 0 0))
           eq_refl eq_refl eq_refl eq_refl eq_refl).
Defined.

(** The command [del phone] given a phone never deletes one. Comparing a
    stored phone with the text given raises [AttributeError], so a contact
    with a phone is answered "No such contact!", as an unknown contact is;
    a contact without phones is answered that it has no such number. In
    every case the book stays as it is. *)
Theorem del_phone_given_never_deletes
    (book : AddressBook.t) (contact ph : string) :
  ph <> EmptyString ->
  exists m : M AddressBook.t (option string),
    Main.del_phone contact (Some ph) = Some m
    /\ run m book
       = (Ok (Some (match Dict.get contact book with
                    | None => Main.no_such_contact
                    | Some rec =>
                        match Rec.phones rec with
                        | [] => "this contact doesn't have such phone number"
                        | _ :: _ => Main.no_such_contact
                        end
                    end)),
          book).
Proof.
  intros N. unfold Main.del_phone.
  destruct ph as [| c ph]; [contradiction |]. cbn [Str.is_empty].
  eexists. split; [reflexivity |].
  unfold run, Main.input_error, Main.on_record.
  destruct (Dict.get contact book) as [rec |] eqn:G; [| reflexivity].
  destruct (Rec.phones rec) as [| p ps]; cbn [Main.find_phone Main.field_eq_str];
    now rewrite (dict_set_same_value _ _ _ G).
Qed.

Lemma del_phone_given_never_deletes_witness :
  exists m : M AddressBook.t (option string),
    Main.del_phone "Anna" (Some "1234567") = Some m
    /\ run m anna_and_ann = (Ok (Some Main.no_such_contact), anna_and_ann).
Proof.
  exact (del_phone_given_never_deletes anna_and_ann "Anna" "1234567"
           ltac:(discriminate)).
Defined.

(** A session ends and starts again with the same book. [exit] without
    arguments saves the book under [DB_FILE_NAME], sets [is_ended] and
    answers "Good bye!", and the start of [main] then loads that very
    book; [exit] with an argument saves nothing and ends nothing; and a
    start without the file begins with an empty book. *)
Theorem exit_then_startup_restores
    (identity : nat -> option nat) (book : AddressBook.t)
    (stale : AddressBook.contents) (fs : AddressBook.files) (is_ended : bool) :
  AddressBook.well_formed book ->
  (exists fs' : AddressBook.files,
     run (Main.exit identity [EmptyString]) ((book, fs), is_ended)
     = (Ok (Some "Good bye!"), ((book, fs'), true))
     /\ run Main.startup (stale, fs') = (Ok tt, (AddressBook.Records book, fs')))
  /\ (forall args, Main.not_blank args = true ->
        run (Main.exit identity args) ((book, fs), is_ended)
        = (Ok (Some "Command needs no arguments"), ((book, fs), is_ended)))
  /\ (fs Main.DB_FILE_NAME = None ->
        run Main.startup (stale, fs) = (Ok tt, (AddressBook.Records [], fs))).
Proof.
  intros W. split; [| split].
  - eexists. split; [reflexivity |].
    unfold run, Main.startup, AddressBook.load_from_file, AddressBook.write_file.
    cbn [snd]. rewrite String.eqb_refl.
    rewrite (loads_dumps identity _ (data_obj_picklable book W)).
    now rewrite obj_data_data_obj.
  - intros args B. unfold run, Main.exit, Main.input_error. now rewrite B.
  - intros A. unfold run, Main.startup. cbn [snd]. now rewrite A.
Qed.

Lemma exit_then_startup_restores_witness :
  exists fs' : AddressBook.files,
    run (Main.exit (fun _ => None) [EmptyString]) ((sample_book, no_files), false)
    = (Ok (Some "Good bye!"), ((sample_book, fs'), true))
    /\ run Main.startup (AddressBook.Records [], fs')
       = (Ok tt, (AddressBook.Records sample_book, fs')).
Proof.
  refine (proj1 (exit_then_startup_restores (fun _ => None) sample_book
                   (AddressBook.Records []) no_files false _)).
  split.
  - constructor; [intros [E | []]; discriminate E |].
    constructor; [intros [] | constructor].
  - constructor; [reflexivity |]. constructor; [exact I | constructor].
Defined.

(** ** [main.py]: the command line *)

Lemma split_rec_word (w s : string) :
  Str.forallb (fun c => negb (Str.char_isspace c)) w = true ->
  Words.split_rec (w ++ s)
  = (w ++ fst (Words.split_rec s), snd (Words.split_rec s)).
Proof.
  induction w as [| c w IH]; intros H.
  - cbn [append]. now destruct (Words.split_rec s).
  - apply forallb_cons in H as [Hc Hw]. apply negb_true_iff in Hc.
    cbn [append Words.split_rec]. rewrite (IH Hw), Hc. reflexivity.
Qed.

Lemma split_rec_words (s : string) :
  Str.forallb (fun c => negb (Str.char_isspace c)) (fst (Words.split_rec s)) = true
  /\ Forall (fun w => is_word w = true) (snd (Words.split_rec s)).
Proof.
  induction s as [| c s [IH1 IH2]]; [split; [reflexivity | constructor] |].
  cbn [Words.split_rec]. destruct (Words.split_rec s) as [w ws]. cbn [fst snd] in *.
  destruct (Str.char_isspace c) eqn:E; cbn [fst snd].
  - split; [reflexivity |]. unfold Words.cons_word.
    destruct (Str.is_empty w) eqn:W; [exact IH2 |].
    constructor; [| exact IH2]. unfold is_word. now rewrite W, IH1.
  - split; [| exact IH2]. cbn [Str.forallb]. now rewrite E, IH1.
Qed.

Lemma split_words (s : string) : Forall (fun w => is_word w = true) (Words.split s).
Proof.
  unfold Words.split. destruct (split_rec_words s) as [H1 H2].
  destruct (Words.split_rec s) as [w ws]. cbn [fst snd] in *.
  unfold Words.cons_word. destruct (Str.is_empty w) eqn:W; [exact H2 |].
  constructor; [| exact H2]. unfold is_word. now rewrite W, H1.
Qed.

(** Words joined by one space split into the same words. *)
Lemma split_join (ws : list string) :
  Forall (fun w => is_word w = true) ws -> Words.split (Str.join " " ws) = ws.
Proof.
  induction ws as [| w ws IH]; intros H; [reflexivity |].
  inversion H as [| ? ? Hw Hws]; subst.
  unfold is_word in Hw. apply andb_true_iff in Hw as [Ne Nw].
  apply negb_true_iff in Ne. specialize (IH Hws).
  destruct ws as [| w2 ws].
  - cbn [Str.join]. unfold Words.split.
    rewrite <- (str_app_nil_r w) at 1. rewrite (split_rec_word w _ Nw).
    cbn [Words.split_rec fst snd]. rewrite str_app_nil_r.
    unfold Words.cons_word. now rewrite Ne.
  - change (Str.join " " (w :: w2 :: ws))
      with (w ++ String " " (Str.join " " (w2 :: ws))).
    unfold Words.split in *. rewrite (split_rec_word w _ Nw).
    cbn [Words.split_rec].
    destruct (Words.split_rec (Str.join " " (w2 :: ws))) as [a b].
    change (Str.char_isspace " ") with true. cbv iota. cbn [fst snd].
    rewrite str_app_nil_r, IH. unfold Words.cons_word. now rewrite Ne.
Qed.

(** Preparing a prepared line changes nothing. *)
Lemma prepared_twice (line : string) : prepared (prepared line) = prepared line.
Proof. unfold prepared. now rewrite (split_join _ (split_words line)). Qed.

Lemma rsplit_rec_spec (s : string) :
  match Words.rsplit_rec s with
  | Some (a, b) => s = a ++ " " ++ b /\ has_no_blank b = true
  | None => has_no_blank s = true
  end.
Proof.
  unfold has_no_blank.
  induction s as [| c s IH]; [reflexivity |]. cbn [Words.rsplit_rec].
  destruct (Words.rsplit_rec s) as [[a b] |].
  - destruct IH as [E B]. split; [now rewrite E | exact B].
  - destruct (Ascii.eqb_spec c " ") as [-> | N].
    + split; [reflexivity | exact IH].
    + cbn [Str.forallb]. rewrite IH.
      destruct (Ascii.eqb_spec c " "); [contradiction | reflexivity].
Qed.

Lemma find_command_In (line : string) (commands : list (string * Main.command))
    (k : string) (v : Main.command) :
  Main.find_command line commands = Some (k, v) ->
  In (k, v) commands /\ Main.begins_with k line = true.
Proof.
  induction commands as [| [k0 v0] rest IH]; cbn [Main.find_command]; [discriminate |].
  destruct (Main.begins_with k0 line) eqn:B.
  - intros [= <- <-]. split; [now left | exact B].
  - intros H. destruct (IH H) as [I B']. split; [now right | exact B'].
Qed.

Lemma commands_plain (k : string) (v : Main.command) :
  In (k, v) Main.COMMANDS -> plain_key k = true.
Proof.
  unfold Main.COMMANDS. cbn [In]. intros H.
  repeat (destruct H as [[= <- <-] | H]; [reflexivity |]). destruct H.
Qed.

Lemma plain_key_parts (k : string) :
  plain_key k = true ->
  no_special k = true /\ Words.lower k = k
  /\ exists c r, k = String c r /\ c <> " "%char.
Proof.
  unfold plain_key. intros H. apply andb_true_iff in H as [H F].
  apply andb_true_iff in H as [S L]. apply String.eqb_eq in L.
  split; [exact S |]. split; [exact L |].
  destruct k as [| c r]; [discriminate |]. exists c, r. split; [reflexivity |].
  apply negb_true_iff in F. now destruct (Ascii.eqb_spec c " ").
Qed.

Lemma re_sub_delete_plain (k s : string) :
  plain_key k = true ->
  Words.re_sub_delete k s
  = Some (Words.delete_matches (map Re.Lit (list_ascii_of_string k)) O s).
Proof.
  intros P. destruct (plain_key_parts k P) as (S & _ & c & r & -> & _).
  unfold Words.re_sub_delete. now rewrite (parse_no_special _ S).
Qed.

(** [command_parser] answers on every line. Without a command word at
    the start of the prepared line it returns no handler and no argument.
    With one it returns the handler of the first such word of [COMMANDS]
    and one argument or two, the last of them without a space. The answer
    depends on the prepared line alone, and each command word by itself
    gives its own handler and the one argument [""]. *)
Theorem command_parser_shape (line : string) :
  (exists (v : option Main.command) (args : list string),
     Main.command_parser line = Some (v, args)
     /\ match v with
        | None =>
            args = [] /\ Main.find_command (prepared line) Main.COMMANDS = None
        | Some c =>
            (exists k, Main.find_command (prepared line) Main.COMMANDS = Some (k, c)
                       /\ In (k, c) Main.COMMANDS
                       /\ Main.begins_with k (prepared line) = true)
            /\ ((exists a, args = [a] /\ has_no_blank a = true)
                \/ (exists a b, args = [a; b] /\ has_no_blank b = true))
        end)
  /\ Main.command_parser (prepared line) = Main.command_parser line
  /\ Forall (fun kv => Main.command_parser (fst kv) = Some (Some (snd kv), [EmptyString]))
            Main.COMMANDS.
Proof.
  split; [| split].
  - unfold Main.command_parser. cbv zeta. fold (prepared line).
    destruct (Main.find_command (prepared line) Main.COMMANDS) as [[k c] |] eqn:F.
    + destruct (find_command_In _ _ _ _ F) as [I B].
      rewrite (re_sub_delete_plain k _ (commands_plain k c I)). cbn [option_map].
      eexists _, _. split; [reflexivity |].
      split; [exists k; now repeat split |].
      unfold Words.rsplit.
      match goal with
      | |- context [Words.rsplit_rec ?t] =>
          pose proof (rsplit_rec_spec t) as R; destruct (Words.rsplit_rec t) as [[a b] |]
      end.
      * right. exists a, b. split; [reflexivity | apply R].
      * left. eexists. split; [reflexivity | exact R].
    + eexists _, _. split; [reflexivity |]. now split.
  - unfold Main.command_parser. cbv zeta. fold (prepared line) (prepared (prepared line)).
    now rewrite prepared_twice.
  - unfold Main.COMMANDS. repeat constructor.
Qed.

Lemma lower_twice (c : ascii) : Re.lower (Re.lower c) = Re.lower c.
Proof. by_cases_on_char c. Qed.

Lemma lower_length (s : string) : String.length (Words.lower s) = String.length s.
Proof. induction s as [| c s IH]; [reflexivity |]. cbn. now rewrite IH. Qed.

(** A word matches its own lower case, letter case ignored. *)
Lemma match_own_word (w t : string) :
  Re.match_items true (map Re.Lit (list_ascii_of_string (Words.lower w))) (w ++ t) = true.
Proof.
  induction w as [| c w IH]; [reflexivity |].
  cbn [Words.lower list_ascii_of_string map append Re.match_items Re.item_matches].
  now rewrite lower_twice, Ascii.eqb_refl, IH.
Qed.

Lemma delete_skip (items : list Re.item) (u t : string) :
  Words.delete_matches items (String.length u) (u ++ t) = Words.delete_matches items O t.
Proof.
  induction u as [| c u IH]; [now destruct t |].
  cbn [String.length append Words.delete_matches]. exact IH.
Qed.

(** The command word, in any letter case, is deleted where it stands. *)
Lemma delete_own_word (w t : string) :
  w <> EmptyString ->
  Words.delete_matches (map Re.Lit (list_ascii_of_string (Words.lower w))) O (w ++ t)
  = Words.delete_matches (map Re.Lit (list_ascii_of_string (Words.lower w))) O t.
Proof.
  intros N. destruct w as [| c u]; [contradiction |].
  set (items := map Re.Lit (list_ascii_of_string (Words.lower (String c u)))).
  assert (L : pred (List.length items) = String.length u).
  { unfold items. rewrite length_map.
    cbn [Words.lower list_ascii_of_string List.length Nat.pred].
    clear. induction u as [| x u IH]; [reflexivity |]. cbn. now rewrite IH. }
  change ((String c u ++ t)%string) with (String c (u ++ t)).
  cbn [Words.delete_matches].
  change (String c (u ++ t)) with ((String c u ++ t)%string).
  unfold items at 1. rewrite match_own_word. fold items.
  rewrite L. apply delete_skip.
Qed.

(** A character that is not the first of the word starts no match. *)
Lemma delete_other_char (c k0 : ascii) (kr t : string) :
  Re.lower k0 = k0 -> Re.lower c <> k0 ->
  Words.delete_matches (map Re.Lit (list_ascii_of_string (String k0 kr))) O (String c t)
  = String c (Words.delete_matches (map Re.Lit (list_ascii_of_string (String k0 kr))) O t).
Proof.
  intros L N.
  cbn [list_ascii_of_string map Words.delete_matches Re.match_items Re.item_matches].
  rewrite L. destruct (Ascii.eqb_spec k0 (Re.lower c)) as [E | _]; [| reflexivity].
  now contradiction N.
Qed.

Lemma delete_foreign (k0 : ascii) (kr a t : string) :
  Re.lower k0 = k0 -> foreign_to (String k0 kr) a = true ->
  Words.delete_matches (map Re.Lit (list_ascii_of_string (String k0 kr))) O (a ++ t)
  = a ++ Words.delete_matches (map Re.Lit (list_ascii_of_string (String k0 kr))) O t.
Proof.
  intros L. unfold foreign_to. induction a as [| c a IH]; intros F; [reflexivity |].
  apply forallb_cons in F as [Fc Fa]. apply negb_true_iff in Fc.
  cbn [Re.mem] in Fc. apply orb_false_iff in Fc as [Fc _].
  change ((String c a ++ t)%string) with (String c (a ++ t)).
  rewrite delete_other_char; [| exact L |].
  - now rewrite (IH Fa).
  - intros E. rewrite E, Ascii.eqb_refl in Fc. discriminate Fc.
Qed.

(** The parser deletes the command word wherever it stands in the line,
    not only at its start: when the text after the command holds the word
    once more, in any letter case, between stretches [a] and [b] that
    share no letter with it, the arguments are those of [a] and [b] put
    together. A contact named "Maddy" is thus added as "My". *)
Theorem command_parser_deletes_command_word
    (k k1 k2 a b : string) (v : Main.command) :
  let line := k1 ++ " " ++ a ++ k2 ++ b in
  prepared line = line ->
  Main.find_command line Main.COMMANDS = Some (k, v) ->
  Words.lower k1 = k -> Words.lower k2 = k ->
  foreign_to k a = true -> foreign_to k b = true ->
  Main.command_parser line
  = Some (Some v, Words.rsplit (Str.strip (" " ++ a ++ b))).
Proof.
  intros line P F L1 L2 Fa Fb.
  unfold Main.command_parser. cbv zeta. fold (prepared line). rewrite P, F.
  destruct (find_command_In _ _ _ _ F) as [I _].
  pose proof (commands_plain k v I) as K.
  rewrite (re_sub_delete_plain k _ K). cbn [option_map]. do 4 f_equal.
  destruct (plain_key_parts k K) as (_ & Lk & k0 & kr & Ek & Nk).
  assert (N1 : k1 <> EmptyString) by (intros ->; cbn in L1; congruence).
  assert (N2 : k2 <> EmptyString) by (intros ->; cbn in L2; congruence).
  assert (L0 : Re.lower k0 = k0).
  { rewrite Ek in Lk. cbn [Words.lower] in Lk. now injection Lk. }
  unfold line. rewrite <- L1 at 1. rewrite (delete_own_word k1 _ N1). rewrite L1.
  change ((" " ++ a ++ k2 ++ b)%string) with (String " " (a ++ k2 ++ b)).
  rewrite Ek in *.
  rewrite delete_other_char; [| exact L0 | now intros <-].
  rewrite (delete_foreign k0 kr a _ L0 Fa).
  rewrite <- L2 at 1. rewrite (delete_own_word k2 _ N2). rewrite L2.
  rewrite <- (str_app_nil_r b) at 1.
  rewrite (delete_foreign k0 kr b _ L0 Fb). cbn [Words.delete_matches].
  now rewrite str_app_nil_r.
Qed.

Lemma command_parser_deletes_command_word_witness :
  Main.command_parser "ADD Maddy 12345" = Some (Some Main.Add, ["My"; "12345"]).
Proof.
  exact (command_parser_deletes_command_word "add" "ADD" "add" "M" "y 12345" Main.Add
           eq_refl eq_refl eq_refl eq_refl eq_refl eq_refl).
Defined.

(** ** [Birthday]: day and month on one digit *)

Ltac day_cases d :=
  let E := fresh "E" in
  assert (E : d = 1 \/ d = 2 \/ d = 3 \/ d = 4 \/ d = 5 \/ d = 6 \/ d = 7 \/ d = 8
              \/ d = 9 \/ d = 10 \/ d = 11 \/ d = 12 \/ d = 13 \/ d = 14 \/ d = 15
              \/ d = 16 \/ d = 17 \/ d = 18 \/ d = 19 \/ d = 20 \/ d = 21 \/ d = 22
              \/ d = 23 \/ d = 24 \/ d = 25 \/ d = 26 \/ d = 27 \/ d = 28 \/ d = 29
              \/ d = 30 \/ d = 31) by lia;
  repeat destruct E as [E | E]; subst d.

(** The day written without padding, before a dot or a slash. *)
Lemma first_day_alternative_plain {B : Type} (K : Z * string -> option B) (d : Z)
    (c : ascii) (rest : string) :
  1 <= d <= 31 -> c = "."%char \/ c = "/"%char ->
  (forall z r x, Str.char_isdecimal x = true -> K (z, String x r) = None) ->
  Datetime.first_match K (Datetime.alt_d (Str.of_int d ++ String c rest))
  = K (d, String c rest).
Proof.
  intros R Hc HK.
  destruct Hc as [-> | ->]; day_cases d; compute_alternatives;
    cbn [Datetime.first_match];
    repeat match goal with
           | |- context [K (?z, String ?x ?r)] => rewrite (HK z r x eq_refl)
           end;
    destruct (K _); reflexivity.
Qed.

Lemma first_month_alternative_plain {B : Type} (K : Z * string -> option B) (m : Z)
    (c : ascii) (rest : string) :
  1 <= m <= 12 -> c = "."%char \/ c = "/"%char ->
  (forall z r x, Str.char_isdecimal x = true -> K (z, String x r) = None) ->
  Datetime.first_match K (Datetime.alt_m (Str.of_int m ++ String c rest))
  = K (m, String c rest).
Proof.
  intros R Hc HK.
  destruct Hc as [-> | ->]; month_cases m; compute_alternatives;
    cbn [Datetime.first_match];
    repeat match goal with
           | |- context [K (?z, String ?x ?r)] => rewrite (HK z r x eq_refl)
           end;
    destruct (K _); reflexivity.
Qed.

Lemma strptime_any_padding (sep c : ascii) (dt mt : string) (y m d : Z) :
  sep = "."%char \/ sep = "/"%char -> c = "."%char \/ c = "/"%char ->
  dt = Str.of_int d \/ dt = Str.pad2 d ->
  mt = Str.of_int m \/ mt = Str.pad2 m ->
  Datetime.valid_date y m d = true -> 1000 <= y ->
  Datetime.strptime sep (dt ++ String c (mt ++ String c (Str.of_int y)))
  = if Ascii.eqb c sep then Ok (midnight y m d) else Raise ValueError.
Proof.
  intros Hsep Hc Hd Hm V Y.
  pose proof (valid_date_ranges _ _ _ V) as (Rd & Rm & Ry).
  assert (Hs : Str.char_isdecimal sep = false) by (destruct Hsep as [-> | ->]; reflexivity).
  unfold Datetime.strptime, Datetime.match_format.
  assert (D : forall B (K : Z * string -> option B) rest,
             (forall z r x, Str.char_isdecimal x = true -> K (z, String x r) = None) ->
             Datetime.first_match K (Datetime.alt_d (dt ++ String c rest))
             = K (d, String c rest)).
  { intros B K rest H. destruct Hd as [-> | ->].
    - now apply first_day_alternative_plain.
    - now apply first_day_alternative. }
  assert (Mo : forall B (K : Z * string -> option B) rest,
             (forall z r x, Str.char_isdecimal x = true -> K (z, String x r) = None) ->
             Datetime.first_match K (Datetime.alt_m (mt ++ String c rest))
             = K (m, String c rest)).
  { intros B K rest H. destruct Hm as [-> | ->].
    - now apply first_month_alternative_plain.
    - now apply first_month_alternative. }
  rewrite D by (intros z r x Hx; now rewrite (literal_not_digit sep x r Hs Hx)).
  cbn [Datetime.literal].
  destruct (Ascii.eqb_spec c sep) as [-> | N]; [| reflexivity].
  rewrite Mo by (intros z r x Hx; now rewrite (literal_not_digit sep x r Hs Hx)).
  rewrite literal_same, (year_text y) by lia.
  cbn [Str.is_empty negb]. now rewrite V.
Qed.

(** The two digits of the format are not asked for: a date of the
    calendar with a four-digit year is accepted, and read as that date,
    whether day and month are written with a leading zero or without, in
    any mix, with dots or with slashes. *)
Theorem birthday_new_accepts_unpadded (dt mt : string) (y m d : Z) (c : ascii) :
  Datetime.valid_date y m d = true -> 1000 <= y ->
  c = "."%char \/ c = "/"%char ->
  dt = Str.of_int d \/ dt = Str.pad2 d ->
  mt = Str.of_int m \/ mt = Str.pad2 m ->
  Birthday.new (dt ++ String c (mt ++ String c (Str.of_int y)))
  = Ok (Birthday.mk (midnight y m d)).
Proof.
  intros V Y Hc Hd Hm. unfold Birthday.new.
  rewrite (strptime_any_padding "." c dt mt y m d) by (assumption || now left).
  rewrite (strptime_any_padding "/" c dt mt y m d) by (assumption || now right).
  now destruct Hc as [-> | ->].
Qed.

Lemma birthday_new_accepts_unpadded_witness :
  Birthday.new "1.3.1990" = Ok (Birthday.mk (midnight 1990 3 1))
  /\ Birthday.new "01/3/1990" = Ok (Birthday.mk (midnight 1990 3 1)).
Proof.
  split.
  - apply (birthday_new_accepts_unpadded "1" "3" 1990 3 1 ".");
      (reflexivity || lia || now left).
  - apply (birthday_new_accepts_unpadded "01" "3" 1990 3 1 "/");
      (reflexivity || lia || (now left) || (now right)).
Defined.

(** ** [main.py]: deleting the e-mail and the birthday *)

(** The commands [del email] and [del b_day]. An unknown contact is
    answered "No such contact!" and the book stays as it is. On a known
    contact the field is cleared, whether it held something or not, and
    nothing else of the record changes; giving the command a second time
    changes nothing more and is answered the same. *)
Theorem del_field_commands (book : AddressBook.t) (contact : string) :
  match Dict.get contact book with
  | None =>
      run (Main.del_email contact) book = (Ok (Some Main.no_such_contact), book)
      /\ run (Main.del_birthday contact) book = (Ok (Some Main.no_such_contact), book)
  | Some rec =>
      run (Main.del_email contact) book
      = (Ok (Some ("Contact " ++ contact ++ ", email deleted")),
         Dict.set contact
           (Rec.mk (Rec.name rec) (Rec.phones rec) (Rec.birthday rec) None) book)
      /\ run (Main.del_birthday contact) book
         = (Ok (Some ("Contact " ++ contact ++ ", birthday deleted")),
            Dict.set contact
              (Rec.mk (Rec.name rec) (Rec.phones rec) None (Rec.email rec)) book)
  end
  /\ run (bind (Main.del_email contact) (fun _ => Main.del_email contact)) book
     = run (Main.del_email contact) book
  /\ run (bind (Main.del_birthday contact) (fun _ => Main.del_birthday contact)) book
     = run (Main.del_birthday contact) book.
Proof.
  unfold run, Main.del_email, Main.del_birthday, Main.input_error, bind,
    Main.on_record, ret.
  destruct (Dict.get contact book) as [rec |] eqn:G.
  - split; [now split |].
    rewrite !dict_get_set_same, !dict_set_twice. now split.
  - split; [now split |]. rewrite G. now split.
Qed.
